(** * hiplot/fetchers.py: loader dispatch, multi-source composition, registry

    A shallow embedding of [hiplot/fetchers.py] and the properties of its
    dispatch core:

    - [load_xp_with_fetchers], the ordered first-match dispatcher;
    - [MultipleFetcher], the loader of composite [multi://] uris, which
      re-enters the dispatcher through its own list of loaders;
    - [load_csv], as far as its calling contract goes;
    - [get_fetchers], which assembles the list of loaders.

    Conventions of the embedding.

    - A Python [str] is a Rocq [string] holding its UTF-8 encoding (every
      code point, surrogates included, encoded on its own).  The source only
      tests ASCII prefixes and suffixes, slices off an ASCII prefix and
      compares strings for equality, and all of these agree on the encoding.
    - A Python call returns a value or raises: [result].  Exceptions are one
      type, [exn]; [ExperimentFetcherDoesntApply] is one of them, as in the
      source, where the dispatcher's [except] clause picks it out.
    - Loaders read files and may keep state: everything outside the
      interpreter is an abstract [World], threaded through every call.
    - Python does not check the annotation [uri: str]: the sub-uris of a
      composite uri are whatever values its payload holds, and a loader is
      called with them.  The argument of a loader is a Python value,
      [pyval], of which the strings are [PStr].
    - The call [f(uri)] of a loader is an observable event: every function
      returns the calls it made, as a forest ([Call f uri inner], with
      [inner] the calls made while [f] ran).
    - Lists are Python objects: the heap maps a location to the current
      contents of a list, and a [MultipleFetcher] instance holds the
      location of its [self.fetchers].
    - Resource limits of the interpreter (recursion depth while decoding
      JSON, the length of integer literals) are not modelled. *)

From Stdlib Require Import ZArith NArith Ascii String DecimalString DecimalNat DecimalZ.
From Stdlib Require Import List Lia Bool.
From stdpp Require Import base option list gmap strings sorting.


(** ** Python strings *)

Module PyStr.

(** [s.startswith(p)] *)
Fixpoint startswith (s p : string) {struct p} : bool :=
  match p, s with
  | EmptyString, _ => true
  | String a p', String b s' => if Ascii.eqb a b then startswith s' p' else false
  | String _ _, EmptyString => false
  end.

(** [s[n:]] *)
Fixpoint slice_from (n : nat) (s : string) : string :=
  match n, s with
  | S n', String _ s' => slice_from n' s'
  | _, _ => s
  end.

(** [s.endswith(p)] *)
Definition endswith (s p : string) : bool :=
  (String.length p <=? String.length s)%nat
  && String.eqb (slice_from (String.length s - String.length p) s) p.

(** [s.split(sep)] for a separator of one character: never an empty list. *)
Fixpoint split (sep : ascii) (s : string) : list string :=
  match s with
  | EmptyString => [EmptyString]
  | String c s' =>
      if Ascii.eqb c sep then EmptyString :: split sep s'
      else match split sep s' with
           | p :: ps => String c p :: ps
           | [] => [String c EmptyString]
           end
  end.

(** [sep.join(parts)] *)
Definition join (sep : string) (parts : list string) : string :=
  String.concat sep parts.

(** [parts[:-1]] and [parts[-1]] *)
Definition but_last (parts : list string) : list string := removelast parts.
Definition last_part (parts : list string) : string := List.last parts EmptyString.

End PyStr.

(** ** [json.loads]

    The decoder of the standard library, after the scanner of CPython's
    [_json] module: [scan_once] dispatches on the first character,
    [JSONArray] and [JSONObject] loop over the items of a container and are
    handed [scan_once] as the source's are, [scanstring] decodes a string
    in strict mode.  [None] is [JSONDecodeError].  Functions take the text
    that is left to read and return the text left after what they read. *)

Module Json.

(** The Python values [json.loads] builds.  A number keeps the text it was
    read from: nothing in [fetchers.py] looks at its value. *)
#[local] Unset Elimination Schemes.
Inductive pyval :=
| PNone
| PBool (b : bool)
| PInt (text : string)
| PFloat (text : string)
| PStr (s : string)
| PList (items : list pyval)
| PDict (items : list (string * pyval)).
#[local] Set Elimination Schemes.

(** A [dict] with [str] keys: the items in insertion order.  Storing under
    a key that is present replaces the value and keeps the position. *)
Fixpoint dict_set {A} (k : string) (v : A) (d : list (string * A)) : list (string * A) :=
  match d with
  | [] => [(k, v)]
  | (k', v') :: d' =>
      if String.eqb k' k then (k, v) :: d' else (k', v') :: dict_set k v d'
  end.

(** [dict(pairs)] *)
Definition dict_of_pairs {A} (pairs : list (string * A)) : list (string * A) :=
  fold_left (fun d kv => dict_set (fst kv) (snd kv) d) pairs [].

Definition dquote : ascii := ascii_of_N 34.

Definition is_ws (c : ascii) : bool :=
  Ascii.eqb c " " || Ascii.eqb c "009" || Ascii.eqb c "010" || Ascii.eqb c "013".

(** [WHITESPACE.match(s, end).end()] *)
Fixpoint skip_ws (s : string) : string :=
  match s with
  | String c s' => if is_ws c then skip_ws s' else s
  | EmptyString => s
  end.

Definition is_digit (c : ascii) : bool :=
  (48 <=? N_of_ascii c)%N && (N_of_ascii c <=? 57)%N.

Definition hex_digit (c : ascii) : option N :=
  let n := N_of_ascii c in
  if (48 <=? n)%N && (n <=? 57)%N then Some (n - 48)%N
  else if (65 <=? n)%N && (n <=? 70)%N then Some (n - 55)%N
  else if (97 <=? n)%N && (n <=? 102)%N then Some (n - 87)%N
  else None.

(** Four hexadecimal digits, as after [\u]. *)
Definition hex4 (s : string) : option (N * string) :=
  match s with
  | String a (String b (String c (String d rest))) =>
      match hex_digit a, hex_digit b, hex_digit c, hex_digit d with
      | Some x, Some y, Some z, Some t => Some (x * 4096 + y * 256 + z * 16 + t, rest)%N
      | _, _, _, _ => None
      end
  | _ => None
  end.

Definition byte (n : N) : ascii := ascii_of_N n.

(** The UTF-8 encoding of one code point. *)
Definition utf8 (cp : N) : string :=
  if (cp <? 128)%N then String (byte cp) EmptyString
  else if (cp <? 2048)%N then
    String (byte (192 + cp / 64)) (String (byte (128 + cp mod 64)) EmptyString)
  else if (cp <? 65536)%N then
    String (byte (224 + cp / 4096))
      (String (byte (128 + (cp / 64) mod 64)) (String (byte (128 + cp mod 64)) EmptyString))
  else
    String (byte (240 + cp / 262144))
      (String (byte (128 + (cp / 4096) mod 64))
         (String (byte (128 + (cp / 64) mod 64)) (String (byte (128 + cp mod 64)) EmptyString))).

Definition is_high_surrogate (cp : N) : bool := (55296 <=? cp)%N && (cp <=? 56319)%N.
Definition is_low_surrogate (cp : N) : bool := (56320 <=? cp)%N && (cp <=? 57343)%N.
Definition join_surrogates (hi lo : N) : N := (65536 + (hi - 55296) * 1024 + (lo - 56320))%N.

(** A [\uXXXX] escape of a low surrogate, looked for after a high one. *)
Definition low_escape (s : string) : option (N * string) :=
  match s with
  | String b (String u rest) =>
      if Ascii.eqb b "\" && Ascii.eqb u "u" then
        match hex4 rest with
        | Some (lo, rest') => if is_low_surrogate lo then Some (lo, rest') else None
        | None => None
        end
      else None
  | _ => None
  end.

(** The character a one-letter escape stands for. *)
Definition unescape (c : ascii) : option ascii :=
  if Ascii.eqb c dquote then Some dquote
  else if Ascii.eqb c "\" then Some "\"%char
  else if Ascii.eqb c "/" then Some "/"%char
  else if Ascii.eqb c "b" then Some "008"%char
  else if Ascii.eqb c "f" then Some "012"%char
  else if Ascii.eqb c "n" then Some "010"%char
  else if Ascii.eqb c "r" then Some "013"%char
  else if Ascii.eqb c "t" then Some "009"%char
  else None.

Definition prepend (p : string) (r : option (string * string)) : option (string * string) :=
  match r with
  | Some (s, rest) => Some (String.append p s, rest)
  | None => None
  end.

(** [scanstring(s, end, strict=True)], entered after the opening quote. *)
Fixpoint scanstring (fuel : nat) (s : string) : option (string * string) :=
  match fuel with
  | O => None
  | S fuel =>
      match s with
      | EmptyString => None
      | String c rest =>
          if Ascii.eqb c dquote then Some (EmptyString, rest)
          else if Ascii.eqb c "\" then
            match rest with
            | EmptyString => None
            | String e rest1 =>
                if Ascii.eqb e "u" then
                  match hex4 rest1 with
                  | None => None
                  | Some (cp, rest2) =>
                      match (if is_high_surrogate cp then low_escape rest2 else None) with
                      | Some (lo, rest3) =>
                          prepend (utf8 (join_surrogates cp lo)) (scanstring fuel rest3)
                      | None => prepend (utf8 cp) (scanstring fuel rest2)
                      end
                  end
                else
                  match unescape e with
                  | Some ch => prepend (String ch EmptyString) (scanstring fuel rest1)
                  | None => None
                  end
            end
          else if (N_of_ascii c <? 32)%N then None
          else prepend (String c EmptyString) (scanstring fuel rest)
      end
  end.

(** The longest run of digits at the head of [s], and what follows. *)
Fixpoint digits (s : string) : string * string :=
  match s with
  | String c s' =>
      if is_digit c then let '(d, r) := digits s' in (String c d, r) else (EmptyString, s)
  | EmptyString => (EmptyString, s)
  end.

(** The integer part of a number: an optional minus sign, then [0] or a
    run of digits that does not start with [0]. *)
Definition int_part (s : string) : option (string * string) :=
  let '(sign, s1) :=
    match s with
    | String c s' => if Ascii.eqb c "-" then ("-", s') else (EmptyString, s)
    | EmptyString => (EmptyString, s)
    end in
  match s1 with
  | String c s2 =>
      if Ascii.eqb c "0" then Some (String.append sign "0", s2)
      else if is_digit c then
        let '(d, r) := digits s2 in Some (String.append sign (String c d), r)
      else None
  | EmptyString => None
  end.

(** The fraction of a number, a dot and at least one digit, when there is
    one. *)
Definition frac_part (s : string) : string * string :=
  match s with
  | String c s1 =>
      if Ascii.eqb c "." then
        match digits s1 with
        | (EmptyString, _) => (EmptyString, s)
        | (d, r) => (String c d, r)
        end
      else (EmptyString, s)
  | EmptyString => (EmptyString, s)
  end.

(** The exponent of a number, [e] or [E], an optional sign and at least
    one digit, when there is one. *)
Definition exp_part (s : string) : string * string :=
  match s with
  | String e s1 =>
      if Ascii.eqb e "e" || Ascii.eqb e "E" then
        let '(sign, s2) :=
          match s1 with
          | String c s' =>
              if Ascii.eqb c "-" || Ascii.eqb c "+"
              then (String c EmptyString, s') else (EmptyString, s1)
          | EmptyString => (EmptyString, s1)
          end in
        match digits s2 with
        | (EmptyString, _) => (EmptyString, s)
        | (d, r) => (String e (String.append sign d), r)
        end
      else (EmptyString, s)
  | EmptyString => (EmptyString, s)
  end.

(** [match_number]: an [int] without fraction and exponent, else a [float]. *)
Definition match_number (s : string) : option (pyval * string) :=
  match int_part s with
  | None => None
  | Some (i, s1) =>
      let '(f, s2) := frac_part s1 in
      let '(e, s3) := exp_part s2 in
      match f, e with
      | EmptyString, EmptyString => Some (PInt i, s3)
      | _, _ => Some (PFloat (String.append i (String.append f e)), s3)
      end
  end.

(** A fixed word at the head of [s]. *)
Definition literal (w : string) (v : pyval) (s : string) : option (pyval * string) :=
  if PyStr.startswith s w then Some (v, PyStr.slice_from (String.length w) s) else None.

Definition or_else {A} (x y : option A) : option A :=
  match x with Some _ => x | None => y end.

(** What [scan_once] does for a value that is neither a string nor a
    container. *)
Definition scan_atom (s : string) : option (pyval * string) :=
  or_else (literal "null" PNone s)
    (or_else (literal "true" (PBool true) s)
       (or_else (literal "false" (PBool false) s)
          (or_else (match_number s)
             (or_else (literal "NaN" (PFloat "NaN") s)
                (or_else (literal "Infinity" (PFloat "Infinity") s)
                   (literal "-Infinity" (PFloat "-Infinity") s)))))).

Section Containers.

Variable scan_once : string -> option (pyval * string).

(** The loop of [JSONArray]: a value, then [']'] or [','], between
    optional white space. *)
Fixpoint array_items (fuel : nat) (s : string) : option (list pyval * string) :=
  match fuel with
  | O => None
  | S fuel =>
      match scan_once s with
      | None => None
      | Some (v, s1) =>
          match skip_ws s1 with
          | EmptyString => None
          | String c s2 =>
              if Ascii.eqb c "]" then Some ([v], s2)
              else if Ascii.eqb c "," then
                match array_items fuel (skip_ws s2) with
                | Some (vs, s3) => Some (v :: vs, s3)
                | None => None
                end
              else None
          end
      end
  end.

(** [JSONArray], entered after the opening bracket. *)
Definition JSONArray (fuel : nat) (s : string) : option (pyval * string) :=
  match skip_ws s with
  | EmptyString => None
  | String c s1 as s' =>
      if Ascii.eqb c "]" then Some (PList [], s1)
      else match array_items fuel s' with
           | Some (vs, s2) => Some (PList vs, s2)
           | None => None
           end
  end.

(** The loop of [JSONObject], entered after the opening quote of a key:
    the key, [':'], a value, then ['}'] or [','] and the next key's
    quote. *)
Fixpoint object_pairs (fuel : nat) (s : string) : option (list (string * pyval) * string) :=
  match fuel with
  | O => None
  | S fuel =>
      match scanstring (String.length s) s with
      | None => None
      | Some (k, s1) =>
          match skip_ws s1 with
          | EmptyString => None
          | String c s2 =>
              if negb (Ascii.eqb c ":") then None
              else
                match scan_once (skip_ws s2) with
                | None => None
                | Some (v, s3) =>
                    match skip_ws s3 with
                    | EmptyString => None
                    | String d s4 =>
                        if Ascii.eqb d "}" then Some ([(k, v)], s4)
                        else if Ascii.eqb d "," then
                          match skip_ws s4 with
                          | EmptyString => None
                          | String q s5 =>
                              if negb (Ascii.eqb q dquote) then None
                              else
                                match object_pairs fuel s5 with
                                | Some (kvs, s6) => Some ((k, v) :: kvs, s6)
                                | None => None
                                end
                          end
                        else None
                    end
                end
          end
      end
  end.

(** [JSONObject], entered after the opening brace. *)
Definition JSONObject (fuel : nat) (s : string) : option (pyval * string) :=
  match skip_ws s with
  | EmptyString => None
  | String c s1 =>
      if Ascii.eqb c "}" then Some (PDict [], s1)
      else if Ascii.eqb c dquote then
        match object_pairs fuel s1 with
        | Some (kvs, s2) => Some (PDict (dict_of_pairs kvs), s2)
        | None => None
        end
      else None
  end.

End Containers.

(** [scan_once]: one value at the head of [s].  [fuel] bounds the nesting
    of containers; the length of the text is always enough. *)
Fixpoint scan_once (fuel : nat) (s : string) : option (pyval * string) :=
  match fuel with
  | O => None
  | S fuel =>
      match s with
      | EmptyString => None
      | String c rest =>
          if Ascii.eqb c dquote then
            match scanstring (String.length rest) rest with
            | Some (str, rest') => Some (PStr str, rest')
            | None => None
            end
          else if Ascii.eqb c "{" then JSONObject (scan_once fuel) (String.length rest) rest
          else if Ascii.eqb c "[" then JSONArray (scan_once fuel) (String.length rest) rest
          else scan_atom s
      end
  end.

(** [json.loads(s)]: one value between optional white space, and nothing
    after it. *)
Definition loads (s : string) : option pyval :=
  match scan_once (String.length s) (skip_ws s) with
  | Some (v, rest) =>
      match skip_ws rest with
      | EmptyString => Some v
      | String _ _ => None
      end
  | None => None
  end.

(** *** What a scanner has read

    The notions the facts about the decoder are stated with. *)

(** The values that hold no sub-uri. *)
Definition atom (v : pyval) : Prop :=
  match v with
  | PStr _ | PList _ | PDict _ => False
  | _ => True
  end.

(** [v], decoded from [n] characters, holds only sub-uris shorter than [n]. *)
Definition bounded (n : nat) (v : pyval) : Prop :=
  match v with
  | PStr u => String.length u < n
  | PList vs => forall u, In (PStr u) vs -> String.length u < n
  | PDict d => forall k u, In (k, PStr u) d -> String.length u < n
  | _ => True
  end.

(** What a scanner that returned [v] and the text [rest] has read of [s]. *)
Definition scanned (s : string) (v : pyval) (rest : string) : Prop :=
  String.length rest <= String.length s
  /\ bounded (String.length s - String.length rest) v.

End Json.

(** ** Values, exceptions, results *)

Import Json.

(** The address of a Python object on the heap. *)
Definition loc := nat.

(** The exceptions that matter to the dispatch.  [OtherException] stands for
    every class the source neither raises nor catches by name. *)
Inductive exn :=
| ExperimentFetcherDoesntApply (msg : option string)
| NoFetcherFound (uri : pyval)
| JSONDecodeError
| AttributeError (attr : string)
| TypeError (msg : string)
| FileNotFoundError
| ModuleNotFoundError
| OtherException (name : string).

(** Where the embedding stops describing the interpreter.
    - [OutOfFuel]: the bound on nested calls was reached ([call_enough_fuel]
      shows that the functions below never reach it).
    - [NonStringKey]: the loaders returned an Experiment for a sub-uri of the
      list form that is [None], a [bool] or a number.  The dict of the
      comprehension is then keyed by that value, under Python's equality of
      numbers, and [merge] is handed a key that is not a [str]: neither is
      described here.
    - [NoSuchObject]: an address without an object, which no Python program
      can hold. *)
Inductive gap :=
| OutOfFuel
| NonStringKey (k : pyval)
| NoSuchObject (l : loc).

Inductive result (A : Type) :=
| Return (a : A)
| Raise (e : exn)
| Unmodelled (g : gap).
Arguments Return {A} a.
Arguments Raise {A} e.
Arguments Unmodelled {A} g.

(** A result that carries no value keeps its meaning at another type. *)
Definition rethrow {A B} (r : result A) (k : A -> result B) : result B :=
  match r with
  | Return a => k a
  | Raise e => Raise e
  | Unmodelled g => Unmodelled g
  end.

Definition out_of_fuel {A} (r : result A) : Prop := r = Unmodelled OutOfFuel.

Definition declines {A} (r : result A) : bool :=
  match r with
  | Raise (ExperimentFetcherDoesntApply _) => true
  | _ => false
  end.

(** ** The sub-uris of a payload *)

(** The items the comprehensions of [__call__] run over: [for v in defs],
    keyed by [v] itself, or [for k, v in defs.items()]. *)
Definition list_items (defs : list pyval) : list (pyval * pyval) :=
  map (fun v => (v, v)) defs.
Definition dict_items (defs : list (string * pyval)) : list (pyval * pyval) :=
  map (fun kv => (PStr (fst kv), snd kv)) defs.

(** The items of a decoded payload, when it is a list or a mapping. *)
Definition payload_items (defs : pyval) : option (list (pyval * pyval)) :=
  match defs with
  | PList vs => Some (list_items vs)
  | PDict kvs => Some (dict_items kvs)
  | _ => None
  end.

(** The keys and sub-uris of items whose keys are all strings. *)
Fixpoint keyed_uris (items : list (pyval * pyval)) : option (list (string * pyval)) :=
  match items with
  | [] => Some []
  | (PStr k, v) :: rest =>
      match keyed_uris rest with
      | Some kvs => Some ((k, v) :: kvs)
      | None => None
      end
  | _ => None
  end.

(** The keys and sub-uris of a decoded payload: those of a mapping, and
    those of a list of strings. *)
Definition sub_uris (defs : pyval) : option (list (string * pyval)) :=
  match payload_items defs with
  | Some items => keyed_uris items
  | None => None
  end.

(** The length of a uri; a value that is not a string counts for nothing. *)
Definition size (uri : pyval) : nat :=
  match uri with
  | PStr s => String.length s
  | _ => 0
  end.

(** ** The dispatcher and [MultipleFetcher] *)

Section Dispatch.

(** [hip.Experiment], the state of everything outside the interpreter, and
    [hip.Experiment.merge], which is not part of [fetchers.py]. *)
Context {Experiment World : Type}.
Variable merge : list (string * Experiment) -> Experiment.

(** An [ExperimentFetcher]: a function, given by what its body does, or an
    instance of [MultipleFetcher], given by its attribute [fetchers]. *)
Inductive fetcher :=
| Function (name : string) (body : pyval -> World -> (Experiment + exn) * World)
| MultipleFetcher (fetchers : loc).

(** The call [f(uri)] and the calls made while it ran. *)
#[local] Unset Elimination Schemes.
Inductive event :=
| Call (f : fetcher) (uri : pyval) (inner : list event).
#[local] Set Elimination Schemes.

(** What running a piece of code gives: its result, the world it leaves,
    the calls of loaders it made. *)
Definition run (A : Type) : Type := result A * World * list event.

Definition MULTI_PREFIX : string := "multi://".

Section Calls.

(** The list objects, and the meaning of [f(uri)] for the loaders that
    the code below calls. *)
Variable h : gmap loc (list fetcher).
Variable call : fetcher -> pyval -> World -> run Experiment.

(** [load_xp_with_fetchers(fetchers, uri)] *)
Fixpoint load_xp_with_fetchers_ (fetchers : list fetcher) (uri : pyval) (w : World)
  : run Experiment :=
  match fetchers with
  | [] => (Raise (NoFetcherFound uri), w, [])
  | f :: rest =>
      let '(r, w1, inner) := call f uri w in
      if declines r then
        let '(r', w2, evs) := load_xp_with_fetchers_ rest uri w1 in
        (r', w2, Call f uri inner :: evs)
      else (r, w1, [Call f uri inner])
  end.

(** The dict comprehensions of [__call__],
    [{k: load_xp_with_fetchers(self.fetchers, v) for k, v in items}],
    continued from the dict [d] built so far.  Each item is resolved, then
    stored under its key, which has to be hashable: a list or a mapping is
    not. *)
Fixpoint comprehension (self_fetchers : loc) (items : list (pyval * pyval))
    (d : list (string * Experiment)) (w : World)
  : run (list (string * Experiment)) :=
  match items with
  | [] => (Return d, w, [])
  | (k, v) :: items' =>
      match h !! self_fetchers with
      | None => (Unmodelled (NoSuchObject self_fetchers), w, [])
      | Some fetchers =>
          let '(r, w1, evs) := load_xp_with_fetchers_ fetchers v w in
          match r with
          | Return xp =>
              match k with
              | PStr key =>
                  let '(r', w2, evs') :=
                    comprehension self_fetchers items' (dict_set key xp d) w1 in
                  (r', w2, evs ++ evs')
              | PList _ | PDict _ => (Raise (TypeError "unhashable type"), w1, evs)
              | _ => (Unmodelled (NonStringKey k), w1, evs)
              end
          | Raise e => (Raise e, w1, evs)
          | Unmodelled g => (Unmodelled g, w1, evs)
          end
      end
  end.

(** [MultipleFetcher.__call__(self, uri)]; only a [str] has [startswith]. *)
Definition MultipleFetcher_call_ (self_fetchers : loc) (uri : pyval) (w : World)
  : run Experiment :=
  match uri with
  | PStr uri =>
      if negb (PyStr.startswith uri MULTI_PREFIX) then
        (Raise (ExperimentFetcherDoesntApply None), w, [])
      else
        match loads (PyStr.slice_from (String.length MULTI_PREFIX) uri) with
        | None => (Raise JSONDecodeError, w, [])
        | Some (PList defs) =>
            let '(r, w1, evs) := comprehension self_fetchers (list_items defs) [] w in
            (rethrow r (fun d => Return (merge d)), w1, evs)
        | Some (PDict defs) =>
            let '(r, w1, evs) := comprehension self_fetchers (dict_items defs) [] w in
            (rethrow r (fun d => Return (merge d)), w1, evs)
        | Some _ => (Raise (AttributeError "items"), w, [])
        end
  | _ => (Raise (AttributeError "startswith"), w, [])
  end.

End Calls.

(** [f(uri)] for a loader [f], with a bound [fuel] on the nesting of calls
    of [MultipleFetcher] instances. *)
Fixpoint call_ (h : gmap loc (list fetcher)) (fuel : nat) (f : fetcher) (uri : pyval) (w : World)
  : run Experiment :=
  match f with
  | Function _ body =>
      match body uri w with
      | (inl xp, w') => (Return xp, w', [])
      | (inr e, w') => (Raise e, w', [])
      end
  | MultipleFetcher self_fetchers =>
      match fuel with
      | O => (Unmodelled OutOfFuel, w, [])
      | S fuel' => MultipleFetcher_call_ h (call_ h fuel') self_fetchers uri w
      end
  end.

(** Every nested call of a [MultipleFetcher] is on a strictly smaller uri,
    so this many nested calls are never all used. *)
Definition fuel_for (uri : pyval) : nat := S (size uri).

(** [f(uri)] *)
Definition call (h : gmap loc (list fetcher)) (f : fetcher) (uri : pyval) (w : World)
  : run Experiment :=
  call_ h (fuel_for uri) f uri w.

(** [load_xp_with_fetchers(fetchers, uri)] *)
Definition load_xp_with_fetchers (h : gmap loc (list fetcher))
    (fetchers : list fetcher) (uri : pyval) (w : World) : run Experiment :=
  load_xp_with_fetchers_ (call h) fetchers uri w.

(** [self(uri)] for the instance of [MultipleFetcher] whose [self.fetchers]
    is the list at [self_fetchers]. *)
Definition MultipleFetcher_call (h : gmap loc (list fetcher))
    (self_fetchers : loc) (uri : pyval) (w : World) : run Experiment :=
  call h (MultipleFetcher self_fetchers) uri w.

(** [MultipleFetcher(fetchers)]: [__init__] stores the new list
    [fetchers + [self]] in the new instance. *)
Definition MultipleFetcher_init (h : gmap loc (list fetcher)) (fetchers : loc)
  : result fetcher * gmap loc (list fetcher) :=
  match h !! fetchers with
  | None => (Unmodelled (NoSuchObject fetchers), h)
  | Some l =>
      let self_fetchers := fresh (dom h) in
      let self := MultipleFetcher self_fetchers in
      (Return self, <[self_fetchers := l ++ [self]]> h)
  end.

(** The loaders of [fetchers], called in order on [uri], all decline: the
    world they leave. *)
Fixpoint all_decline (h : gmap loc (list fetcher)) (fetchers : list fetcher) (uri : pyval)
    (w : World) : option World :=
  match fetchers with
  | [] => Some w
  | f :: rest =>
      let '(r, w1, _) := call h f uri w in
      if declines r then all_decline h rest uri w1 else None
  end.

(** The sub-uris [uris] resolved one after the other through the dispatcher,
    up to the first that fails: the Experiments in order, or the failure. *)
Fixpoint resolve_each (h : gmap loc (list fetcher)) (fetchers : list fetcher)
    (uris : list pyval) (w : World) : run (list Experiment) :=
  match uris with
  | [] => (Return [], w, [])
  | v :: rest =>
      let '(r, w1, evs) := load_xp_with_fetchers h fetchers v w in
      match r with
      | Return xp =>
          let '(r', w2, evs') := resolve_each h fetchers rest w1 in
          (rethrow r' (fun xps => Return (xp :: xps)), w2, evs ++ evs')
      | Raise e => (Raise e, w1, evs)
      | Unmodelled g => (Unmodelled g, w1, evs)
      end
  end.

(** What [__call__] returns once every sub-uri is resolved: the merge of the
    dict that maps each key to the Experiment of its sub-uri. *)
Definition merged (keys : list string) (r : run (list Experiment)) : run Experiment :=
  let '(r', w, evs) := r in
  (rethrow r' (fun xps => Return (merge (dict_of_pairs (zip keys xps)))), w, evs).

(** The calls of the loaders of [fetchers] on [uri], none of which called
    anything itself. *)
Definition plain_calls (fetchers : list fetcher) (uri : pyval) : list event :=
  map (fun f => Call f uri []) fetchers.

End Dispatch.

(** ** [load_csv] *)

Section LoadCsv.

Context {Experiment World File : Type}.

(** [open(uri, newline="")], and the body of the [with] statement,
    [hip.Experiment.from_iterable(csv.DictReader(csvfile))], with the closing
    of the file. *)
Variable open_ : string -> World -> (File + exn) * World.
Variable from_iterable_DictReader : File -> World -> (Experiment + exn) * World.

(** [load_csv(uri)]; only a [str] has [endswith]. *)
Definition load_csv (uri : pyval) (w : World) : (Experiment + exn) * World :=
  match uri with
  | PStr uri =>
      if negb (PyStr.endswith uri ".csv") then
        (inr (ExperimentFetcherDoesntApply (Some ("Not a CSV file: " +:+ uri))), w)
      else
        let '(r, w1) :=
          match open_ uri w with
          | (inl csvfile, w0) => from_iterable_DictReader csvfile w0
          | (inr e, w0) => (inr e, w0)
          end in
        match r with
        | inr FileNotFoundError =>
            (inr (ExperimentFetcherDoesntApply (Some ("No such file: " +:+ uri))), w1)
        | _ => (r, w1)
        end
  | _ => (inr (AttributeError "endswith"), w)
  end.

End LoadCsv.

(** ** [get_fetchers] *)

Section Registry.

Context {Experiment World Module : Type}.

(** [importlib.import_module(name)]; [os.getcwd()]; the path
    [str(Path(cwd) / file)]; the module made from the source file at a path
    ([spec_from_file_location], [module_from_spec], [exec_module]);
    [getattr(module, name)], where [None] is [AttributeError]. *)
Variable import_module : string -> World -> (Module + exn) * World.
Variable getcwd : World -> string.
Variable path_join : string -> string -> string.
Variable exec_source_file : string -> string -> World -> (Module + exn) * World.
Variable getattr : Module -> string -> option (@fetcher Experiment World).

(** The loaders the module defines, by what their bodies do; [load_csv] is
    the one above, over [open] and the reader of CSV files. *)
Context {File : Type}.
Variable open_ : string -> World -> (File + exn) * World.
Variable from_iterable_DictReader : File -> World -> (Experiment + exn) * World.
Variables load_demo load_json load_fairseq load_wav2letter :
  pyval -> World -> (Experiment + exn) * World.

(** [_get_module_by_name_in_cwd(name)] *)
Definition _get_module_by_name_in_cwd (name : string) (w : World) : (Module + exn) * World :=
  exec_source_file name (path_join (getcwd w) (name +:+ ".py")) w.

(** The body of the loop of [get_fetchers], up to the loader it appends. *)
Definition resolve_spec (fetcher_spec : string) (w : World)
  : (@fetcher Experiment World + exn) * World :=
  let parts := PyStr.split "." fetcher_spec in
  let '(r, w1) :=
    match import_module (PyStr.join "." (PyStr.but_last parts)) w with
    | (inr ModuleNotFoundError, w0) =>
        if negb (length parts =? 2) then (inr ModuleNotFoundError, w0)
        else _get_module_by_name_in_cwd (hd EmptyString parts) w0
    | imported => imported
    end in
  match r with
  | inl module =>
      match getattr module (PyStr.last_part parts) with
      | Some fetcher => (inl fetcher, w1)
      | None => (inr (AttributeError (PyStr.last_part parts)), w1)
      end
  | inr e => (inr e, w1)
  end.

(** [l.append(x)] on the list object at [l]. *)
Definition list_append (l : loc) (x : @fetcher Experiment World)
    (h : gmap loc (list (@fetcher Experiment World))) : gmap loc (list (@fetcher Experiment World)) :=
  alter (fun items => items ++ [x]) l h.

(** The loop of [get_fetchers] over [add_fetchers]. *)
Fixpoint append_fetchers (xp_fetchers : loc) (add_fetchers : list string)
    (h : gmap loc (list (@fetcher Experiment World))) (w : World)
  : result unit * gmap loc (list (@fetcher Experiment World)) * World :=
  match add_fetchers with
  | [] => (Return tt, h, w)
  | fetcher_spec :: rest =>
      match resolve_spec fetcher_spec w with
      | (inl fetcher, w1) => append_fetchers xp_fetchers rest (list_append xp_fetchers fetcher h) w1
      | (inr e, w1) => (Raise e, h, w1)
      end
  end.

(** [[load_demo, load_csv, load_json, load_fairseq, load_wav2letter]] *)
Definition builtin_fetchers : list (@fetcher Experiment World) :=
  [Function "load_demo" load_demo;
   Function "load_csv" (load_csv open_ from_iterable_DictReader);
   Function "load_json" load_json;
   Function "load_fairseq" load_fairseq;
   Function "load_wav2letter" load_wav2letter].

(** [get_fetchers(add_fetchers)]: the list object it returns. *)
Definition get_fetchers (add_fetchers : list string)
    (h : gmap loc (list (@fetcher Experiment World))) (w : World)
  : result loc * gmap loc (list (@fetcher Experiment World)) * World :=
  let xp_fetchers := fresh (dom h) in
  let h0 := <[xp_fetchers := builtin_fetchers]> h in
  let '(r, h1, w1) := append_fetchers xp_fetchers add_fetchers h0 w in
  match r with
  | Return _ =>
      match MultipleFetcher_init h1 xp_fetchers with
      | (Return self, h2) => (Return xp_fetchers, list_append xp_fetchers self h2, w1)
      | (Raise e, h2) => (Raise e, h2, w1)
      | (Unmodelled g, h2) => (Unmodelled g, h2, w1)
      end
  | Raise e => (Raise e, h1, w1)
  | Unmodelled g => (Unmodelled g, h1, w1)
  end.

(** The specifications of [add_fetchers] resolved one after the other, up to
    the first that fails: the loaders in order, or the failure. *)
Fixpoint resolve_specs (add_fetchers : list string) (w : World)
  : (list (@fetcher Experiment World) + exn) * World :=
  match add_fetchers with
  | [] => (inl [], w)
  | fetcher_spec :: rest =>
      match resolve_spec fetcher_spec w with
      | (inl fetcher, w1) =>
          match resolve_specs rest w1 with
          | (inl fetchers, w2) => (inl (fetcher :: fetchers), w2)
          | (inr e, w2) => (inr e, w2)
          end
      | (inr e, w1) => (inr e, w1)
      end
  end.

End Registry.

(** ** [Experiment.merge] *)

Section Merge.

(** The values of the fields of a datapoint, and the way a uid is marked
    with the key of the sub-source it comes from: the spec fixes neither. *)
Context {Value : Type}.
Variable namespace : string -> string -> string.

(** Modelled from the spec: [hip.Datapoint], of [hiplot/experiment.py], which
    is not among the sources.  The spec (3): "a record with a unique
    identifier ([uid], string), a mapping from field name to value, and an
    optional [from_uid] lineage pointer". *)
Record Datapoint := {
  uid : string;
  values : list (string * Value);
  from_uid : option string
}.

(** Modelled from the spec: [hip.Experiment], "an ordered collection of
    Datapoints". *)
Definition Experiment := list Datapoint.

(** Modelled from the spec: the copy of a datapoint that [merge] makes under
    the key [k].  Its uid and its lineage link are namespaced by [k], so the
    link stays inside the sub-source. *)
Definition namespaced (k : string) (d : Datapoint) : Datapoint :=
  {| uid := namespace k (uid d);
     values := values d;
     from_uid := option_map (namespace k) (from_uid d) |}.

(** Modelled from the spec: [hip.Experiment.merge], of [hiplot/experiment.py],
    which is not among the sources.  The spec (4.2, step 4): it "produces a
    single Experiment whose datapoints are the union of all sub-experiments'
    datapoints, each namespaced/tagged by its originating key so that
    identical uids from different sub-sources never collide; lineage
    ([from_uid]) links are preserved only within the same sub-source". *)
Definition Experiment_merge (xp_dict : list (string * Experiment)) : Experiment :=
  flat_map (fun kx => map (namespaced (fst kx)) (snd kx)) xp_dict.

(** What the spec asks of the namespacing: one uid under two different keys
    gives two different uids. *)
Definition never_collide : Prop :=
  forall k1 k2 u, k1 <> k2 -> namespace k1 u <> namespace k2 u.

End Merge.

(** ** Writing JSON texts

    A text written with apostrophes, with a double quote for each of them:
    [quoted "['a']"] is the text of the JSON list of the string [a]. *)

Definition quoted (s : string) : string :=
  String.string_of_list_ascii
    (map (fun c => if Ascii.eqb c "'" then dquote else c) (String.list_ascii_of_string s)).

(** ** A small instance

    Loaders that answer one uri each and count the calls made so far, for
    the examples below. *)

Module Demo.

Definition namespace (k u : string) : string := k +:+ "_" +:+ u.

Definition Xp : Type := @Experiment string.
Definition merge : list (string * Xp) -> Xp := Experiment_merge namespace.

Definition point (uid : string) (from_uid : option string) : @Datapoint string :=
  {| uid := uid; values := [("seen", uid)]; from_uid := from_uid |}.

(** [uri == name], for a string [name]. *)
Definition is_str (name : string) (uri : pyval) : bool :=
  match uri with
  | PStr s => String.eqb s name
  | _ => false
  end.

(** The world: how many loaders ran. *)
Definition answers (name : string) (xp : Xp) : @fetcher Xp nat :=
  Function name (fun uri w =>
    if is_str name uri then (inl xp, S w)
    else (inr (ExperimentFetcherDoesntApply None), S w)).

Definition loader_a : @fetcher Xp nat := answers "a" [point "1" None; point "2" (Some "1")].
Definition loader_b : @fetcher Xp nat := answers "b" [point "1" None].

(** A loader that recognises [bad] and fails on it. *)
Definition loader_bad : @fetcher Xp nat :=
  Function "bad" (fun uri w =>
    if is_str "bad" uri then (inr (OtherException "ValueError"), S w)
    else (inr (ExperimentFetcherDoesntApply (Some "not bad")), S w)).

(** A loader that answers [a] with a datapoint numbered by the calls made
    before it. *)
Definition loader_count : @fetcher Xp nat :=
  Function "count" (fun uri w =>
    if is_str "a" uri
    then (inl [point (String (ascii_of_nat (48 + w)) EmptyString) None], S w)
    else (inr (ExperimentFetcherDoesntApply None), S w)).

(** A heap with the list [[loader_a, loader_bad, loader_b]] at address 0, and
    the one [MultipleFetcher(...)] makes of it. *)
Definition h0 : gmap loc (list (@fetcher Xp nat)) := {[ 0 := [loader_a; loader_bad; loader_b] ]}.
Definition h1 : gmap loc (list (@fetcher Xp nat)) := (MultipleFetcher_init h0 0).2.

(** The heap after [MultipleFetcher([loader_count])]: the instance keeps its
    list, [[loader_count, self]], at address 1. *)
Definition h_count : gmap loc (list (@fetcher Xp nat)) :=
  (MultipleFetcher_init {[ 0 := [loader_count] ]} 0).2.

(** One file, [data.csv], and a reader that makes one datapoint of its
    text. *)
Definition open_ (uri : string) (w : nat) : (string + exn) * nat :=
  if String.eqb uri "data.csv" then (inl "x,y", S w) else (inr FileNotFoundError, S w).
Definition from_iterable_DictReader (csvfile : string) (w : nat) : (Xp + exn) * nat :=
  (inl [point csvfile None], w).

(** Modules are the lists of their attributes.  [mymodule] can be imported
    and defines [myloader]; [broken] fails while it is imported; the working
    directory, [/work], holds the script [script.py], which defines [run]. *)
Definition import_module (name : string) (w : nat)
  : (list (string * @fetcher Xp nat) + exn) * nat :=
  if String.eqb name "mymodule" then (inl [("myloader", loader_a)], S w)
  else if String.eqb name "broken" then (inr (OtherException "SyntaxError"), S w)
  else (inr ModuleNotFoundError, S w).
Definition getcwd (w : nat) : string := "/work".
Definition path_join (dir file : string) : string := dir +:+ "/" +:+ file.
Definition exec_source_file (name path : string) (w : nat)
  : (list (string * @fetcher Xp nat) + exn) * nat :=
  if String.eqb path "/work/script.py" then (inl [("run", loader_b)], S w)
  else (inr FileNotFoundError, S w).
Fixpoint getattr (module : list (string * @fetcher Xp nat)) (name : string)
  : option (@fetcher Xp nat) :=
  match module with
  | [] => None
  | (n, f) :: rest => if String.eqb n name then Some f else getattr rest name
  end.

(** Built-in loaders that decline everything. *)
Definition declining (uri : pyval) (w : nat) : (Xp + exn) * nat :=
  (inr (ExperimentFetcherDoesntApply None), w).

Definition resolve_spec : string -> nat -> (@fetcher Xp nat + exn) * nat :=
  resolve_spec import_module getcwd path_join exec_source_file getattr.
Definition resolve_specs : list string -> nat -> (list (@fetcher Xp nat) + exn) * nat :=
  resolve_specs import_module getcwd path_join exec_source_file getattr.
Definition get_fetchers (add_fetchers : list string)
  : result loc * gmap loc (list (@fetcher Xp nat)) * nat :=
  get_fetchers import_module getcwd path_join exec_source_file getattr
    open_ from_iterable_DictReader declining declining declining declining
    add_fetchers ∅ 0.

End Demo.

(** ** More of Python's strings

    The operations the other loaders use.  A [str] is read one code point at
    a time: [codepoints] cuts the UTF-8 text where each code point starts, and
    the operations that count or test characters work on those pieces. *)

Module PyText.

(** [c in s], for a character [c] of one byte. *)
Fixpoint has_char (c : ascii) (s : string) : bool :=
  match s with
  | EmptyString => false
  | String d s' => Ascii.eqb d c || has_char c s'
  end.

(** [needle in hay] *)
Fixpoint contains (needle hay : string) : bool :=
  PyStr.startswith hay needle
  || match hay with
     | EmptyString => false
     | String _ hay' => contains needle hay'
     end.

(** The bytes [10xxxxxx], which continue a code point. *)
Definition is_continuation (c : ascii) : bool :=
  (128 <=? N_of_ascii c)%N && (N_of_ascii c <? 192)%N.

(** Whether [s] goes on with the code point begun before it. *)
Definition continues (s : string) : bool :=
  match s with
  | String d _ => is_continuation d
  | EmptyString => false
  end.

(** The code points of [s], each as the text of its bytes. *)
Fixpoint codepoints (s : string) : list string :=
  match s with
  | EmptyString => []
  | String c s' =>
      let chs := codepoints s' in
      if continues s' then
        match chs with
        | ch :: chs' => String c ch :: chs'
        | [] => [String c EmptyString]
        end
      else String c EmptyString :: chs
  end.

(** The bytes of a code point after its first are bytes that continue it:
    whether the bytes of [s] all do, and whether [ch] is one code point. *)
Fixpoint all_continue (s : string) : bool :=
  match s with
  | EmptyString => true
  | String c s' => is_continuation c && all_continue s'
  end.

Definition is_code_point (ch : string) : bool :=
  match ch with
  | EmptyString => false
  | String c rest => negb (is_continuation c) && all_continue rest
  end.

(** [len(s)] *)
Definition len (s : string) : nat := length (codepoints s).

(** [s[:n]], [s[-n:]] for [n > 0], and [s[0]] where there is one. *)
Definition first_chars (n : nat) (s : string) : string :=
  String.concat EmptyString (take n (codepoints s)).
Definition last_chars (n : nat) (s : string) : string :=
  String.concat EmptyString (drop (len s - n) (codepoints s)).
Definition first_char (s : string) : option string := head (codepoints s).

(** [s[::-1]] *)
Definition reversed (s : string) : string :=
  String.concat EmptyString (rev (codepoints s)).

Definition chr (bytes : list N) : string :=
  String.string_of_list_ascii (map ascii_of_N bytes).

(** The code points for which [str.isspace] holds, which [split()] and
    [strip()] take for white space: U+0009 to U+000D, U+001C to U+0020,
    U+0085, U+00A0, U+1680, U+2000 to U+200A, U+2028, U+2029, U+202F, U+205F
    and U+3000. *)
Definition whitespace : list string :=
  map chr
    [[9]; [10]; [11]; [12]; [13]; [28]; [29]; [30]; [31]; [32];
     [194; 133]; [194; 160]; [225; 154; 128];
     [226; 128; 128]; [226; 128; 129]; [226; 128; 130]; [226; 128; 131];
     [226; 128; 132]; [226; 128; 133]; [226; 128; 134]; [226; 128; 135];
     [226; 128; 136]; [226; 128; 137]; [226; 128; 138];
     [226; 128; 168]; [226; 128; 169]; [226; 128; 175]; [226; 129; 159];
     [227; 128; 128]]%N.

Definition is_space (ch : string) : bool :=
  existsb (String.eqb ch) whitespace.

(** The loop of [s.split()]: [cur] is the word being read. *)
Fixpoint split_words (chs : list string) (cur : string) : list string :=
  match chs with
  | [] => match cur with EmptyString => [] | _ => [cur] end
  | ch :: chs' =>
      if is_space ch then
        match cur with
        | EmptyString => split_words chs' EmptyString
        | _ => cur :: split_words chs' EmptyString
        end
      else split_words chs' (cur +:+ ch)
  end.

(** [s.split()]: the words between runs of white space. *)
Definition split_whitespace (s : string) : list string :=
  split_words (codepoints s) EmptyString.

(** [s.lstrip()], [s.rstrip()], [s.strip()] *)
Fixpoint drop_spaces (chs : list string) : list string :=
  match chs with
  | ch :: chs' => if is_space ch then drop_spaces chs' else chs
  | [] => []
  end.
Definition lstrip (s : string) : string :=
  String.concat EmptyString (drop_spaces (codepoints s)).
Definition rstrip (s : string) : string :=
  String.concat EmptyString (rev (drop_spaces (rev (codepoints s)))).
Definition strip (s : string) : string := rstrip (lstrip s).

(** [str(n)] for [n >= 0]. *)
Definition str_nat (n : nat) : string := NilEmpty.string_of_uint (Nat.to_uint n).

(** [sorted(l)] for a list of strings: code points compare as the bytes of
    their encodings do. *)
Fixpoint insert_sorted (x : string) (l : list string) : list string :=
  match l with
  | [] => [x]
  | y :: l' => if String.leb x y then x :: l else y :: insert_sorted x l'
  end.
Definition sorted (l : list string) : list string := fold_right insert_sorted [] l.

End PyText.

(** ** Values handed around by the loaders

    What Python does with a decoded JSON value when the code subscripts it,
    tests membership in it, asks for its items or loops over it.  A failure
    is the exception raised; [KeyError] and [IndexError] are written
    [OtherException]. *)

Definition KeyError : exn := OtherException "KeyError".
Definition IndexError : exn := OtherException "IndexError".

(** One step after the other, up to the first exception. *)
Definition and_then {A B} (x : A + exn) (k : A -> B + exn) : B + exn :=
  match x with
  | inl a => k a
  | inr e => inr e
  end.

Notation "'let*' x ':=' e 'in' k" := (and_then e (fun x => k))
  (at level 10, x name, e at level 100, k at level 200).

(** [d[k]] for a [dict] with [str] keys, [None] where there is no such key. *)
Fixpoint dict_get {A} (k : string) (d : list (string * A)) : option A :=
  match d with
  | [] => None
  | (k', v) :: d' => if String.eqb k' k then Some v else dict_get k d'
  end.

(** [v[0]]: the first item of a list, the first character of a string; a
    mapping decoded from JSON has no key [0]. *)
Definition getitem_0 (v : pyval) : pyval + exn :=
  match v with
  | PList (x :: _) => inl x
  | PList [] => inr IndexError
  | PStr s =>
      match PyText.first_char s with
      | Some c => inl (PStr c)
      | None => inr IndexError
      end
  | PDict _ => inr KeyError
  | _ => inr (TypeError "not subscriptable")
  end.

(** [v[k]] for a string [k]. *)
Definition getitem (v : pyval) (k : string) : pyval + exn :=
  match v with
  | PDict d =>
      match dict_get k d with
      | Some x => inl x
      | None => inr KeyError
      end
  | PList _ | PStr _ => inr (TypeError "indices must be integers")
  | _ => inr (TypeError "not subscriptable")
  end.

(** [k in v] for a string [k]: a key of a mapping, an item of a list, a
    part of a string. *)
Definition contains_ (k : string) (v : pyval) : bool + exn :=
  match v with
  | PDict d => inl (match dict_get k d with Some _ => true | None => false end)
  | PList l =>
      inl (existsb (fun x => match x with PStr s => String.eqb s k | _ => false end) l)
  | PStr s => inl (PyText.contains k s)
  | _ => inr (TypeError "not iterable")
  end.

(** [v.items()] *)
Definition items_of (v : pyval) : list (string * pyval) + exn :=
  match v with
  | PDict d => inl d
  | _ => inr (AttributeError "items")
  end.

(** [for j in v] *)
Definition iter_of (v : pyval) : list pyval + exn :=
  match v with
  | PList l => inl l
  | PStr s => inl (map PStr (PyText.codepoints s))
  | PDict d => inl (map (fun kv => PStr (fst kv)) d)
  | _ => inr (TypeError "not iterable")
  end.

(** ** [load_demo] *)

Section LoadDemo.

Context {Experiment World : Type}.

(** [README_DEMOS], of [hiplot/fetchers_demo.py]: the demos by name, each a
    function of no argument. *)
Variable README_DEMOS : gmap string (World -> (Experiment + exn) * World).

(** [load_demo(uri)]; [uri in README_DEMOS] hashes [uri]. *)
Definition load_demo (uri : pyval) (w : World) : (Experiment + exn) * World :=
  match uri with
  | PStr uri =>
      match README_DEMOS !! uri with
      | Some demo => demo w
      | None => (inr (ExperimentFetcherDoesntApply None), w)
      end
  | PList _ | PDict _ => (inr (TypeError "unhashable type"), w)
  | _ => (inr (ExperimentFetcherDoesntApply None), w)
  end.

End LoadDemo.

(** ** [load_json] *)

Section LoadJson.

Context {Experiment World : Type}.

(** [Path(uri).open()] and the reading of the file by [json.load]: the text
    of the file; [str(param_val)]; [hip.Experiment.from_iterable]. *)
Variable read_file : string -> World -> (string + exn) * World.
Variable str_ : pyval -> string.
Variable from_iterable : pyval -> World -> (Experiment + exn) * World.

(** [["job_id" in dat[0] and "kwargs" in dat[0] and "results" in dat[0]]] *)
Definition is_nevergrad (dat : pyval) : bool + exn :=
  let* first := getitem_0 dat in
  let* has_job_id := contains_ "job_id" first in
  if has_job_id then
    let* has_kwargs := contains_ "kwargs" first in
    if has_kwargs then contains_ "results" first else inl false
  else inl false.

(** The dict made for one job [j]: [id], then the parameters as strings,
    then the scores, a later key replacing the value of an earlier one. *)
Definition nevergrad_row (j : pyval) : pyval + exn :=
  let* job_id := getitem j "job_id" in
  let* kwargs := getitem j "kwargs" in
  let* params := items_of kwargs in
  let* results := getitem j "results" in
  let* scores := getitem results "scores" in
  let* score_items := items_of scores in
  inl (PDict (dict_of_pairs
                (("id", job_id)
                 :: map (fun kv => (fst kv, PStr (str_ (snd kv)))) params
                 ++ score_items))).

(** The list comprehension over the jobs. *)
Fixpoint nevergrad_rows (jobs : list pyval) : list pyval + exn :=
  match jobs with
  | [] => inl []
  | j :: rest =>
      let* row := nevergrad_row j in
      let* rows := nevergrad_rows rest in
      inl (row :: rows)
  end.

(** What [from_iterable] is called with, for the decoded data [dat]. *)
Definition json_records (dat : pyval) : pyval + exn :=
  let* nevergrad := is_nevergrad dat in
  if nevergrad then
    let* jobs := iter_of dat in
    let* rows := nevergrad_rows jobs in
    inl (PList rows)
  else inl dat.

(** [load_json(uri)]; only a [str] has [endswith]. *)
Definition load_json (uri : pyval) (w : World) : (Experiment + exn) * World :=
  match uri with
  | PStr uri =>
      if negb (PyStr.endswith uri ".json") then
        (inr (ExperimentFetcherDoesntApply (Some ("Not a JSON file: " +:+ uri))), w)
      else
        match read_file uri w with
        | (inr e, w1) => (inr e, w1)
        | (inl text, w1) =>
            match loads text with
            | None => (inr JSONDecodeError, w1)
            | Some dat =>
                match json_records dat with
                | inl records => from_iterable records w1
                | inr e => (inr e, w1)
                end
            end
        end
  | _ => (inr (AttributeError "endswith"), w)
  end.

End LoadJson.

(** ** [Wav2letterLoader] *)

Section Wav2letter.

Context {Float World : Type}.

(** [float(val)], where [None] is [ValueError]; [Path(p).read_text], the
    text of a file; [glob.glob]; the path [str(Path(dir) / name)]. *)
Variable float_ : string -> option Float.
Variable read_text : string -> World -> (string + exn) * World.
Variable glob : string -> World -> list string * World.
Variable path_join : string -> string -> string.

Definition PERF_PREFIX : string := "perf_".

(** The value kept for [val]: the number it reads as, or [val] itself. *)
Definition metric (val : string) : Float + string :=
  match float_ val with
  | Some x => inl x
  | None => inr val
  end.

(** The loop over [zip(names, values)], from the dict built so far. *)
Fixpoint epoch_metrics_ (pairs : list (string * string))
    (epoch_metrics : list (string * (Float + string))) : list (string * (Float + string)) :=
  match pairs with
  | [] => epoch_metrics
  | (name, val) :: rest =>
      epoch_metrics_ rest (dict_set (PERF_PREFIX +:+ name) (metric val) epoch_metrics)
  end.

(** The loop over [lines[1:]], where [header] is [lines[0]]. *)
Fixpoint metrics_of_lines (header : string) (lines : list string)
    (metrics : list (list (string * (Float + string))))
  : list (list (string * (Float + string))) :=
  match lines with
  | [] => metrics
  | l :: rest =>
      if String.eqb l EmptyString then metrics_of_lines header rest metrics
      else
        metrics_of_lines header rest
          (metrics
           ++ [epoch_metrics_
                 (zip (tail (PyText.split_whitespace header)) (PyText.split_whitespace l)) []])
  end.

(** What [_parse_metrics] makes of the text of a file. *)
Definition metrics_of_text (text : string) : list (list (string * (Float + string))) :=
  match PyStr.split "010" text with
  | [] => []
  | header :: lines => metrics_of_lines header lines []
  end.

(** [self._parse_metrics(file)] *)
Definition _parse_metrics (file : string) (w : World)
  : (list (list (string * (Float + string))) + exn) * World :=
  match read_text file w with
  | (inl text, w1) => (inl (metrics_of_text text), w1)
  | (inr e, w1) => (inr e, w1)
  end.

(** The loop [for m in mtrics]: each datapoint is made of its three
    arguments and appended to [xp.datapoints]. *)
Fixpoint append_datapoints (stem : string) (mtrics : list (list (string * (Float + string))))
    (datapoints : @Experiment (Float + string)) (prev_ckpt_name : option string)
  : @Experiment (Float + string) * option string :=
  match mtrics with
  | [] => (datapoints, prev_ckpt_name)
  | m :: rest =>
      let ckpt_name := stem +:+ "_" +:+ PyText.str_nat (length datapoints) in
      append_datapoints stem rest
        (datapoints ++ [{| uid := ckpt_name; values := m; from_uid := prev_ckpt_name |}])
        (Some ckpt_name)
  end.

(** The loop [for p in perfs]. *)
Fixpoint load_perfs (stem : string) (perfs : list string)
    (datapoints : @Experiment (Float + string)) (prev_ckpt_name : option string) (w : World)
  : (@Experiment (Float + string) + exn) * World :=
  match perfs with
  | [] => (inl datapoints, w)
  | p :: rest =>
      match _parse_metrics p w with
      | (inl mtrics, w1) =>
          let '(datapoints', prev') := append_datapoints stem mtrics datapoints prev_ckpt_name in
          load_perfs stem rest datapoints' prev' w1
      | (inr e, w1) => (inr e, w1)
      end
  end.

(** [load_wav2letter(uri)]: the datapoints of the Experiment it returns,
    which is new and has none to begin with. *)
Definition Wav2letterLoader_call (uri : pyval) (w : World)
  : (@Experiment (Float + string) + exn) * World :=
  match uri with
  | PStr uri =>
      if negb (PyStr.startswith uri "w2l://") then
        (inr (ExperimentFetcherDoesntApply None), w)
      else
        let uri := PyStr.slice_from (String.length "w2l://") uri in
        let '(perfs, w1) := glob (path_join uri "*_perf") w in
        load_perfs (PyText.last_chars 5 uri) (PyText.sorted perfs) [] None w1
  | _ => (inr (AttributeError "startswith"), w)
  end.

End Wav2letter.

(** ** The attribute of a module

    What [get_fetchers] does with a module once it is there:
    [getattr(module, attr)], where [None] is [AttributeError]. *)

Definition attribute_of {Experiment World Module : Type}
    (getattr : Module -> string -> option (@fetcher Experiment World))
    (r : (Module + exn) * World) (attr : string)
  : (@fetcher Experiment World + exn) * World :=
  match r with
  | (inl module, w1) =>
      match getattr module attr with
      | Some fetcher => (inl fetcher, w1)
      | None => (inr (AttributeError attr), w1)
      end
  | (inr e, w1) => (inr e, w1)
  end.

(** ** The jobs of a Nevergrad file

    [j] is the record of a job: a mapping with the number of the job under
    [job_id], the mapping of its parameters under [kwargs] and, under
    [results], a mapping that holds the mapping of its scores under [scores].
    Mappings are dicts, whose keys are distinct. *)

Definition is_job (j job_id : pyval) (params scores : list (string * pyval)) : Prop :=
  exists d results,
    j = PDict d
    /\ dict_get "job_id" d = Some job_id
    /\ dict_get "kwargs" d = Some (PDict params)
    /\ dict_get "results" d = Some (PDict results)
    /\ dict_get "scores" results = Some (PDict scores)
    /\ NoDup (map fst params) /\ NoDup (map fst scores).

(** ** The result of a function body *)

Definition outcome {A} (r : A + exn) : result A :=
  match r with
  | inl a => Return a
  | inr e => Raise e
  end.

(** ** A small instance with files

    A directory of three JSON files, one demo, and stand-ins for [str] and
    [from_iterable], for the examples below.  The world counts the files
    read. *)

Module Sample.

Definition jobs_json : string :=
  quoted "[{'job_id': 7, 'kwargs': {'lr': 0.5, 'id': 'x'}, 'results': {'scores': {'loss': 2, 'lr': 1}}}]".

Definition rows_json : string := quoted "[{'a': 1}, {'job_id': 2, 'kwargs': {}, 'results': {}}]".

Definition mixed_json : string :=
  quoted "[{'job_id': 1, 'kwargs': {}, 'results': {'scores': {}}}, {'a': 1}]".

Definition read_file (uri : string) (w : nat) : (string + exn) * nat :=
  if String.eqb uri "jobs.json" then (inl jobs_json, S w)
  else if String.eqb uri "rows.json" then (inl rows_json, S w)
  else if String.eqb uri "mixed.json" then (inl mixed_json, S w)
  else if String.eqb uri "empty.json" then (inl "[]", S w)
  else (inr FileNotFoundError, S w).

(** [str] on the values of the files above. *)
Definition str_ (v : pyval) : string :=
  match v with
  | PStr s | PInt s | PFloat s => s
  | PNone => "None"
  | PBool true => "True"
  | PBool false => "False"
  | _ => "?"
  end.

(** One datapoint for each record, with its fields as text. *)
Definition from_iterable (records : pyval) (w : nat) : (Demo.Xp + exn) * nat :=
  match records with
  | PList rows =>
      (inl (imap (fun i row =>
                    {| uid := PyText.str_nat i;
                       values := match row with
                                 | PDict d => map (fun kv => (fst kv, str_ (snd kv))) d
                                 | _ => []
                                 end;
                       from_uid := None |}) rows), w)
  | _ => (inr (TypeError "not a list"), w)
  end.

Definition README_DEMOS : gmap string (nat -> (Demo.Xp + exn) * nat) :=
  {[ "demo" := fun w => (inl [Demo.point "1" None], w) ]}.

Definition load_json : pyval -> nat -> (Demo.Xp + exn) * nat :=
  load_json read_file str_ from_iterable.

Definition builtins : list (@fetcher Demo.Xp nat) :=
  builtin_fetchers Demo.open_ Demo.from_iterable_DictReader
    (load_demo README_DEMOS) load_json Demo.declining Demo.declining.

Definition get_fetchers (add_fetchers : list string)
  : result loc * gmap loc (list (@fetcher Demo.Xp nat)) * nat :=
  get_fetchers Demo.import_module Demo.getcwd Demo.path_join Demo.exec_source_file Demo.getattr
    Demo.open_ Demo.from_iterable_DictReader
    (load_demo README_DEMOS) load_json Demo.declining Demo.declining
    add_fetchers ∅ 0.

End Sample.

(** ** The files of a [Wav2letterLoader] run, read in order *)

Section Wav2letterFiles.

Context {Float World : Type}.
Variable float_ : string -> option Float.
Variable read_text : string -> World -> (string + exn) * World.

(** The metrics of the files [perfs], read one after the other, up to the
    first that cannot be read. *)
Fixpoint parse_all (perfs : list string) (w : World)
  : (list (list (list (string * (Float + string)))) + exn) * World :=
  match perfs with
  | [] => (inl [], w)
  | p :: rest =>
      match _parse_metrics float_ read_text p w with
      | (inl mtrics, w1) =>
          match parse_all rest w1 with
          | (inl others, w2) => (inl (mtrics :: others), w2)
          | (inr e, w2) => (inr e, w2)
          end
      | (inr e, w1) => (inr e, w1)
      end
  end.

(** The row made of the line [l] under the names [names]. *)
Definition row_of (names : list string) (l : string) : list (string * (Float + string)) :=
  zip (map (String.append PERF_PREFIX) names) (map (metric float_) (PyText.split_whitespace l)).

End Wav2letterFiles.

(** ** The datapoints of a [Wav2letterLoader] run, in closed form

    The name of the [i]-th datapoint, and the datapoints made of the rows
    [rows]: each is numbered by its position and comes from the one before
    it. *)

Definition ckpt_name (stem : string) (i : nat) : string := stem +:+ "_" +:+ PyText.str_nat i.

Definition chain_of {Value} (stem : string) (rows : list (list (string * Value)))
  : list (@Datapoint Value) :=
  imap (fun i m =>
          {| uid := ckpt_name stem i;
             values := m;
             from_uid := match i with
                         | O => None
                         | S j => Some (ckpt_name stem j)
                         end |}) rows.

(** The name of the last datapoint of a chain, which the next one comes
    from. *)
Definition last_name {Value} (stem : string) (rows : list (list (string * Value)))
  : option string :=
  match length rows with
  | O => None
  | S n => Some (ckpt_name stem n)
  end.

(** The order of [sorted] on names. *)
Definition name_le (a b : string) : Prop := String.leb a b = true.

(** [l != ''] *)
Definition nonempty (l : string) : bool := negb (String.eqb l EmptyString).

(** ** A small instance with performance files

    A run directory with two files of metrics, which [glob] lists in no
    particular order; a number is a run of digits and dots.  The world counts
    the files read. *)

Module Runs.

Definition nl : string := String "010" EmptyString.

Definition is_number (s : string) : bool :=
  nonempty s
  && forallb (fun c => is_digit c || Ascii.eqb c ".") (String.list_ascii_of_string s).

Definition float_ (s : string) : option string := if is_number s then Some s else None.

Definition perf_001 : string :=
  "# date loss acc" +:+ nl +:+ "d1 1.5 good" +:+ nl +:+ nl +:+ "d2 1.25" +:+ nl.
Definition perf_002 : string := "# date loss" +:+ nl +:+ "   " +:+ nl +:+ "d3 0.5 extra".

Definition read_text (p : string) (w : nat) : (string + exn) * nat :=
  if String.eqb p "/runs/x1/001_perf" then (inl perf_001, S w)
  else if String.eqb p "/runs/x1/002_perf" then (inl perf_002, S w)
  else (inr FileNotFoundError, S w).

Definition glob (pattern : string) (w : nat) : list string * nat :=
  if String.eqb pattern "/runs/x1/*_perf"
  then (["/runs/x1/002_perf"; "/runs/x1/001_perf"], w)
  else if String.eqb pattern "/runs/gone/*_perf" then (["/runs/gone/001_perf"], w)
  else ([], w).

Definition load_wav2letter : pyval -> nat -> (@Experiment (string + string) + exn) * nat :=
  Wav2letterLoader_call float_ read_text glob Demo.path_join.

End Runs.

(** ** [load_fairseq] *)

Definition ValueError : exn := OtherException "ValueError".

Module Fairseq.

(** [s.lstrip(chars)] for characters of one byte each. *)
Fixpoint lstrip_chars (chars : string) (s : string) : string :=
  match s with
  | String c s' => if PyText.has_char c chars then lstrip_chars chars s' else s
  | EmptyString => s
  end.

(** [s.split(sep, 1)]: [s] cut at its first [sep], when there is one. *)
Fixpoint split_once (sep : ascii) (s : string) : list string :=
  match s with
  | EmptyString => [EmptyString]
  | String c s' =>
      if Ascii.eqb c sep then [EmptyString; s']
      else match split_once sep s' with
           | p :: ps => String c p :: ps
           | [] => [String c EmptyString]
           end
  end.

(** The characters of the class [a-zA-Z0-9]. *)
Definition is_alnum (c : ascii) : bool :=
  let n := N_of_ascii c in
  ((97 <=? n) && (n <=? 122) || (65 <=? n) && (n <=? 90) || (48 <=? n) && (n <=? 57))%N.

(** The longest run of such characters at the head of [s], and the rest. *)
Fixpoint span_alnum (s : string) : string * string :=
  match s with
  | String c s' =>
      if is_alnum c then let '(run, rest) := span_alnum s' in (String c run, rest)
      else (EmptyString, s)
  | EmptyString => (EmptyString, s)
  end.

(** [re.match] of the pattern of the source on [p]: the words [valid on],
    a quote, a group that is a run of characters of [a-zA-Z0-9], a quote and
    the word [subset].  The result is the group, when [p] starts with the
    pattern.  The class does not hold the quote, so the run of the group is
    the longest one. *)
Definition match_ds (p : string) : option string :=
  if PyStr.startswith p "valid on '" then
    let '(name, rest) := span_alnum (PyStr.slice_from (String.length "valid on '") p) in
    if PyStr.startswith rest "' subset" then Some name else None
  else None.

(** [p[::-1].split(' ', 1)[1][::-1].strip()], where the index fails when
    [p] has no space, and [p[::-1].split(' ', 1)[0][::-1].strip()]. *)
Definition key_of (p : string) : string + exn :=
  match split_once " " (PyText.reversed p) with
  | _ :: before :: _ => inl (PyText.strip (PyText.reversed before))
  | _ => inr IndexError
  end.
Definition value_of (p : string) : string :=
  match split_once " " (PyText.reversed p) with
  | after :: _ => PyText.strip (PyText.reversed after)
  | [] => EmptyString
  end.

(** [str(n)] for an [int]. *)
Definition str_int (n : Z) : string := NilEmpty.string_of_int (Z.to_int n).

Section Loader.

Context {Literal Float World : Type}.

(** [Path(p).is_dir()] and [Path(p).is_file()]; [glob.glob]; the path
    [str(Path(dir) / name)]; [Path(p).read_text(encoding="utf-8")]. *)
Variables is_dir is_file : string -> World -> bool.
Variable glob : string -> World -> list string * World.
Variable path_join : string -> string -> string.
Variable read_text : string -> World -> (string + exn) * World.

(** The dict of the keywords of a [Namespace(...)] line, each with the
    value of its literal ([ast.parse], then [ast.literal_eval] on every
    keyword); [int(s)] and [float(s)], where [None] is [ValueError]. *)
Variable parse_namespace : string -> list (string * Literal) + exn.
Variable int_ : string -> option Z.
Variable float_ : string -> option Float.

(** The values of a datapoint: the number of the epoch, the parameters of
    the run, and the metrics, numbers where they read as numbers. *)
Inductive value :=
| Epoch (n : Z)
| Param (v : Literal)
| Number (x : Float)
| Text (s : string).

(** [epoch_to_dp] and [xp.datapoints] hold the same datapoints, made one
    for each epoch and in that order: the datapoints by epoch, in the order
    they were made. *)
Abbreviation store := (list (Z * @Datapoint value)).

Fixpoint lookup_epoch (epoch : Z) (s : store) : option (@Datapoint value) :=
  match s with
  | [] => None
  | (n, dp) :: s' => if Z.eqb n epoch then Some dp else lookup_epoch epoch s'
  end.

Definition has_epoch (epoch : Z) (s : store) : bool :=
  match lookup_epoch epoch s with
  | Some _ => true
  | None => false
  end.

(** [epoch_to_dp[epoch].values[key] = v] *)
Fixpoint set_value (epoch : Z) (key : string) (v : value) (s : store) : store :=
  match s with
  | [] => []
  | (n, dp) :: s' =>
      if Z.eqb n epoch then
        (n, {| uid := uid dp; values := dict_set key v (values dp); from_uid := from_uid dp |})
        :: s'
      else (n, dp) :: set_value epoch key v s'
  end.

(** The datapoint made for an epoch seen for the first time. *)
Definition new_datapoint (epoch : Z) (params : list (string * Literal)) (s : store)
  : @Datapoint value :=
  {| uid := str_int epoch;
     values := dict_of_pairs (("epoch", Epoch epoch) :: map (fun kv => (fst kv, Param (snd kv))) params);
     from_uid := if has_epoch (epoch - 1) s then Some (str_int (epoch - 1)) else None |}.

(** The loop over the parts of an epoch line. *)
Fixpoint parts_loop (epoch : Z) (parts : list string) (prefix : string) (s : store)
  : store + exn :=
  match parts with
  | [] => inl s
  | p :: rest =>
      let p := PyText.strip p in
      match match_ds p with
      | Some ds => parts_loop epoch rest (ds +:+ "_") s
      | None =>
          match key_of p with
          | inr e => inr e
          | inl k =>
              let key := prefix +:+ k in
              let value := value_of p in
              parts_loop epoch rest prefix
                (set_value epoch key
                   (match float_ value with Some x => Number x | None => Text value end) s)
          end
      end
  end.

(** What is done with a line that starts with [| epoch]. *)
Definition epoch_line (l : string) (params : list (string * Literal)) (s : store)
  : store + exn :=
  let l := lstrip_chars "| epoch" l in
  match int_ (PyText.first_chars 3 l) with
  | None => inr ValueError
  | Some epoch =>
      let s1 := if has_epoch epoch s then s else s ++ [(epoch, new_datapoint epoch params s)] in
      parts_loop epoch (tail (PyStr.split "|" l)) EmptyString s1
  end.

(** The loop over the lines of the log. *)
Fixpoint lines_loop (lines : list string) (params : list (string * Literal)) (s : store)
  : store + exn :=
  match lines with
  | [] => inl s
  | l :: rest =>
      if PyStr.startswith l "Namespace(" then
        match parse_namespace l with
        | inl params' => lines_loop rest params' s
        | inr e => inr e
        end
      else if PyStr.startswith l "| epoch" then
        match epoch_line l params s with
        | inl s' => lines_loop rest params s'
        | inr e => inr e
        end
      else lines_loop rest params s
  end.

(** The files that are tried in a directory, in order. *)
Definition try_files (dir : string) (logs slurm_logs : list string) : list string :=
  [path_join dir "train.log"; path_join dir "process.out"; path_join dir "process_0.out"]
  ++ logs ++ slurm_logs.

(** The log to read: the path itself, or the first file of a directory
    that is there, if any. *)
Definition train_log (path : string) (w : World) : option string * World :=
  if is_dir path w then
    let '(logs, w1) := glob (path_join path "*.log") w in
    let '(slurm_logs, w2) := glob (path_join (path_join path "slurm_logs") "*.log") w1 in
    (find (fun f => is_file f w2) (try_files path logs slurm_logs), w2)
  else (Some path, w).

(** What is made of the log once it is chosen: the datapoints of the
    Experiment that is returned. *)
Definition read_log (file : string) (w : World) : (@Experiment value + exn) * World :=
  match read_text file w with
  | (inr e, w1) => (inr e, w1)
  | (inl text, w1) =>
      match lines_loop (PyStr.split "010" text) [] [] with
      | inl s => (inl (map snd s), w1)
      | inr e => (inr e, w1)
      end
  end.

(** [load_fairseq(uri)] *)
Definition load_fairseq (uri : pyval) (w : World) : (@Experiment value + exn) * World :=
  match uri with
  | PStr uri =>
      if negb (PyStr.startswith uri "fairseq://") then
        (inr (ExperimentFetcherDoesntApply None), w)
      else
        match train_log (PyStr.slice_from (String.length "fairseq://") uri) w with
        | (None, w1) => (inr (ExperimentFetcherDoesntApply (Some "No log file found")), w1)
        | (Some file, w1) => read_log file w1
        end
  | _ => (inr (AttributeError "startswith"), w)
  end.

End Loader.

(** The lines that [load_fairseq] looks at. *)
Definition relevant (l : string) : bool :=
  PyStr.startswith l "Namespace(" || PyStr.startswith l "| epoch".

End Fairseq.

(** ** What stays of a datapoint of [load_fairseq]

    The epoch, the uid and the origin of each datapoint, which are set when
    it is made; only its values change afterwards. *)

Definition fairseq_shape {Literal Float}
    (s : list (Z * @Datapoint (@Fairseq.value Literal Float)))
  : list (Z * string * option string) :=
  map (fun nd => (fst nd, uid (snd nd), from_uid (snd nd))) s.

(** The epochs are distinct, a uid is its epoch in decimal, and a datapoint
    that comes from another comes from the one of the epoch before, made
    earlier. *)
Definition consistent (sh : list (Z * string * option string)) : Prop :=
  NoDup (map (fun x => fst (fst x)) sh)
  /\ (forall n u f, In (n, u, f) sh -> u = Fairseq.str_int n)
  /\ (forall i n u v,
        sh !! i = Some (n, u, Some v) ->
        v = Fairseq.str_int (n - 1)
        /\ exists j u' f', j < i /\ sh !! j = Some ((n - 1)%Z, u', f')).

(** Every datapoint has a value under [epoch]. *)
Definition has_epoch_key {Literal Float}
    (s : list (Z * @Datapoint (@Fairseq.value Literal Float))) : Prop :=
  Forall (fun nd => dict_get "epoch" (values (snd nd)) <> None) s.

(** ** A small instance with training logs

    A directory [/exp] that holds [process.out] and [b.log], and a file
    [/bad.log] whose last line ends with a bar.  The world counts the files
    read. *)

Module Logs.

Definition nl : string := Runs.nl.

Definition process_out : string :=
  "Namespace(lr=0.1)" +:+ nl
  +:+ "some other line" +:+ nl
  +:+ "| epoch 001 | loss 8.5 | wps 100" +:+ nl
  +:+ "| epoch 001 | valid on 'valid' subset | loss 7.5" +:+ nl
  +:+ "| epoch 002 | loss 6".

Definition bad_log : string := "| epoch 001 | loss 8.5 |".

Definition is_dir (p : string) (w : nat) : bool := String.eqb p "/exp".
Definition is_file (p : string) (w : nat) : bool :=
  String.eqb p "/exp/process.out" || String.eqb p "/exp/b.log" || String.eqb p "/bad.log".
Definition glob (pattern : string) (w : nat) : list string * nat :=
  if String.eqb pattern "/exp/*.log" then (["/exp/b.log"], w) else ([], w).

Definition read_text (p : string) (w : nat) : (string + exn) * nat :=
  if String.eqb p "/exp/process.out" then (inl process_out, S w)
  else if String.eqb p "/bad.log" then (inl bad_log, S w)
  else (inr FileNotFoundError, S w).

(** Stand-ins: every [Namespace] line gives the one parameter [lr]; an
    [int] is read from decimal digits. *)
Definition parse_namespace (l : string) : list (string * string) + exn := inl [("lr", "0.1")].
Definition int_ (s : string) : option Z :=
  option_map Z.of_int (NilEmpty.int_of_string (PyText.strip s)).

Definition load_fairseq
  : pyval -> nat -> (@Experiment (@Fairseq.value string string) + exn) * nat :=
  Fairseq.load_fairseq is_dir is_file glob Demo.path_join read_text
    parse_namespace int_ Runs.float_.

End Logs.

(** ** The built-in loaders, all five

    [load_fairseq] and [load_wav2letter] return an Experiment that holds the
    datapoints they made: [loader_of] is such a loader, with the Experiment of
    its datapoints. *)

Definition loader_of {Value Experiment World : Type}
    (experiment_of : list (@Datapoint Value) -> Experiment)
    (body : pyval -> World -> (list (@Datapoint Value) + exn) * World)
  : pyval -> World -> (Experiment + exn) * World :=
  fun uri w =>
    match body uri w with
    | (inl datapoints, w') => (inl (experiment_of datapoints), w')
    | (inr e, w') => (inr e, w')
    end.

Section DefaultRegistry.

Context {Experiment World Module File Literal Float : Type}.
Variable import_module : string -> World -> (Module + exn) * World.
Variable getcwd : World -> string.
Variable path_join : string -> string -> string.
Variable exec_source_file : string -> string -> World -> (Module + exn) * World.
Variable getattr : Module -> string -> option (@fetcher Experiment World).
Variable open_ : string -> World -> (File + exn) * World.
Variable from_iterable_DictReader : File -> World -> (Experiment + exn) * World.
Variable README_DEMOS : gmap string (World -> (Experiment + exn) * World).
Variable read_file : string -> World -> (string + exn) * World.
Variable str_ : pyval -> string.
Variable from_iterable : pyval -> World -> (Experiment + exn) * World.
Variables is_dir is_file : string -> World -> bool.
Variable glob : string -> World -> list string * World.
Variable read_text : string -> World -> (string + exn) * World.
Variable parse_namespace : string -> list (string * Literal) + exn.
Variable int_ : string -> option Z.
Variable float_ : string -> option Float.
Variable experiment_of_log : list (@Datapoint (@Fairseq.value Literal Float)) -> Experiment.
Variable experiment_of_perfs : list (@Datapoint (Float + string)) -> Experiment.

(** [[load_demo, load_csv, load_json, load_fairseq, load_wav2letter]], each
    with the body given above. *)
Definition default_fetchers : list (@fetcher Experiment World) :=
  builtin_fetchers open_ from_iterable_DictReader
    (load_demo README_DEMOS)
    (load_json read_file str_ from_iterable)
    (loader_of experiment_of_log
       (Fairseq.load_fairseq is_dir is_file glob path_join read_text parse_namespace
          int_ float_))
    (loader_of experiment_of_perfs (Wav2letterLoader_call float_ read_text glob path_join)).

(** [get_fetchers(add_fetchers)] over these. *)
Definition default_get_fetchers (add_fetchers : list string)
    (h : gmap loc (list (@fetcher Experiment World))) (w : World)
  : result loc * gmap loc (list (@fetcher Experiment World)) * World :=
  get_fetchers import_module getcwd path_join exec_source_file getattr
    open_ from_iterable_DictReader
    (load_demo README_DEMOS)
    (load_json read_file str_ from_iterable)
    (loader_of experiment_of_log
       (Fairseq.load_fairseq is_dir is_file glob path_join read_text parse_namespace
          int_ float_))
    (loader_of experiment_of_perfs (Wav2letterLoader_call float_ read_text glob path_join))
    add_fetchers h w.

End DefaultRegistry.

(** ** The instance with all the built-in loaders *)

Module Full.

(** The Experiment of datapoints: their uids and origins. *)
Definition experiment_of {Value} (datapoints : list (@Datapoint Value)) : Demo.Xp :=
  map (fun dp => {| uid := uid dp; values := []; from_uid := from_uid dp |}) datapoints.

Definition fetchers : list (@fetcher Demo.Xp nat) :=
  default_fetchers Demo.path_join Demo.open_ Demo.from_iterable_DictReader Sample.README_DEMOS
    Sample.read_file Sample.str_ Sample.from_iterable
    Logs.is_dir Logs.is_file Logs.glob Logs.read_text Logs.parse_namespace
    Logs.int_ Runs.float_ experiment_of experiment_of.

Definition get_fetchers (add_fetchers : list string)
  : result loc * gmap loc (list (@fetcher Demo.Xp nat)) * nat :=
  default_get_fetchers Demo.import_module Demo.getcwd Demo.path_join Demo.exec_source_file
    Demo.getattr Demo.open_ Demo.from_iterable_DictReader Sample.README_DEMOS
    Sample.read_file Sample.str_ Sample.from_iterable
    Logs.is_dir Logs.is_file Logs.glob Logs.read_text Logs.parse_namespace
    Logs.int_ Runs.float_ experiment_of experiment_of add_fetchers ∅ 0.

End Full.

(** ** Facts about the decoder *)

Example quoted_text :
  quoted "['a']"
  = String "[" (String dquote (String "a" (String dquote (String "]" EmptyString)))).
Proof. reflexivity. Qed.

Module JsonFacts.

Lemma skip_ws_length s : String.length (skip_ws s) <= String.length s.
Proof. induction s as [|c s IH]; simpl; [lia|]. destruct (is_ws c); simpl; lia. Qed.

Lemma append_length a b : String.length (String.append a b) = String.length a + String.length b.
Proof. induction a; simpl; auto. Qed.

Lemma hex4_length s n rest : hex4 s = Some (n, rest) -> String.length s = 4 + String.length rest.
Proof.
  unfold hex4. intros H. repeat case_match; simplify_eq. reflexivity.
Qed.

Lemma low_escape_length s n rest :
  low_escape s = Some (n, rest) -> String.length s = 6 + String.length rest.
Proof.
  unfold low_escape. intros H. repeat case_match; simplify_eq.
  simpl. erewrite hex4_length by eassumption. reflexivity.
Qed.

Lemma utf8_length cp : String.length (utf8 cp) <= 4.
Proof. unfold utf8. repeat case_match; simpl; lia. Qed.

(** A decoded string is shorter than the text it was read from, closing
    quote included. *)
Lemma scanstring_length fuel : forall s str rest,
  scanstring fuel s = Some (str, rest) ->
  String.length str + String.length rest < String.length s.
Proof.
  induction fuel as [|fuel IH]; intros s str rest H; simpl in H; [discriminate|].
  destruct s as [|c s]; [discriminate|].
  destruct (Ascii.eqb c dquote); [simplify_eq; simpl; lia|].
  destruct (Ascii.eqb c "\").
  - destruct s as [|e s1]; [discriminate|].
    destruct (Ascii.eqb e "u").
    + destruct (hex4 s1) as [[cp s2]|] eqn:Hhex; [|discriminate].
      apply hex4_length in Hhex.
      destruct (if is_high_surrogate cp then low_escape s2 else None) as [[lo s3]|] eqn:Hlow.
      * destruct (is_high_surrogate cp); [|discriminate].
        apply low_escape_length in Hlow.
        destruct (scanstring fuel s3) as [[x r]|] eqn:Hrec; simpl in H; simplify_eq.
        apply IH in Hrec. pose proof (utf8_length (join_surrogates cp lo)).
        rewrite append_length. simpl. lia.
      * destruct (scanstring fuel s2) as [[x r]|] eqn:Hrec; simpl in H; simplify_eq.
        apply IH in Hrec. pose proof (utf8_length cp).
        rewrite append_length. simpl. lia.
    + destruct (unescape e); [|discriminate].
      destruct (scanstring fuel s1) as [[x r]|] eqn:Hrec; simpl in H; simplify_eq.
      apply IH in Hrec. rewrite append_length. simpl. lia.
  - destruct (N_of_ascii c <? 32)%N; [discriminate|].
    destruct (scanstring fuel s) as [[x r]|] eqn:Hrec; simpl in H; simplify_eq.
    apply IH in Hrec. rewrite append_length. simpl. lia.
Qed.

Lemma slice_from_length n s :
  String.length (PyStr.slice_from n s) = String.length s - n.
Proof.
  revert s. induction n as [|n IH]; intros [|c s]; simpl; auto with lia.
Qed.

Lemma digits_length s d r : digits s = (d, r) -> String.length r <= String.length s.
Proof.
  revert d r. induction s as [|c s IH]; intros d r H; simpl in H; [by simplify_eq|].
  destruct (is_digit c); [|by simplify_eq].
  destruct (digits s) as [d' r'] eqn:Hd. simplify_eq. specialize (IH _ _ eq_refl). simpl. lia.
Qed.

Lemma int_part_length s i r : int_part s = Some (i, r) -> String.length r <= String.length s.
Proof.
  unfold int_part. intros H.
  repeat (case_match; simplify_eq; simpl in *);
    repeat match goal with Hd : digits _ = _ |- _ => apply digits_length in Hd end; lia.
Qed.

Lemma frac_part_length s f r : frac_part s = (f, r) -> String.length r <= String.length s.
Proof.
  unfold frac_part. intros H.
  repeat (case_match; simplify_eq; simpl in *);
    repeat match goal with Hd : digits _ = _ |- _ => apply digits_length in Hd end;
    simpl in *; lia.
Qed.

Lemma exp_part_length s e r : exp_part s = (e, r) -> String.length r <= String.length s.
Proof.
  unfold exp_part. intros H.
  repeat (case_match; simplify_eq; simpl in *);
    repeat match goal with Hd : digits _ = _ |- _ => apply digits_length in Hd end;
    simpl in *; lia.
Qed.

Lemma match_number_length s v r :
  match_number s = Some (v, r) -> atom v /\ String.length r <= String.length s.
Proof.
  unfold match_number. intros H.
  destruct (int_part s) as [[i s1]|] eqn:Hi; [|discriminate].
  destruct (frac_part s1) as [f s2] eqn:Hf. destruct (exp_part s2) as [e s3] eqn:He.
  apply int_part_length in Hi. apply frac_part_length in Hf. apply exp_part_length in He.
  repeat case_match; simplify_eq; simpl; split; auto; lia.
Qed.

Lemma literal_length w v0 s v r :
  literal w v0 s = Some (v, r) -> v = v0 /\ String.length r <= String.length s.
Proof.
  unfold literal. intros H. case_match; simplify_eq. split; [done|].
  rewrite slice_from_length. lia.
Qed.

Lemma scan_atom_length s v r :
  scan_atom s = Some (v, r) -> atom v /\ String.length r <= String.length s.
Proof.
  unfold scan_atom, or_else. intros H.
  repeat case_match; simplify_eq;
    repeat match goal with
           | Hl : literal _ _ _ = Some _ |- _ => apply literal_length in Hl as [-> ?]
           | Hn : match_number _ = Some _ |- _ => apply match_number_length in Hn as [? ?]
           end; simpl; auto.
Qed.

Lemma dict_set_In {A} k (v : A) d x : In x (dict_set k v d) -> x = (k, v) \/ In x d.
Proof.
  induction d as [|[k' v'] d IH]; simpl; [intuition congruence|].
  destruct (String.eqb k' k); simpl; intuition congruence.
Qed.

Lemma dict_of_pairs_In {A} (pairs : list (string * A)) x :
  In x (dict_of_pairs pairs) -> In x pairs.
Proof.
  unfold dict_of_pairs.
  enough (forall d, In x (fold_left (fun d kv => dict_set (fst kv) (snd kv) d) pairs d) ->
                    In x d \/ In x pairs) as G.
  { intros H. destruct (G _ H) as [[]|]; auto. }
  induction pairs as [|[k v] pairs IH]; intros d H; simpl in *; [tauto|].
  apply IH in H as [H|H]; [|tauto].
  apply dict_set_In in H as [->|H]; simpl; tauto.
Qed.

Lemma bounded_mono n m v : n <= m -> bounded n v -> bounded m v.
Proof.
  intros Hle. destruct v; simpl; auto.
  - lia.
  - intros Hb u Hu. specialize (Hb u Hu). lia.
  - intros Hb k u Hu. specialize (Hb k u Hu). lia.
Qed.

Section Containers.

Variable scan : string -> option (pyval * string).
Hypothesis scan_scanned : forall s v rest, scan s = Some (v, rest) -> scanned s v rest.

Lemma array_items_length fuel : forall s vs rest,
  array_items scan fuel s = Some (vs, rest) ->
  String.length rest <= String.length s
  /\ forall u, In (PStr u) vs -> String.length u < String.length s - String.length rest.
Proof.
  induction fuel as [|fuel IH]; intros s vs rest H; simpl in H; [discriminate|].
  destruct (scan s) as [[v s1]|] eqn:Hv; [|discriminate].
  apply scan_scanned in Hv as [Hle Hb].
  pose proof (skip_ws_length s1) as Hws.
  destruct (skip_ws s1) as [|c s2]; [discriminate|]. simpl in Hws.
  destruct (Ascii.eqb c "]").
  { simplify_eq. split; [lia|]. intros u [->|[]]. simpl in Hb. lia. }
  destruct (Ascii.eqb c ","); [|discriminate].
  destruct (array_items scan fuel (skip_ws s2)) as [[vs' s3]|] eqn:Hrec; [|discriminate].
  simplify_eq. apply IH in Hrec as [Hle' Hin].
  pose proof (skip_ws_length s2).
  split; [lia|]. intros u [->|Hu].
  - simpl in Hb. lia.
  - specialize (Hin _ Hu). lia.
Qed.

Lemma JSONArray_scanned fuel s v rest :
  JSONArray scan fuel s = Some (v, rest) -> scanned s v rest.
Proof.
  unfold JSONArray. intros H.
  pose proof (skip_ws_length s) as Hws.
  destruct (skip_ws s) as [|c s1] eqn:Hs; [discriminate|]. simpl in Hws.
  destruct (Ascii.eqb c "]").
  { simplify_eq. split; [lia|]. intros u []. }
  destruct (array_items scan fuel (String c s1)) as [[vs s2]|] eqn:Hitems; [|discriminate].
  simplify_eq. apply array_items_length in Hitems as [Hle Hin]. simpl in Hle.
  split; [lia|]. intros u Hu. specialize (Hin _ Hu). simpl in Hin. lia.
Qed.

Lemma object_pairs_length fuel : forall s kvs rest,
  object_pairs scan fuel s = Some (kvs, rest) ->
  String.length rest <= String.length s
  /\ forall k u, In (k, PStr u) kvs -> String.length u < String.length s - String.length rest.
Proof.
  induction fuel as [|fuel IH]; intros s kvs rest H; simpl in H; [discriminate|].
  destruct (scanstring (String.length s) s) as [[k s1]|] eqn:Hk; [|discriminate].
  apply scanstring_length in Hk.
  pose proof (skip_ws_length s1) as Hws1.
  destruct (skip_ws s1) as [|c s2]; [discriminate|]. simpl in Hws1.
  destruct (Ascii.eqb c ":"); [|discriminate]. simpl in H.
  pose proof (skip_ws_length s2) as Hws2.
  destruct (scan (skip_ws s2)) as [[v s3]|] eqn:Hv; [|discriminate].
  apply scan_scanned in Hv as [Hle Hb].
  pose proof (skip_ws_length s3) as Hws3.
  destruct (skip_ws s3) as [|d s4]; [discriminate|]. simpl in Hws3.
  destruct (Ascii.eqb d "}").
  { simplify_eq. split; [lia|]. intros k' u [Heq|[]]. simplify_eq. simpl in Hb. lia. }
  destruct (Ascii.eqb d ","); [|discriminate].
  pose proof (skip_ws_length s4) as Hws4.
  destruct (skip_ws s4) as [|q s5]; [discriminate|]. simpl in Hws4.
  destruct (Ascii.eqb q dquote); [|discriminate]. simpl in H.
  destruct (object_pairs scan fuel s5) as [[kvs' s6]|] eqn:Hrec; [|discriminate].
  simplify_eq. apply IH in Hrec as [Hle' Hin].
  split; [lia|]. intros k' u [Heq|Hu].
  - simplify_eq. simpl in Hb. lia.
  - specialize (Hin _ _ Hu). lia.
Qed.

Lemma JSONObject_scanned fuel s v rest :
  JSONObject scan fuel s = Some (v, rest) -> scanned s v rest.
Proof.
  unfold JSONObject. intros H.
  pose proof (skip_ws_length s) as Hws.
  destruct (skip_ws s) as [|c s1] eqn:Hs; [discriminate|]. simpl in Hws.
  destruct (Ascii.eqb c "}").
  { simplify_eq. split; [lia|]. intros k u []. }
  destruct (Ascii.eqb c dquote); [|discriminate].
  destruct (object_pairs scan fuel s1) as [[kvs s2]|] eqn:Hpairs; [|discriminate].
  simplify_eq. apply object_pairs_length in Hpairs as [Hle Hin].
  split; [lia|]. intros k u Hu. apply dict_of_pairs_In in Hu.
  specialize (Hin _ _ Hu). lia.
Qed.

End Containers.

Lemma scan_once_scanned fuel : forall s v rest,
  scan_once fuel s = Some (v, rest) -> scanned s v rest.
Proof.
  induction fuel as [|fuel IH]; intros s v rest H; simpl in H; [discriminate|].
  destruct s as [|c s]; [discriminate|].
  destruct (Ascii.eqb c dquote).
  { destruct (scanstring (String.length s) s) as [[str r]|] eqn:Hs; [|discriminate].
    simplify_eq. apply scanstring_length in Hs. split; simpl; lia. }
  destruct (Ascii.eqb c "{").
  { apply (JSONObject_scanned _ IH) in H as [Hle Hb]. split; [simpl; lia|].
    eapply bounded_mono; [|exact Hb]. simpl. lia. }
  destruct (Ascii.eqb c "[").
  { apply (JSONArray_scanned _ IH) in H as [Hle Hb]. split; [simpl; lia|].
    eapply bounded_mono; [|exact Hb]. simpl. lia. }
  apply scan_atom_length in H as [Ha Hle]. split; [done|].
  destruct v; simpl in *; tauto.
Qed.

(** *** The bounds of the decoder are never reached

    Every loop of the decoder reads at least one character each time round,
    and every nested value is read after a bracket: past the length of the
    text, a larger bound changes nothing. *)

Lemma scanstring_empty n : scanstring n EmptyString = None.
Proof. by destruct n. Qed.

Lemma scanstring_fuel n : forall m s,
  String.length s <= n -> String.length s <= m -> scanstring n s = scanstring m s.
Proof.
  induction n as [|n IH]; intros m s Hn Hm.
  { destruct s; simpl in Hn; [|lia]. by rewrite !scanstring_empty. }
  destruct m as [|m].
  { destruct s; simpl in Hm; [|lia]. by rewrite !scanstring_empty. }
  destruct s as [|c s]; [done|]. simpl in *.
  destruct (Ascii.eqb c dquote); [done|].
  destruct (Ascii.eqb c "\").
  - destruct s as [|e s1]; [done|]. simpl in *.
    destruct (Ascii.eqb e "u").
    + destruct (hex4 s1) as [[cp s2]|] eqn:Hhex; [|done].
      apply hex4_length in Hhex.
      destruct (if is_high_surrogate cp then low_escape s2 else None) as [[lo s3]|] eqn:Hlow.
      * destruct (is_high_surrogate cp); [|done].
        apply low_escape_length in Hlow. by rewrite (IH m s3) by lia.
      * by rewrite (IH m s2) by lia.
    + destruct (unescape e); [|done]. by rewrite (IH m s1) by lia.
  - destruct (N_of_ascii c <? 32)%N; [done|]. by rewrite (IH m s) by lia.
Qed.

Section ContainersFuel.

Variables scan1 scan2 : string -> option (pyval * string).
Variable bound : nat.
Hypothesis scans_agree : forall s, String.length s <= bound -> scan1 s = scan2 s.
Hypothesis scan_scanned : forall s v rest, scan1 s = Some (v, rest) -> scanned s v rest.
Hypothesis scan_empty : scan1 EmptyString = None.

Lemma array_items_fuel n : forall m s,
  String.length s <= bound -> String.length s <= n -> String.length s <= m ->
  array_items scan1 n s = array_items scan2 m s.
Proof.
  induction n as [|n IH]; intros m s Hb Hn Hm.
  { destruct s; simpl in Hn; [|lia]. destruct m; simpl; [done|].
    by rewrite <- scans_agree, scan_empty by (simpl; lia). }
  destruct m as [|m].
  { destruct s; simpl in Hm; [|lia]. simpl. by rewrite scan_empty. }
  simpl. rewrite <- scans_agree by done.
  destruct (scan1 s) as [[v s1]|] eqn:Hv; [|done].
  apply scan_scanned in Hv as [Hle _].
  pose proof (skip_ws_length s1) as Hws.
  destruct (skip_ws s1) as [|c s2]; [done|]. simpl in Hws.
  destruct (Ascii.eqb c "]"); [done|].
  destruct (Ascii.eqb c ","); [|done].
  pose proof (skip_ws_length s2).
  by rewrite (IH m (skip_ws s2)) by lia.
Qed.

Lemma JSONArray_fuel n m s :
  String.length s <= bound -> String.length s <= n -> String.length s <= m ->
  JSONArray scan1 n s = JSONArray scan2 m s.
Proof.
  intros Hb Hn Hm. unfold JSONArray.
  pose proof (skip_ws_length s) as Hws.
  destruct (skip_ws s) as [|c s1]; [done|].
  destruct (Ascii.eqb c "]"); [done|].
  by rewrite (array_items_fuel n m) by lia.
Qed.

Lemma object_pairs_fuel n : forall m s,
  String.length s <= bound -> String.length s <= n -> String.length s <= m ->
  object_pairs scan1 n s = object_pairs scan2 m s.
Proof.
  induction n as [|n IH]; intros m s Hb Hn Hm.
  { destruct s; simpl in Hn; [|lia]. by destruct m. }
  destruct m as [|m].
  { destruct s; simpl in Hm; [|lia]. done. }
  simpl.
  destruct (scanstring (String.length s) s) as [[k s1]|] eqn:Hk; [|done].
  apply scanstring_length in Hk.
  pose proof (skip_ws_length s1) as Hws1.
  destruct (skip_ws s1) as [|c s2]; [done|]. simpl in Hws1.
  destruct (Ascii.eqb c ":"); [|done]. simpl.
  pose proof (skip_ws_length s2) as Hws2.
  rewrite <- scans_agree by lia.
  destruct (scan1 (skip_ws s2)) as [[v s3]|] eqn:Hv; [|done].
  apply scan_scanned in Hv as [Hle _].
  pose proof (skip_ws_length s3) as Hws3.
  destruct (skip_ws s3) as [|d s4]; [done|]. simpl in Hws3.
  destruct (Ascii.eqb d "}"); [done|].
  destruct (Ascii.eqb d ","); [|done].
  pose proof (skip_ws_length s4) as Hws4.
  destruct (skip_ws s4) as [|q s5]; [done|]. simpl in Hws4.
  destruct (Ascii.eqb q dquote); [|done]. simpl.
  by rewrite (IH m s5) by lia.
Qed.

Lemma JSONObject_fuel n m s :
  String.length s <= bound -> String.length s <= n -> String.length s <= m ->
  JSONObject scan1 n s = JSONObject scan2 m s.
Proof.
  intros Hb Hn Hm. unfold JSONObject.
  pose proof (skip_ws_length s) as Hws.
  destruct (skip_ws s) as [|c s1]; [done|]. simpl in Hws.
  destruct (Ascii.eqb c "}"); [done|].
  destruct (Ascii.eqb c dquote); [|done].
  by rewrite (object_pairs_fuel n m) by lia.
Qed.

End ContainersFuel.

Lemma scan_once_empty n : scan_once n EmptyString = None.
Proof. by destruct n. Qed.

Lemma scan_once_fuel n : forall m s,
  String.length s <= n -> String.length s <= m -> scan_once n s = scan_once m s.
Proof.
  induction n as [|n IH]; intros m s Hn Hm.
  { destruct s; simpl in Hn; [|lia]. by rewrite !scan_once_empty. }
  destruct m as [|m].
  { destruct s; simpl in Hm; [|lia]. by rewrite !scan_once_empty. }
  destruct s as [|c s]; [done|]. simpl in *.
  destruct (Ascii.eqb c dquote); [done|].
  destruct (Ascii.eqb c "{").
  { apply (JSONObject_fuel _ _ (String.length s)); try lia.
    - intros s' Hs'. apply IH; lia.
    - apply scan_once_scanned. }
  destruct (Ascii.eqb c "[").
  { apply (JSONArray_fuel _ _ (String.length s)); try lia.
    - intros s' Hs'. apply IH; lia.
    - apply scan_once_scanned.
    - apply scan_once_empty. }
  done.
Qed.

(** [loads] reads with a bound that is enough: any larger bound gives the
    same value. *)
Lemma loads_fuel n s :
  String.length s <= n ->
  scan_once n (skip_ws s) = scan_once (String.length s) (skip_ws s).
Proof.
  intros Hn. pose proof (skip_ws_length s). apply scan_once_fuel; lia.
Qed.

(** Every sub-uri directly in a decoded list is shorter than the text. *)
Lemma loads_list_shorter s vs u :
  loads s = Some (PList vs) -> In (PStr u) vs -> String.length u < String.length s.
Proof.
  unfold loads. intros H Hu.
  destruct (scan_once _ _) as [[v rest]|] eqn:Hv; [|discriminate].
  destruct (skip_ws rest); [|discriminate]. simplify_eq.
  apply scan_once_scanned in Hv as [_ Hb]. specialize (Hb _ Hu).
  pose proof (skip_ws_length s). lia.
Qed.

(** Every sub-uri directly under a key of a decoded mapping is shorter than
    the text. *)
Lemma loads_dict_shorter s d k u :
  loads s = Some (PDict d) -> In (k, PStr u) d -> String.length u < String.length s.
Proof.
  unfold loads. intros H Hu.
  destruct (scan_once _ _) as [[v rest]|] eqn:Hv; [|discriminate].
  destruct (skip_ws rest); [|discriminate]. simplify_eq.
  apply scan_once_scanned in Hv as [_ Hb]. specialize (Hb _ _ Hu).
  pose proof (skip_ws_length s). lia.
Qed.

End JsonFacts.

(** ** Facts about the dispatch *)

Section DispatchFacts.

Context {Experiment World : Type}.
Variable merge : list (string * Experiment) -> Experiment.

Abbreviation fetcher := (@fetcher Experiment World).
Abbreviation event := (@event Experiment World).
Abbreviation run := (@run Experiment World).
Abbreviation heap := (gmap loc (list fetcher)).

Implicit Types (h : heap) (f g : fetcher) (uri u v : pyval) (w : World).
Implicit Types (c : fetcher -> pyval -> World -> run Experiment).

(** *** The dispatcher never declines *)

Lemma load_never_declines c fs uri w :
  declines (load_xp_with_fetchers_ c fs uri w).1.1 = false.
Proof.
  revert w. induction fs as [|f fs IH]; intros w; simpl; [done|].
  destruct (c f uri w) as [[r w1] inner].
  destruct (declines r) eqn:Hd; [|by simpl].
  specialize (IH w1). destruct (load_xp_with_fetchers_ c fs uri w1) as [[r' w2] evs]. done.
Qed.

Lemma comprehension_never_declines h c l items d w :
  declines (comprehension h c l items d w).1.1 = false.
Proof.
  revert d w. induction items as [|[k v] items IH]; intros d w; simpl; [done|].
  destruct (h !! l) as [fs|]; [|done].
  pose proof (load_never_declines c fs v w) as Hl.
  destruct (load_xp_with_fetchers_ c fs v w) as [[r w1] evs]. simpl in Hl.
  destruct r as [xp|e|g]; try done.
  destruct k as [| | | |key| |]; try done.
  specialize (IH (dict_set key xp d) w1).
  destruct (comprehension h c l items (dict_set key xp d) w1) as [[r' w2] evs']. done.
Qed.

(** A loader that declines made no call of its own: a function makes none
    that is seen here, and a [MultipleFetcher] declines before it decodes
    anything. *)
Lemma MultipleFetcher_call_declines h c l uri w :
  declines (MultipleFetcher_call_ merge h c l uri w).1.1 = true ->
  (exists s, uri = PStr s /\ PyStr.startswith s MULTI_PREFIX = false)
  /\ MultipleFetcher_call_ merge h c l uri w = (Raise (ExperimentFetcherDoesntApply None), w, []).
Proof.
  unfold MultipleFetcher_call_. destruct uri as [| | | |s| |]; try done.
  destruct (PyStr.startswith s MULTI_PREFIX) eqn:Hs; simpl; [|by eauto].
  destruct (loads _) as [[]|]; simpl; try done.
  - pose proof (comprehension_never_declines h c l (list_items items) [] w) as Hc.
    destruct (comprehension h c l (list_items items) [] w) as [[r w1] evs].
    simpl in *. destruct r; simpl in *; congruence.
  - pose proof (comprehension_never_declines h c l (dict_items items) [] w) as Hc.
    destruct (comprehension h c l (dict_items items) [] w) as [[r w1] evs].
    simpl in *. destruct r; simpl in *; congruence.
Qed.

Lemma call_Function h n name body uri w :
  call_ merge h n (Function name body) uri w =
  match body uri w with
  | (inl xp, w') => (Return xp, w', [])
  | (inr e, w') => (Raise e, w', [])
  end.
Proof. by destruct n. Qed.

Lemma call_declines_inner h n f uri w :
  declines (call_ merge h n f uri w).1.1 = true -> (call_ merge h n f uri w).2 = [].
Proof.
  destruct f as [name body|l].
  - rewrite call_Function. destruct (body uri w) as [[xp|e] w']; simpl; done.
  - destruct n; [done|]. simpl. intros H.
    apply MultipleFetcher_call_declines in H as [_ ->]. done.
Qed.

(** *** Enough fuel *)

Lemma load_ext c1 c2 fs uri :
  (forall f w, c1 f uri w = c2 f uri w) ->
  forall w, load_xp_with_fetchers_ c1 fs uri w = load_xp_with_fetchers_ c2 fs uri w.
Proof.
  intros Hc. induction fs as [|f fs IH]; intros w; simpl; [done|].
  rewrite Hc. destruct (c2 f uri w) as [[r w1] inner].
  destruct (declines r); [|done]. by rewrite IH.
Qed.

Lemma comprehension_ext h c1 c2 l items :
  (forall k v, In (k, v) items -> forall f w, c1 f v w = c2 f v w) ->
  forall d w, comprehension h c1 l items d w = comprehension h c2 l items d w.
Proof.
  induction items as [|[k v] items IH]; intros Hc d w; simpl; [done|].
  destruct (h !! l) as [fs|]; [|done].
  rewrite (load_ext c1 c2 fs v) by (apply (Hc k); by left).
  destruct (load_xp_with_fetchers_ c2 fs v w) as [[r w1] evs].
  destruct r as [xp|e|g]; try done.
  destruct k; try done.
  rewrite IH; [done|]. intros k v' Hin. apply (Hc k). by right.
Qed.

Lemma startswith_length s p :
  PyStr.startswith s p = true -> String.length p <= String.length s.
Proof.
  revert s. induction p as [|a p IH]; intros s Hs; simpl in *; [lia|].
  destruct s as [|b s]; [done|]. destruct (Ascii.eqb a b); [|done].
  apply IH in Hs. simpl. lia.
Qed.

(** The sub-uris of a payload are smaller than the composite uri. *)
Lemma payload_smaller s defs items k v :
  PyStr.startswith s MULTI_PREFIX = true ->
  loads (PyStr.slice_from (String.length MULTI_PREFIX) s) = Some defs ->
  payload_items defs = Some items ->
  In (k, v) items -> size v < String.length s.
Proof.
  intros Hs Hl Hi Hin. apply startswith_length in Hs. simpl in Hs.
  destruct v as [| | | |u| |]; simpl; try lia.
  destruct defs as [| | | | |vs|kvs]; simpl in Hi; simplify_eq.
  - unfold list_items in Hin. apply in_map_iff in Hin as (v & Heq & Hv). simplify_eq.
    apply (JsonFacts.loads_list_shorter _ _ _ Hl) in Hv.
    rewrite JsonFacts.slice_from_length in Hv. lia.
  - unfold dict_items in Hin. apply in_map_iff in Hin as ([k' v] & Heq & Hv).
    simpl in Heq. simplify_eq.
    apply (JsonFacts.loads_dict_shorter _ _ _ _ Hl) in Hv.
    rewrite JsonFacts.slice_from_length in Hv. lia.
Qed.

Lemma MultipleFetcher_call_ext h c1 c2 l uri w :
  (forall u, size u < size uri -> forall f w', c1 f u w' = c2 f u w') ->
  MultipleFetcher_call_ merge h c1 l uri w = MultipleFetcher_call_ merge h c2 l uri w.
Proof.
  intros Hc. unfold MultipleFetcher_call_. destruct uri as [| | | |s| |]; try done.
  destruct (PyStr.startswith s MULTI_PREFIX) eqn:Hs; [|done]. simpl.
  destruct (loads _) as [[]|] eqn:Hl; try done.
  - rewrite (comprehension_ext h c1 c2); [done|].
    intros k v Hin. apply Hc. by eapply (payload_smaller s _ _ k v Hs Hl).
  - rewrite (comprehension_ext h c1 c2); [done|].
    intros k v Hin. apply Hc. by eapply (payload_smaller s _ _ k v Hs Hl).
Qed.

(** Past the size of the uri, more fuel changes nothing. *)
Lemma call_fuel h n : forall m f uri w,
  size uri < n -> size uri < m ->
  call_ merge h n f uri w = call_ merge h m f uri w.
Proof.
  induction n as [|n IH]; intros m f uri w Hn Hm; [lia|].
  destruct m as [|m]; [lia|].
  destruct f as [name body|l]; [by rewrite !call_Function|]. simpl.
  apply MultipleFetcher_call_ext. intros u Hu f w'. apply IH; lia.
Qed.

(** The equation of [call]: the bound on nested calls is out of the way. *)
Lemma call_MultipleFetcher h l uri w :
  call merge h (MultipleFetcher l) uri w = MultipleFetcher_call_ merge h (call merge h) l uri w.
Proof.
  unfold call at 1.
  change (call_ merge h (fuel_for uri) (MultipleFetcher l) uri w)
    with (MultipleFetcher_call_ merge h (call_ merge h (size uri)) l uri w).
  apply MultipleFetcher_call_ext.
  intros u Hu f w'. unfold call, fuel_for. apply call_fuel; lia.
Qed.

Lemma startswith_app p s : PyStr.startswith (p +:+ s) p = true.
Proof. induction p as [|c p IH]; simpl; [done|]. by rewrite Ascii.eqb_refl. Qed.

Lemma slice_from_app p s : PyStr.slice_from (String.length p) (p +:+ s) = s.
Proof. induction p as [|c p IH]; simpl; [by destruct s|done]. Qed.

Lemma call_declines h f uri w :
  declines (call merge h f uri w).1.1 = true -> (call merge h f uri w).2 = [].
Proof. apply call_declines_inner. Qed.

(** *** The dispatcher up to the first loader that does not decline *)

Lemma load_first_answer h : forall fs i f uri w wi r w' inner,
  fs !! i = Some f ->
  all_decline merge h (take i fs) uri w = Some wi ->
  call merge h f uri wi = (r, w', inner) ->
  declines r = false ->
  load_xp_with_fetchers merge h fs uri w
  = (r, w', plain_calls (take i fs) uri ++ [Call f uri inner]).
Proof.
  unfold load_xp_with_fetchers.
  induction fs as [|g fs IH]; intros i f uri w wi r w' inner Hi Hd Hc Hr; [done|].
  destruct i as [|i]; simpl in *.
  - simplify_eq. rewrite Hc, Hr. done.
  - pose proof (call_declines h g uri w) as Hinner.
    destruct (call merge h g uri w) as [[rg w1] ig]. simpl in Hinner.
    destruct (declines rg); [|done]. rewrite Hinner by done.
    rewrite (IH _ _ _ _ _ _ _ _ Hi Hd Hc Hr). done.
Qed.

Lemma load_all_decline h : forall fs uri w w',
  all_decline merge h fs uri w = Some w' ->
  load_xp_with_fetchers merge h fs uri w = (Raise (NoFetcherFound uri), w', plain_calls fs uri).
Proof.
  unfold load_xp_with_fetchers.
  induction fs as [|g fs IH]; intros uri w w' Hd; simpl in *; [by simplify_eq|].
  pose proof (call_declines h g uri w) as Hinner.
  destruct (call merge h g uri w) as [[rg w1] ig]. simpl in Hinner.
  destruct (declines rg); [|done]. rewrite Hinner by done.
  rewrite (IH _ _ _ Hd). done.
Qed.

(** *** The bound on nested calls is never reached *)

Lemma load_fuel_left c fs uri :
  (forall f w, ~ out_of_fuel (c f uri w).1.1) ->
  forall w, ~ out_of_fuel (load_xp_with_fetchers_ c fs uri w).1.1.
Proof.
  unfold out_of_fuel. intros Hc.
  induction fs as [|f fs IH]; intros w; simpl; [done|].
  specialize (Hc f w). destruct (c f uri w) as [[r w1] inner].
  destruct (declines r); [|done].
  specialize (IH w1). by destruct (load_xp_with_fetchers_ c fs uri w1) as [[r' w2] evs].
Qed.

Lemma comprehension_fuel_left h c l items :
  (forall k v, In (k, v) items -> forall f w, ~ out_of_fuel (c f v w).1.1) ->
  forall d w, ~ out_of_fuel (comprehension h c l items d w).1.1.
Proof.
  unfold out_of_fuel.
  induction items as [|[k v] items IH]; intros Hc d w; simpl; [done|].
  destruct (h !! l) as [fs|]; [|done].
  pose proof (load_fuel_left c fs v (Hc k v (or_introl eq_refl)) w) as Hl.
  unfold out_of_fuel in Hl.
  destruct (load_xp_with_fetchers_ c fs v w) as [[r w1] evs].
  destruct r as [xp|e|g]; [|done|simpl in *; congruence].
  destruct k as [| | | |key| |]; try done.
  assert (forall k v, In (k, v) items ->
                      forall f w, (c f v w).1.1 <> Unmodelled OutOfFuel) as Hc'
    by (intros k v' Hin; apply (Hc k); by right).
  specialize (IH Hc' (dict_set key xp d) w1).
  by destruct (comprehension h c l items (dict_set key xp d) w1) as [[r' w2] evs'].
Qed.

Lemma call_enough_fuel_ h n : forall f uri w,
  size uri < n -> ~ out_of_fuel (call_ merge h n f uri w).1.1.
Proof.
  induction n as [|n IH]; intros f uri w Hn; [lia|].
  destruct f as [name body|l].
  - rewrite call_Function. by destruct (body uri w) as [[xp|e] w'].
  - simpl. unfold MultipleFetcher_call_. destruct uri as [| | | |s| |]; try done.
    destruct (PyStr.startswith s MULTI_PREFIX) eqn:Hs; [|done]. simpl.
    destruct (loads _) as [defs|] eqn:Hl; [|done].
    assert (forall items, payload_items defs = Some items ->
              forall d, ~ out_of_fuel (comprehension h (call_ merge h n) l items d w).1.1) as Hc.
    { intros items Hi d. apply comprehension_fuel_left.
      intros k v Hin f w'. apply IH.
      pose proof (payload_smaller s defs items k v Hs Hl Hi Hin). simpl in Hn. lia. }
    destruct defs as [| | | | |vs|kvs]; try done.
    + specialize (Hc _ eq_refl []).
      destruct (comprehension h (call_ merge h n) l (list_items vs) [] w) as [[r w1] evs].
      unfold out_of_fuel in *. destruct r; simpl in *; congruence.
    + specialize (Hc _ eq_refl []).
      destruct (comprehension h (call_ merge h n) l (dict_items kvs) [] w) as [[r w1] evs].
      unfold out_of_fuel in *. destruct r; simpl in *; congruence.
Qed.

(** Calling a loader, and so dispatching, never stops for want of fuel:
    [call] and [load_xp_with_fetchers] are the functions of the source, and
    they terminate. *)
Lemma call_enough_fuel h f uri w : (call merge h f uri w).1.1 <> Unmodelled OutOfFuel.
Proof. apply call_enough_fuel_. unfold fuel_for. lia. Qed.

Lemma load_enough_fuel h fs uri w :
  (load_xp_with_fetchers merge h fs uri w).1.1 <> Unmodelled OutOfFuel.
Proof. apply load_fuel_left. intros f w'. apply call_enough_fuel. Qed.

(** *** [__call__] on a payload with string keys *)

Lemma keyed_uris_dict_items kvs : keyed_uris (dict_items kvs) = Some kvs.
Proof.
  unfold dict_items. induction kvs as [|[k v] kvs IH]; simpl; [done|]. by rewrite IH.
Qed.

Lemma comprehension_keyed h l fetchers : forall items kvs d w,
  h !! l = Some fetchers ->
  keyed_uris items = Some kvs ->
  comprehension h (call merge h) l items d w
  = let '(r, w', evs) := resolve_each merge h fetchers (map snd kvs) w in
    (rethrow r (fun xps =>
       Return (fold_left (fun d kx => dict_set (fst kx) (snd kx) d) (zip (map fst kvs) xps) d)),
     w', evs).
Proof.
  intros items kvs d w Hl. revert kvs d w.
  induction items as [|[k v] items IH]; intros kvs d w Hk; simpl in *; [by simplify_eq|].
  destruct k as [| | | |key| |]; try done.
  destruct (keyed_uris items) as [kvs'|] eqn:Hrest; [|done]. simplify_eq. simpl.
  rewrite Hl. fold (load_xp_with_fetchers merge h fetchers v w).
  destruct (load_xp_with_fetchers merge h fetchers v w) as [[r w1] evs].
  destruct r as [xp|e|g]; try done.
  rewrite (IH kvs' _ _ eq_refl).
  destruct (resolve_each merge h fetchers (map snd kvs') w1) as [[r' w2] evs'].
  by destruct r'.
Qed.

Lemma comprehension_app h c l items1 items2 :
  forall d w,
  comprehension h c l (items1 ++ items2) d w
  = let '(r, w1, evs1) := comprehension h c l items1 d w in
    match r with
    | Return d1 =>
        let '(r', w2, evs2) := comprehension h c l items2 d1 w1 in (r', w2, evs1 ++ evs2)
    | _ => (r, w1, evs1)
    end.
Proof.
  induction items1 as [|[k v] items1 IH]; intros d w; simpl.
  - by destruct (comprehension h c l items2 d w) as [[r w1] evs].
  - destruct (h !! l) as [fs|]; [|done].
    destruct (load_xp_with_fetchers_ c fs v w) as [[r w1] evs].
    destruct r as [xp|e|g]; try done.
    destruct k as [| | | |key| |]; try done.
    rewrite IH.
    destruct (comprehension h c l items1 (dict_set key xp d) w1) as [[r1 w2] evs1].
    destruct r1 as [d1|e|g]; try done.
    destruct (comprehension h c l items2 d1 w2) as [[r2 w3] evs2].
    by rewrite app_assoc.
Qed.

Lemma MultipleFetcher_call_items h l payload defs items w :
  loads payload = Some defs ->
  payload_items defs = Some items ->
  MultipleFetcher_call merge h l (PStr (MULTI_PREFIX +:+ payload)) w
  = let '(r, w1, evs) := comprehension h (call merge h) l items [] w in
    (rethrow r (fun d => Return (merge d)), w1, evs).
Proof.
  intros Hp Hi. unfold MultipleFetcher_call. rewrite call_MultipleFetcher.
  unfold MultipleFetcher_call_. rewrite startswith_app, slice_from_app, Hp. simpl.
  destruct defs; simpl in Hi; by simplify_eq.
Qed.

Lemma MultipleFetcher_call_sub_uris h l fetchers payload defs kvs w :
  h !! l = Some fetchers ->
  loads payload = Some defs ->
  sub_uris defs = Some kvs ->
  MultipleFetcher_call merge h l (PStr (MULTI_PREFIX +:+ payload)) w
  = merged merge (map fst kvs) (resolve_each merge h fetchers (map snd kvs) w).
Proof.
  intros Hl Hp Hs. unfold sub_uris in Hs.
  destruct (payload_items defs) as [items|] eqn:Hi; [|done].
  rewrite (MultipleFetcher_call_items h l payload defs items w Hp Hi).
  rewrite (comprehension_keyed h l fetchers _ kvs [] w Hl Hs).
  unfold merged.
  destruct (resolve_each merge h fetchers (map snd kvs) w) as [[r w1] evs].
  by destruct r.
Qed.

(** The first sub-uri that fails ends [__call__]: what comes after it in the
    payload is not looked at. *)
Lemma MultipleFetcher_call_stops h l fetchers payload defs pre k v post w xps w1 evs e w2 evs' :
  h !! l = Some fetchers ->
  loads payload = Some defs ->
  payload_items defs = Some (dict_items pre ++ (k, v) :: post) ->
  resolve_each merge h fetchers (map snd pre) w = (Return xps, w1, evs) ->
  load_xp_with_fetchers merge h fetchers v w1 = (Raise e, w2, evs') ->
  MultipleFetcher_call merge h l (PStr (MULTI_PREFIX +:+ payload)) w = (Raise e, w2, evs ++ evs').
Proof.
  intros Hl Hp Hi Hpre Hv.
  rewrite (MultipleFetcher_call_items h l payload defs _ w Hp Hi).
  rewrite comprehension_app.
  rewrite (comprehension_keyed h l fetchers _ pre [] w Hl (keyed_uris_dict_items pre)).
  rewrite Hpre. simpl. rewrite Hl.
  fold (load_xp_with_fetchers merge h fetchers v w1). by rewrite Hv.
Qed.

End DispatchFacts.

(** ** The dispatcher: first match, exhaustion, hard errors *)

Section DispatchClaims.

Context {Experiment World : Type}.
Variable merge : list (string * Experiment) -> Experiment.

Implicit Types (h : gmap loc (list (@fetcher Experiment World))).
Implicit Types (uri v : pyval) (payload : string).

(** C1: for every list of loaders and every uri, if every loader before
    position [i] declines (each called in the world the one before it left)
    and the loader at position [i] returns an Experiment, then
    [load_xp_with_fetchers] returns exactly that Experiment, in the world
    that loader left, and the calls it made are those of the loaders up to
    position [i], in order: no loader after position [i] is called. *)
Theorem first_match_wins h fetchers uri i f w wi xp w' inner :
  fetchers !! i = Some f ->
  all_decline merge h (take i fetchers) uri w = Some wi ->
  call merge h f uri wi = (Return xp, w', inner) ->
  load_xp_with_fetchers merge h fetchers uri w
  = (Return xp, w', plain_calls (take i fetchers) uri ++ [Call f uri inner]).
Proof.
  intros Hi Hd Hc. by apply (load_first_answer merge h fetchers i f uri w wi).
Qed.

(** C2: for every list of loaders and every uri, if every loader of the list
    declines, [load_xp_with_fetchers] raises [NoFetcherFound] carrying the
    uri it was given, after calling each loader once; for the empty list it
    does so without calling anything. *)
Theorem exhausted_list_fails h uri w :
  (forall fetchers w',
     all_decline merge h fetchers uri w = Some w' ->
     load_xp_with_fetchers merge h fetchers uri w
     = (Raise (NoFetcherFound uri), w', plain_calls fetchers uri))
  /\ load_xp_with_fetchers merge h [] uri w = (Raise (NoFetcherFound uri), w, []).
Proof.
  split; [|done]. intros fetchers w' Hd. by apply load_all_decline.
Qed.

(** C3: a failure other than the non-applicability signal leaves the
    dispatcher as it is, in the world the failing loader left, and no loader
    after the failing one is called; and whatever failure the dispatcher
    raises for a sub-uri of a composite uri (a loader's, or its own
    [NoFetcherFound]) leaves [MultipleFetcher.__call__] as it is: what comes
    after that sub-uri in the payload is not looked at, nothing is merged
    and no Experiment is returned. *)
Theorem hard_error_propagates h fetchers :
  (forall uri i f w wi e w' inner,
     fetchers !! i = Some f ->
     all_decline merge h (take i fetchers) uri w = Some wi ->
     call merge h f uri wi = (Raise e, w', inner) ->
     declines (Raise e : result Experiment) = false ->
     load_xp_with_fetchers merge h fetchers uri w
     = (Raise e, w', plain_calls (take i fetchers) uri ++ [Call f uri inner]))
  /\ (forall l payload defs pre k v post w xps w1 evs e w2 evs',
        h !! l = Some fetchers ->
        loads payload = Some defs ->
        payload_items defs = Some (dict_items pre ++ (k, v) :: post) ->
        resolve_each merge h fetchers (map snd pre) w = (Return xps, w1, evs) ->
        load_xp_with_fetchers merge h fetchers v w1 = (Raise e, w2, evs') ->
        MultipleFetcher_call merge h l (PStr (MULTI_PREFIX +:+ payload)) w
        = (Raise e, w2, evs ++ evs')).
Proof.
  split.
  - intros uri i f w wi e w' inner Hi Hd Hc He.
    by apply (load_first_answer merge h fetchers i f uri w wi).
  - intros l payload defs pre k v post w xps w1 evs e w2 evs' Hl Hp Hs Hpre Hv.
    by apply (MultipleFetcher_call_stops merge h l fetchers payload defs pre k v post w xps w1 evs).
Qed.

(** C4: for a uri that is a string, [MultipleFetcher.__call__] declines
    exactly when the uri does not start with [multi://]; once the prefix is
    there, a payload that is not JSON raises [JSONDecodeError] and a JSON
    value that is neither a list nor a mapping raises [AttributeError],
    before any loader is called. *)
Theorem multi_prefix_is_the_gate h l (uri : string) w :
  (declines (MultipleFetcher_call merge h l (PStr uri) w).1.1 = true
   <-> PyStr.startswith uri MULTI_PREFIX = false)
  /\ (PyStr.startswith uri MULTI_PREFIX = false ->
      MultipleFetcher_call merge h l (PStr uri) w
      = (Raise (ExperimentFetcherDoesntApply None), w, []))
  /\ (PyStr.startswith uri MULTI_PREFIX = true ->
      loads (PyStr.slice_from (String.length MULTI_PREFIX) uri) = None ->
      MultipleFetcher_call merge h l (PStr uri) w = (Raise JSONDecodeError, w, []))
  /\ (forall defs,
      PyStr.startswith uri MULTI_PREFIX = true ->
      loads (PyStr.slice_from (String.length MULTI_PREFIX) uri) = Some defs ->
      (forall vs, defs <> PList vs) -> (forall kvs, defs <> PDict kvs) ->
      MultipleFetcher_call merge h l (PStr uri) w = (Raise (AttributeError "items"), w, [])).
Proof.
  unfold MultipleFetcher_call. rewrite call_MultipleFetcher.
  repeat split.
  - intros Hd. apply MultipleFetcher_call_declines in Hd as [(s & Heq & Hs) _].
    by simplify_eq.
  - intros Hs. unfold MultipleFetcher_call_. by rewrite Hs.
  - intros Hs. unfold MultipleFetcher_call_. by rewrite Hs.
  - intros Hs Hp. unfold MultipleFetcher_call_. by rewrite Hs, Hp.
  - intros defs Hs Hp Hlist Hdict. unfold MultipleFetcher_call_. rewrite Hs, Hp. simpl.
    destruct defs; try done; [by destruct (Hlist items)|by destruct (Hdict items)].
Qed.

End DispatchClaims.

(** The loaders of the instance, with the [MultipleFetcher] over them. *)
Lemma h1_fetchers :
  Demo.h1 !! 1 = Some [Demo.loader_a; Demo.loader_bad; Demo.loader_b; MultipleFetcher 1].
Proof. vm_compute. reflexivity. Qed.

Lemma first_match_wins_witness :
  load_xp_with_fetchers Demo.merge Demo.h1
    [Demo.loader_a; Demo.loader_bad; Demo.loader_b; MultipleFetcher 1] (PStr "b") 0
  = (Return [Demo.point "1" None], 3,
     plain_calls [Demo.loader_a; Demo.loader_bad] (PStr "b")
     ++ [Call Demo.loader_b (PStr "b") []]).
Proof.
  apply (first_match_wins Demo.merge Demo.h1
           [Demo.loader_a; Demo.loader_bad; Demo.loader_b; MultipleFetcher 1]
           (PStr "b") 2 Demo.loader_b 0 2).
  - reflexivity.
  - vm_compute. reflexivity.
  - vm_compute. reflexivity.
Defined.

Lemma exhausted_list_fails_witness :
  load_xp_with_fetchers Demo.merge Demo.h1
    [Demo.loader_a; Demo.loader_bad; Demo.loader_b; MultipleFetcher 1] (PStr "c") 0
  = (Raise (NoFetcherFound (PStr "c")), 3,
     plain_calls [Demo.loader_a; Demo.loader_bad; Demo.loader_b; MultipleFetcher 1] (PStr "c"))
  /\ load_xp_with_fetchers Demo.merge Demo.h1 [] (PStr "c") 0
     = (Raise (NoFetcherFound (PStr "c")), 0, []).
Proof.
  destruct (exhausted_list_fails Demo.merge Demo.h1 (PStr "c") 0) as [Hall Hempty].
  split; [|exact Hempty].
  apply (Hall [Demo.loader_a; Demo.loader_bad; Demo.loader_b; MultipleFetcher 1] 3).
  vm_compute. reflexivity.
Defined.

Lemma hard_error_propagates_witness :
  load_xp_with_fetchers Demo.merge Demo.h1
    [Demo.loader_a; Demo.loader_bad; Demo.loader_b; MultipleFetcher 1] (PStr "bad") 0
  = (Raise (OtherException "ValueError"), 2,
     plain_calls [Demo.loader_a] (PStr "bad") ++ [Call Demo.loader_bad (PStr "bad") []])
  /\ (MultipleFetcher_call Demo.merge Demo.h1 1
        (PStr (MULTI_PREFIX +:+ quoted "['a','c',3]")) 0).1
     = (Raise (NoFetcherFound (PStr "c")), 4).
Proof.
  split.
  - apply (proj1 (hard_error_propagates Demo.merge Demo.h1
                    [Demo.loader_a; Demo.loader_bad; Demo.loader_b; MultipleFetcher 1])
             (PStr "bad") 1 Demo.loader_bad 0 1).
    + reflexivity.
    + vm_compute. reflexivity.
    + vm_compute. reflexivity.
    + reflexivity.
  - erewrite (proj2 (hard_error_propagates Demo.merge Demo.h1
                       [Demo.loader_a; Demo.loader_bad; Demo.loader_b; MultipleFetcher 1])
                1 (quoted "['a','c',3]") _ [("a", PStr "a")] (PStr "c") (PStr "c")
                [(PInt "3", PInt "3")] 0).
    + reflexivity.
    + exact h1_fetchers.
    + vm_compute. reflexivity.
    + vm_compute. reflexivity.
    + vm_compute. reflexivity.
    + vm_compute. reflexivity.
Defined.

Lemma multi_prefix_is_the_gate_witness :
  MultipleFetcher_call Demo.merge Demo.h1 1 (PStr "a.csv") 0
  = (Raise (ExperimentFetcherDoesntApply None), 0, [])
  /\ MultipleFetcher_call Demo.merge Demo.h1 1 (PStr "multi://[") 0
     = (Raise JSONDecodeError, 0, [])
  /\ MultipleFetcher_call Demo.merge Demo.h1 1 (PStr "multi://3") 0
     = (Raise (AttributeError "items"), 0, []).
Proof.
  split; [|split].
  - apply (proj1 (proj2 (multi_prefix_is_the_gate Demo.merge Demo.h1 1 "a.csv" 0))).
    reflexivity.
  - apply (proj1 (proj2 (proj2 (multi_prefix_is_the_gate Demo.merge Demo.h1 1 "multi://[" 0))));
      reflexivity.
  - apply (proj2 (proj2 (proj2 (multi_prefix_is_the_gate Demo.merge Demo.h1 1 "multi://3" 0)))
             (PInt "3")); try reflexivity; discriminate.
Defined.

(** ** [load_csv]: what counts as not applicable *)

Section LoadCsvClaims.

Context {Experiment World File : Type}.
Variable merge : list (string * Experiment) -> Experiment.
Variable open_ : string -> World -> (File + exn) * World.
Variable from_iterable_DictReader : File -> World -> (Experiment + exn) * World.

(** C7: [load_csv] declines a uri that does not end in [.csv], without
    touching anything; for a uri that ends in [.csv] and a file that [open]
    does not find, the [FileNotFoundError] becomes the non-applicability
    signal; and in both cases the dispatcher goes on with the loaders after
    [load_csv] instead of failing. *)
Theorem load_csv_not_applicable (uri : string) w :
  (PyStr.endswith uri ".csv" = false ->
   load_csv open_ from_iterable_DictReader (PStr uri) w
   = (inr (ExperimentFetcherDoesntApply (Some ("Not a CSV file: " +:+ uri))), w))
  /\ (forall w1,
      PyStr.endswith uri ".csv" = true ->
      open_ uri w = (inr FileNotFoundError, w1) ->
      load_csv open_ from_iterable_DictReader (PStr uri) w
      = (inr (ExperimentFetcherDoesntApply (Some ("No such file: " +:+ uri))), w1))
  /\ (forall h rest msg w1,
      load_csv open_ from_iterable_DictReader (PStr uri) w
      = (inr (ExperimentFetcherDoesntApply msg), w1) ->
      load_xp_with_fetchers merge h
        (Function "load_csv" (load_csv open_ from_iterable_DictReader) :: rest) (PStr uri) w
      = let '(r, w2, evs) := load_xp_with_fetchers merge h rest (PStr uri) w1 in
        (r, w2,
         Call (Function "load_csv" (load_csv open_ from_iterable_DictReader)) (PStr uri) []
         :: evs)).
Proof.
  split; [|split].
  - intros Hs. unfold load_csv. by rewrite Hs.
  - intros w1 Hs Ho. unfold load_csv. by rewrite Hs, Ho.
  - intros h rest msg w1 Hc. unfold load_xp_with_fetchers. simpl.
    unfold call at 1. rewrite call_Function, Hc. simpl. done.
Qed.

End LoadCsvClaims.

Lemma load_csv_not_applicable_witness :
  load_csv Demo.open_ Demo.from_iterable_DictReader (PStr "a") 0
  = (inr (ExperimentFetcherDoesntApply (Some "Not a CSV file: a")), 0)
  /\ load_csv Demo.open_ Demo.from_iterable_DictReader (PStr "missing.csv") 0
     = (inr (ExperimentFetcherDoesntApply (Some "No such file: missing.csv")), 1)
  /\ (load_xp_with_fetchers Demo.merge Demo.h1
        [Function "load_csv" (load_csv Demo.open_ Demo.from_iterable_DictReader); Demo.loader_a]
        (PStr "missing.csv") 0).1
     = (Raise (NoFetcherFound (PStr "missing.csv")), 2).
Proof.
  split; [|split].
  - apply (proj1 (load_csv_not_applicable Demo.merge Demo.open_ Demo.from_iterable_DictReader
                    "a" 0)).
    reflexivity.
  - apply (proj1 (proj2 (load_csv_not_applicable Demo.merge Demo.open_
                           Demo.from_iterable_DictReader "missing.csv" 0))); reflexivity.
  - rewrite (proj2 (proj2 (load_csv_not_applicable Demo.merge Demo.open_
                             Demo.from_iterable_DictReader "missing.csv" 0))
               Demo.h1 [Demo.loader_a] (Some "No such file: missing.csv") 1 eq_refl).
    vm_compute. reflexivity.
Defined.

(** ** [get_fetchers] and the lists it builds *)

Section RegistryClaims.

Context {Experiment World Module File : Type}.
Variable merge : list (string * Experiment) -> Experiment.
Variable import_module : string -> World -> (Module + exn) * World.
Variable getcwd : World -> string.
Variable path_join : string -> string -> string.
Variable exec_source_file : string -> string -> World -> (Module + exn) * World.
Variable getattr : Module -> string -> option (@fetcher Experiment World).
Variable open_ : string -> World -> (File + exn) * World.
Variable from_iterable_DictReader : File -> World -> (Experiment + exn) * World.
Variables load_demo load_json load_fairseq load_wav2letter :
  pyval -> World -> (Experiment + exn) * World.

Abbreviation heap := (gmap loc (list (@fetcher Experiment World))).
Abbreviation resolve_spec_ :=
  (resolve_spec import_module getcwd path_join exec_source_file getattr).
Abbreviation resolve_specs_ :=
  (resolve_specs import_module getcwd path_join exec_source_file getattr).
Abbreviation append_fetchers_ :=
  (append_fetchers import_module getcwd path_join exec_source_file getattr).
Abbreviation builtins :=
  (builtin_fetchers open_ from_iterable_DictReader load_demo load_json load_fairseq load_wav2letter).
Abbreviation get_fetchers_ :=
  (get_fetchers import_module getcwd path_join exec_source_file getattr
     open_ from_iterable_DictReader load_demo load_json load_fairseq load_wav2letter).

Implicit Types (h : heap) (w : World).

Lemma list_append_lookup l (x : @fetcher Experiment World) h items :
  h !! l = Some items -> list_append l x h = <[l := items ++ [x]]> h.
Proof.
  intros Hl. apply map_eq. intros i. unfold list_append.
  destruct (decide (l = i)) as [->|Hne].
  - by rewrite lookup_alter_eq, lookup_insert_eq, Hl.
  - by rewrite lookup_alter_ne, lookup_insert_ne.
Qed.

(** [__init__] allocates: the new list is at a new address, and the list it
    was given is where it was. *)
Lemma MultipleFetcher_init_alloc h fetchers items :
  h !! fetchers = Some items ->
  let self_fetchers := fresh (dom h) in
  MultipleFetcher_init h fetchers
  = (Return (MultipleFetcher self_fetchers),
     <[self_fetchers := items ++ [MultipleFetcher self_fetchers]]> h)
  /\ self_fetchers <> fetchers
  /\ h !! self_fetchers = None.
Proof.
  intros Hl self_fetchers. unfold MultipleFetcher_init. rewrite Hl.
  assert (h !! self_fetchers = None) as Hfresh.
  { apply not_elem_of_dom. apply is_fresh. }
  repeat split; [|done]. intros Heq. congruence.
Qed.

Lemma append_fetchers_resolve_specs xp_fetchers : forall add_fetchers h w items,
  h !! xp_fetchers = Some items ->
  match resolve_specs_ add_fetchers w with
  | (inl fetchers, w') =>
      append_fetchers_ xp_fetchers add_fetchers h w
      = (Return tt, <[xp_fetchers := items ++ fetchers]> h, w')
  | (inr e, w') =>
      exists h', append_fetchers_ xp_fetchers add_fetchers h w = (Raise e, h', w')
  end.
Proof.
  induction add_fetchers as [|spec rest IH]; intros h w items Hl; simpl.
  - rewrite app_nil_r. by rewrite insert_id.
  - destruct (resolve_spec_ spec w) as [[f|e] w1]; [|by eexists].
    rewrite (list_append_lookup _ _ _ _ Hl).
    specialize (IH (<[xp_fetchers := items ++ [f]]> h) w1 (items ++ [f])
                  (lookup_insert_eq _ _ _)).
    destruct (resolve_specs_ rest w1) as [[fs|e] w2]; [|done].
    rewrite IH. by rewrite insert_insert_eq, <- app_assoc.
Qed.

(** [get_fetchers]: an error when a specification fails, and otherwise two
    lists with the same loaders, the one it returns and the one its
    [MultipleFetcher] keeps. *)
Lemma get_fetchers_spec add_fetchers h w :
  match resolve_specs_ add_fetchers w with
  | (inl fetchers, w') =>
      exists hf self_fetchers,
        get_fetchers_ add_fetchers h w = (Return (fresh (dom h)), hf, w')
        /\ self_fetchers <> fresh (dom h)
        /\ hf !! fresh (dom h)
           = Some (builtins ++ fetchers ++ [MultipleFetcher self_fetchers])
        /\ hf !! self_fetchers
           = Some (builtins ++ fetchers ++ [MultipleFetcher self_fetchers])
        /\ forall l, l <> fresh (dom h) -> l <> self_fetchers -> hf !! l = h !! l
  | (inr e, w') =>
      exists hf, get_fetchers_ add_fetchers h w = (Raise e, hf, w')
  end.
Proof.
  unfold get_fetchers.
  set (xp_fetchers := fresh (dom h)).
  assert (h !! xp_fetchers = None) as Hfresh.
  { apply not_elem_of_dom. apply is_fresh. }
  pose proof (append_fetchers_resolve_specs xp_fetchers add_fetchers
                (<[xp_fetchers := builtins]> h) w builtins (lookup_insert_eq _ _ _)) as Happ.
  destruct (resolve_specs_ add_fetchers w) as [[fs|e] w'].
  - rewrite Happ. rewrite insert_insert_eq.
    set (h1 := <[xp_fetchers := builtins ++ fs]> h).
    destruct (MultipleFetcher_init_alloc h1 xp_fetchers (builtins ++ fs)
                (lookup_insert_eq _ _ _)) as (Hinit & Hne & Hnew).
    rewrite Hinit.
    set (self_fetchers := fresh (dom h1)) in *.
    eexists _, self_fetchers. split; [reflexivity|].
    rewrite (list_append_lookup xp_fetchers _ _ (builtins ++ fs))
      by (rewrite lookup_insert_ne by done; apply lookup_insert_eq).
    rewrite <- !app_assoc.
    split; [done|]. split; [by rewrite lookup_insert_eq|].
    split.
    + rewrite lookup_insert_ne by done. by rewrite lookup_insert_eq.
    + intros l Hl1 Hl2. unfold h1. by rewrite !lookup_insert_ne by done.
  - destruct Happ as [h' ->]. by eexists.
Qed.

(** C8: [get_fetchers] resolves the module of each specification with
    [import_module]; it loads the script of the same name from the working
    directory exactly when the import raised [ModuleNotFoundError] and the
    specification has two segments; every other failure (an import that
    fails otherwise, a module not found for a name of another length, a
    script that cannot be loaded, a missing attribute) is the result of
    [get_fetchers], which then returns no list: the specifications after the
    failing one are not even looked at. *)
Theorem get_fetchers_resolution :
  (forall spec w module w1,
     import_module (PyStr.join "." (PyStr.but_last (PyStr.split "." spec))) w
     = (inl module, w1) ->
     resolve_spec_ spec w
     = (match getattr module (PyStr.last_part (PyStr.split "." spec)) with
        | Some fetcher => inl fetcher
        | None => inr (AttributeError (PyStr.last_part (PyStr.split "." spec)))
        end, w1))
  /\ (forall spec w w1,
      import_module (PyStr.join "." (PyStr.but_last (PyStr.split "." spec))) w
      = (inr ModuleNotFoundError, w1) ->
      length (PyStr.split "." spec) = 2 ->
      resolve_spec_ spec w
      = match _get_module_by_name_in_cwd getcwd path_join exec_source_file
                (hd EmptyString (PyStr.split "." spec)) w1 with
        | (inl module, w2) =>
            (match getattr module (PyStr.last_part (PyStr.split "." spec)) with
             | Some fetcher => inl fetcher
             | None => inr (AttributeError (PyStr.last_part (PyStr.split "." spec)))
             end, w2)
        | (inr e, w2) => (inr e, w2)
        end)
  /\ (forall spec w e w1,
      import_module (PyStr.join "." (PyStr.but_last (PyStr.split "." spec))) w = (inr e, w1) ->
      e <> ModuleNotFoundError \/ length (PyStr.split "." spec) <> 2 ->
      resolve_spec_ spec w = (inr e, w1))
  /\ (forall pre spec post h w fetchers w1 e w2,
      resolve_specs_ pre w = (inl fetchers, w1) ->
      resolve_spec_ spec w1 = (inr e, w2) ->
      exists hf, get_fetchers_ (pre ++ spec :: post) h w = (Raise e, hf, w2))
  /\ (forall add_fetchers h w fetchers w',
      resolve_specs_ add_fetchers w = (inl fetchers, w') ->
      exists hf self,
        get_fetchers_ add_fetchers h w = (Return (fresh (dom h)), hf, w')
        /\ hf !! fresh (dom h) = Some (builtins ++ fetchers ++ [self])).
Proof.
  split; [|split; [|split; [|split]]].
  - intros spec w module w1 Hi. unfold resolve_spec. rewrite Hi.
    by destruct (getattr module _).
  - intros spec w w1 Hi Hlen. unfold resolve_spec, _get_module_by_name_in_cwd.
    rewrite Hi, Hlen. simpl.
    unfold _get_module_by_name_in_cwd.
    destruct (exec_source_file _ _ w1) as [[module|e] w2]; [|done].
    by destruct (getattr module _).
  - intros spec w e w1 Hi Hor. unfold resolve_spec. rewrite Hi.
    destruct e; try done.
    destruct Hor as [Hne|Hlen]; [done|].
    apply Nat.eqb_neq in Hlen. by rewrite Hlen.
  - intros pre spec post h w fetchers w1 e w2 Hpre Hspec.
    assert (resolve_specs_ (pre ++ spec :: post) w = (inr e, w2)) as Hfail.
    { revert w fetchers Hpre.
      induction pre as [|x pre IH]; intros w fetchers Hpre; simpl in *.
      - simplify_eq. by rewrite Hspec.
      - destruct (resolve_spec_ x w) as [[f|e'] wx]; [|done].
        destruct (resolve_specs_ pre wx) as [[fs|e'] wp] eqn:Hp; [|done].
        simplify_eq. by rewrite (IH wx fs). }
    pose proof (get_fetchers_spec (pre ++ spec :: post) h w) as Hg.
    by rewrite Hfail in Hg.
  - intros add_fetchers h w fetchers w' Hr.
    pose proof (get_fetchers_spec add_fetchers h w) as Hg. rewrite Hr in Hg.
    destruct Hg as (hf & self_fetchers & Hg & _ & Hl & _).
    by exists hf, (MultipleFetcher self_fetchers).
Qed.

(** C9: [__init__] stores a new list, the loaders it was given followed by
    the new instance; whatever the list it was given becomes afterwards, the
    instance still resolves sub-uris through those loaders, in that order;
    and after [get_fetchers] the list of its [MultipleFetcher] and the list
    it returns are two lists with the same loaders. *)
Theorem fetchers_snapshot :
  (forall h fetchers items,
     h !! fetchers = Some items ->
     exists self_fetchers h',
       MultipleFetcher_init h fetchers = (Return (MultipleFetcher self_fetchers), h')
       /\ h !! self_fetchers = None
       /\ self_fetchers <> fetchers
       /\ h' !! fetchers = Some items
       /\ h' !! self_fetchers = Some (items ++ [MultipleFetcher self_fetchers])
       /\ forall items' payload defs kvs w,
            (<[fetchers := items']> h') !! self_fetchers
            = Some (items ++ [MultipleFetcher self_fetchers])
            /\ (loads payload = Some defs -> sub_uris defs = Some kvs ->
                MultipleFetcher_call merge (<[fetchers := items']> h') self_fetchers
                  (PStr (MULTI_PREFIX +:+ payload)) w
                = merged merge (map fst kvs)
                    (resolve_each merge (<[fetchers := items']> h')
                       (items ++ [MultipleFetcher self_fetchers]) (map snd kvs) w)))
  /\ (forall add_fetchers h w xp_fetchers hf w',
      get_fetchers_ add_fetchers h w = (Return xp_fetchers, hf, w') ->
      exists self_fetchers items,
        self_fetchers <> xp_fetchers
        /\ hf !! xp_fetchers = Some (items ++ [MultipleFetcher self_fetchers])
        /\ hf !! self_fetchers = Some (items ++ [MultipleFetcher self_fetchers])).
Proof.
  split.
  - intros h fetchers items Hl.
    destruct (MultipleFetcher_init_alloc h fetchers items Hl) as (Hinit & Hne & Hnew).
    eexists _, _. split; [exact Hinit|]. split; [done|]. split; [done|].
    split; [by rewrite lookup_insert_ne|]. split; [by rewrite lookup_insert_eq|].
    intros items' payload defs kvs w.
    assert ((<[fetchers := items']>
               (<[fresh (dom h) := items ++ [MultipleFetcher (fresh (dom h))]]> h))
              !! fresh (dom h) = Some (items ++ [MultipleFetcher (fresh (dom h))])) as Hk.
    { rewrite lookup_insert_ne by done. by rewrite lookup_insert_eq. }
    split; [exact Hk|]. intros Hp Hs.
    by apply (MultipleFetcher_call_sub_uris merge _ _ _ payload defs).
  - intros add_fetchers h w xp_fetchers hf w' Hg.
    pose proof (get_fetchers_spec add_fetchers h w) as Hspec.
    destruct (resolve_specs_ add_fetchers w) as [[fs|e] w1].
    + destruct Hspec as (hf' & self_fetchers & Hg' & Hne & Hl1 & Hl2 & _).
      rewrite Hg in Hg'. simplify_eq.
      exists self_fetchers, (builtins ++ fs). by rewrite <- !app_assoc.
    + destruct Hspec as (hf' & Hg'). rewrite Hg in Hg'. done.
Qed.

End RegistryClaims.

Lemma get_fetchers_resolution_witness :
  Demo.resolve_spec "mymodule.myloader" 0 = (inl Demo.loader_a, 1)
  /\ Demo.resolve_spec "script.run" 0 = (inl Demo.loader_b, 2)
  /\ Demo.resolve_spec "broken.myloader" 0 = (inr (OtherException "SyntaxError"), 1)
  /\ Demo.resolve_spec "some.package.loader" 0 = (inr ModuleNotFoundError, 1)
  /\ (exists hf, Demo.get_fetchers ["mymodule.myloader"; "nomodule.run"; "script.run"]
                 = (Raise FileNotFoundError, hf, 3))
  /\ (exists hf self,
       Demo.get_fetchers ["mymodule.myloader"; "script.run"] = (Return (fresh (dom (∅ : gmap loc (list (@fetcher Demo.Xp nat))))), hf, 3)
       /\ hf !! fresh (dom (∅ : gmap loc (list (@fetcher Demo.Xp nat))))
          = Some (builtin_fetchers Demo.open_ Demo.from_iterable_DictReader
                    Demo.declining Demo.declining Demo.declining Demo.declining
                  ++ [Demo.loader_a; Demo.loader_b] ++ [self])).
Proof.
  pose proof (get_fetchers_resolution Demo.import_module Demo.getcwd Demo.path_join
                Demo.exec_source_file Demo.getattr Demo.open_ Demo.from_iterable_DictReader
                Demo.declining Demo.declining Demo.declining Demo.declining)
    as (Himport & Hscript & Hfail & Hatomic & Hlist).
  split; [|split; [|split; [|split; [|split]]]].
  - apply (Himport "mymodule.myloader" 0
             [("myloader", Demo.loader_a)] 1). reflexivity.
  - apply (Hscript "script.run" 0 1); reflexivity.
  - apply (Hfail "broken.myloader" 0 (OtherException "SyntaxError") 1); [reflexivity|].
    left. discriminate.
  - apply (Hfail "some.package.loader" 0 ModuleNotFoundError 1); [reflexivity|].
    right. vm_compute. lia.
  - apply (Hatomic ["mymodule.myloader"] "nomodule.run" ["script.run"] ∅ 0
             [Demo.loader_a] 1 FileNotFoundError 3); reflexivity.
  - apply (Hlist ["mymodule.myloader"; "script.run"] ∅ 0 [Demo.loader_a; Demo.loader_b] 3).
    reflexivity.
Defined.

Lemma fetchers_snapshot_witness :
  (exists self_fetchers h',
     MultipleFetcher_init Demo.h0 0 = (Return (MultipleFetcher self_fetchers), h')
     /\ self_fetchers <> 0
     /\ (<[0 := []]> h') !! self_fetchers
        = Some ([Demo.loader_a; Demo.loader_bad; Demo.loader_b]
                ++ [MultipleFetcher self_fetchers]))
  /\ (exists self_fetchers items,
       self_fetchers <> 0
       /\ (Demo.get_fetchers ["mymodule.myloader"]).1.2 !! 0
          = Some (items ++ [MultipleFetcher self_fetchers])
       /\ (Demo.get_fetchers ["mymodule.myloader"]).1.2 !! self_fetchers
          = Some (items ++ [MultipleFetcher self_fetchers])).
Proof.
  pose proof (fetchers_snapshot Demo.merge Demo.import_module Demo.getcwd Demo.path_join
                Demo.exec_source_file Demo.getattr Demo.open_ Demo.from_iterable_DictReader
                Demo.declining Demo.declining Demo.declining Demo.declining)
    as (Hinit & Hget).
  split.
  - destruct (Hinit Demo.h0 0 [Demo.loader_a; Demo.loader_bad; Demo.loader_b] eq_refl)
      as (self_fetchers & h' & Hi & _ & Hne & _ & _ & Hkeep).
    exists self_fetchers, h'. split; [exact Hi|]. split; [exact Hne|].
    exact (proj1 (Hkeep [] EmptyString PNone [] 0)).
  - apply (Hget ["mymodule.myloader"] ∅ 0 0 _ 1). vm_compute. reflexivity.
Defined.

(** ** Composite uris: the list form, the mapping form, duplicates *)

Lemma sub_uris_list vs :
  sub_uris (PList (map PStr vs)) = Some (map (fun v => (v, PStr v)) vs).
Proof.
  unfold sub_uris, payload_items, list_items.
  induction vs as [|v vs IH]; simpl; [done|]. by rewrite IH.
Qed.

Lemma sub_uris_dict kvs : sub_uris (PDict kvs) = Some kvs.
Proof. apply keyed_uris_dict_items. Qed.

Section DuplicateClaims.

Context {Experiment World : Type}.
Variable merge : list (string * Experiment) -> Experiment.

Implicit Types (h : gmap loc (list (@fetcher Experiment World))).

(** A sub-uri listed twice is resolved twice, and the Experiment of the
    second resolution is the one kept under its key. *)
Lemma duplicate_keeps_last h l fetchers payload a w xa w1 evs1 xa' w2 evs2 :
  h !! l = Some fetchers ->
  loads payload = Some (PList [PStr a; PStr a]) ->
  load_xp_with_fetchers merge h fetchers (PStr a) w = (Return xa, w1, evs1) ->
  load_xp_with_fetchers merge h fetchers (PStr a) w1 = (Return xa', w2, evs2) ->
  MultipleFetcher_call merge h l (PStr (MULTI_PREFIX +:+ payload)) w
  = (Return (merge [(a, xa')]), w2, evs1 ++ evs2).
Proof.
  intros Hl Hp H1 H2.
  rewrite (MultipleFetcher_call_sub_uris merge h l fetchers payload _ _ w Hl Hp
             (sub_uris_list [a; a])).
  simpl. rewrite H1, H2. simpl. unfold dict_of_pairs. simpl.
  rewrite String.eqb_refl. by rewrite app_nil_r.
Qed.

(** C10, amended: in the list form the sub-experiments are keyed by the
    sub-uri, so a sub-uri listed twice is one key.  [multi://["a","a"]]
    resolves [a] twice and results in the merge of the one-key dict that maps
    [a] to the Experiment of the second resolution, where [multi://["a"]]
    results in the merge of the one-key dict that maps [a] to the Experiment
    of its only resolution; the two results are equal whenever resolving [a]
    a second time returns the Experiment it returned the first time. *)
Theorem duplicate_sub_uri_collapse h l fetchers two one a w :
  h !! l = Some fetchers ->
  loads two = Some (PList [PStr a; PStr a]) ->
  loads one = Some (PList [PStr a]) ->
  (forall xa w1 evs1 xa' w2 evs2,
     load_xp_with_fetchers merge h fetchers (PStr a) w = (Return xa, w1, evs1) ->
     load_xp_with_fetchers merge h fetchers (PStr a) w1 = (Return xa', w2, evs2) ->
     MultipleFetcher_call merge h l (PStr (MULTI_PREFIX +:+ two)) w
     = (Return (merge [(a, xa')]), w2, evs1 ++ evs2)
     /\ MultipleFetcher_call merge h l (PStr (MULTI_PREFIX +:+ one)) w
        = (Return (merge [(a, xa)]), w1, evs1))
  /\ ((forall xa w1 evs1,
         load_xp_with_fetchers merge h fetchers (PStr a) w = (Return xa, w1, evs1) ->
         (load_xp_with_fetchers merge h fetchers (PStr a) w1).1.1 = Return xa) ->
      (MultipleFetcher_call merge h l (PStr (MULTI_PREFIX +:+ two)) w).1.1
      = (MultipleFetcher_call merge h l (PStr (MULTI_PREFIX +:+ one)) w).1.1).
Proof.
  intros Hl H2 H1.
  assert (MultipleFetcher_call merge h l (PStr (MULTI_PREFIX +:+ one)) w
          = merged merge [a] (resolve_each merge h fetchers [PStr a] w)) as Hone
    by apply (MultipleFetcher_call_sub_uris merge h l fetchers one _ _ w Hl H1
                (sub_uris_list [a])).
  split.
  - intros xa w1 evs1 xa' w2 evs2 Hfirst Hsecond. split.
    + by apply (duplicate_keeps_last h l fetchers two a w xa w1 evs1).
    + rewrite Hone. simpl. rewrite Hfirst. simpl. by rewrite app_nil_r.
  - intros Hrep. rewrite Hone.
    destruct (load_xp_with_fetchers merge h fetchers (PStr a) w) as [[r w1] evs1] eqn:Hfirst.
    destruct r as [xa|e|g].
    + specialize (Hrep xa w1 evs1 eq_refl).
      destruct (load_xp_with_fetchers merge h fetchers (PStr a) w1)
        as [[r' w2] evs2] eqn:Hsecond.
      simpl in Hrep. subst r'.
      rewrite (duplicate_keeps_last h l fetchers two a w xa w1 evs1 xa w2 evs2
                 Hl H2 Hfirst Hsecond).
      simpl. by rewrite Hfirst.
    + rewrite (MultipleFetcher_call_sub_uris merge h l fetchers two _ _ w Hl H2
                 (sub_uris_list [a; a])).
      simpl. by rewrite Hfirst.
    + rewrite (MultipleFetcher_call_sub_uris merge h l fetchers two _ _ w Hl H2
                 (sub_uris_list [a; a])).
      simpl. by rewrite Hfirst.
Qed.

End DuplicateClaims.

Section MultiClaims.

Context {Value World : Type}.
Variable namespace : string -> string -> string.

Abbreviation Xp := (@Experiment Value).
Abbreviation merge_ := (@Experiment_merge Value namespace).

Implicit Types (h : gmap loc (list (@fetcher Xp World))).

Lemma In_merge (d : list (string * Xp)) k xp dp :
  In (k, xp) d -> In dp xp -> In (namespaced namespace k dp) (merge_ d).
Proof.
  intros Hk Hd. unfold Experiment_merge. apply in_flat_map.
  exists (k, xp). split; [done|]. simpl. by apply in_map.
Qed.

Lemma length_merge (d : list (string * Xp)) :
  length (merge_ d) = list_sum (map (fun kx => length (snd kx)) d).
Proof.
  unfold Experiment_merge. induction d as [|[k xp] d IH]; simpl; [done|].
  by rewrite length_app, length_map, IH.
Qed.

(** C5: a [MultipleFetcher] made of a list of loaders keeps that list
    followed by itself; on [multi://] and the JSON text of a list of strings
    it resolves each string, in order, through the dispatcher over that whole
    list, and returns the merge of the dict that maps each sub-uri string to
    its Experiment.  In the merge every datapoint of every sub-experiment is
    there under its key, and datapoints with one uid under two different
    sub-uris are both there, with different uids. *)
Theorem multi_list_form h fetchers items :
  h !! fetchers = Some items ->
  exists self_fetchers h',
    MultipleFetcher_init h fetchers = (Return (MultipleFetcher self_fetchers), h')
    /\ h' !! self_fetchers = Some (items ++ [MultipleFetcher self_fetchers])
    /\ (forall payload vs w,
          loads payload = Some (PList (map PStr vs)) ->
          MultipleFetcher_call merge_ h' self_fetchers (PStr (MULTI_PREFIX +:+ payload)) w
          = merged merge_ vs
              (resolve_each merge_ h' (items ++ [MultipleFetcher self_fetchers])
                 (map PStr vs) w))
    /\ (never_collide namespace ->
        forall (d : list (string * Xp)) a b xa xb da db,
          In (a, xa) d -> In (b, xb) d -> a <> b ->
          In da xa -> In db xb -> uid da = uid db ->
          In (namespaced namespace a da) (merge_ d)
          /\ In (namespaced namespace b db) (merge_ d)
          /\ uid (namespaced namespace a da) <> uid (namespaced namespace b db))
    /\ (forall d : list (string * Xp),
          length (merge_ d) = list_sum (map (fun kx => length (snd kx)) d)).
Proof.
  intros Hl. unfold MultipleFetcher_init. rewrite Hl.
  eexists _, _. split; [reflexivity|].
  assert (<[fresh (dom h) := items ++ [MultipleFetcher (fresh (dom h))]]> h !! fresh (dom h)
          = Some (items ++ [MultipleFetcher (fresh (dom h))])) as Hself
    by apply lookup_insert_eq.
  split; [exact Hself|]. split; [|split].
  - intros payload vs w Hp.
    rewrite (MultipleFetcher_call_sub_uris merge_ _ _ _ payload _ _ w Hself Hp (sub_uris_list vs)).
    rewrite !map_map. simpl. by rewrite map_id.
  - intros Hns d a b xa xb da db Ha Hb Hab Hda Hdb Huid.
    split; [by eapply In_merge|]. split; [by eapply In_merge|].
    simpl. rewrite Huid. by apply Hns.
  - apply length_merge.
Qed.

(** C6: on [multi://] and the JSON text of a mapping, [__call__] resolves
    each value, in order, and returns the merge of the dict that maps each
    key (not each sub-uri) to its Experiment; for [multi://{"x":"a","y":"a"}]
    the sub-uri [a] is resolved twice and the result holds two copies, the
    first resolution namespaced by [x] and the second namespaced by [y]. *)
Theorem multi_mapping_form h l fetchers :
  h !! l = Some fetchers ->
  (forall payload kvs w,
     loads payload = Some (PDict kvs) ->
     MultipleFetcher_call merge_ h l (PStr (MULTI_PREFIX +:+ payload)) w
     = merged merge_ (map fst kvs) (resolve_each merge_ h fetchers (map snd kvs) w))
  /\ (forall w xa w1 evs1 xa' w2 evs2,
      load_xp_with_fetchers merge_ h fetchers (PStr "a") w = (Return xa, w1, evs1) ->
      load_xp_with_fetchers merge_ h fetchers (PStr "a") w1 = (Return xa', w2, evs2) ->
      MultipleFetcher_call merge_ h l (PStr (quoted "multi://{'x':'a','y':'a'}")) w
      = (Return (map (namespaced namespace "x") xa ++ map (namespaced namespace "y") xa'),
         w2, evs1 ++ evs2)).
Proof.
  intros Hl.
  assert (forall payload kvs w,
     loads payload = Some (PDict kvs) ->
     MultipleFetcher_call merge_ h l (PStr (MULTI_PREFIX +:+ payload)) w
     = merged merge_ (map fst kvs) (resolve_each merge_ h fetchers (map snd kvs) w)) as Hgen.
  { intros payload kvs w Hp.
    by apply (MultipleFetcher_call_sub_uris merge_ h l fetchers payload _ kvs w Hl Hp),
             sub_uris_dict. }
  split; [exact Hgen|].
  intros w xa w1 evs1 xa' w2 evs2 H1 H2.
  change (quoted "multi://{'x':'a','y':'a'}")
    with (MULTI_PREFIX +:+ quoted "{'x':'a','y':'a'}").
  rewrite (Hgen (quoted "{'x':'a','y':'a'}") [("x", PStr "a"); ("y", PStr "a")] w eq_refl).
  simpl. rewrite H1, H2. simpl. unfold Experiment_merge. simpl. by rewrite !app_nil_r.
Qed.

End MultiClaims.

(** *** The instance *)

Lemma append_inj_r a : forall b s, a +:+ s = b +:+ s -> a = b.
Proof.
  assert (forall x y c, x <> String c (y +:+ x)) as Hlen.
  { intros x y c Heq. apply (f_equal String.length) in Heq.
    simpl in Heq. rewrite JsonFacts.append_length in Heq. lia. }
  induction a as [|c a IH]; intros [|d b] s Heq; simpl in *.
  - done.
  - by destruct (Hlen s b d).
  - by destruct (Hlen s a c).
  - injection Heq as -> Heq. by rewrite (IH b s).
Qed.

Lemma namespace_never_collide : never_collide Demo.namespace.
Proof.
  intros k1 k2 u Hne Heq. apply Hne. unfold Demo.namespace in Heq.
  by apply append_inj_r in Heq.
Qed.

Lemma h1_init : MultipleFetcher_init Demo.h0 0 = (Return (MultipleFetcher 1), Demo.h1).
Proof. vm_compute. reflexivity. Qed.

Lemma multi_list_form_witness :
  MultipleFetcher_init Demo.h0 0 = (Return (MultipleFetcher 1), Demo.h1)
  /\ Demo.h1 !! 1 = Some ([Demo.loader_a; Demo.loader_bad; Demo.loader_b] ++ [MultipleFetcher 1])
  /\ (MultipleFetcher_call Demo.merge Demo.h1 1 (PStr (quoted "multi://['a','b']")) 0).1
     = (Return [namespaced Demo.namespace "a" (Demo.point "1" None);
                namespaced Demo.namespace "a" (Demo.point "2" (Some "1"));
                namespaced Demo.namespace "b" (Demo.point "1" None)], 4)
  /\ uid (namespaced Demo.namespace "a" (Demo.point "1" None))
     <> uid (namespaced Demo.namespace "b" (Demo.point "1" None)).
Proof.
  destruct (multi_list_form Demo.namespace Demo.h0 0
              [Demo.loader_a; Demo.loader_bad; Demo.loader_b] eq_refl)
    as (self_fetchers & h' & Hinit & Hself & Hcall & Hcollide & _).
  assert ((Return (MultipleFetcher self_fetchers), h') = (Return (MultipleFetcher 1), Demo.h1))
    as Heq by (etransitivity; [symmetry; exact Hinit|exact h1_init]).
  injection Heq as -> ->.
  split; [exact h1_init|]. split; [exact Hself|]. split.
  - change (quoted "multi://['a','b']") with (MULTI_PREFIX +:+ quoted "['a','b']").
    etransitivity;
      [apply (f_equal fst); exact (Hcall (quoted "['a','b']") ["a"; "b"] 0 eq_refl)|].
    vm_compute. reflexivity.
  - refine (proj2 (proj2 (Hcollide namespace_never_collide
             [("a", [Demo.point "1" None; Demo.point "2" (Some "1")]);
              ("b", [Demo.point "1" None])]
             "a" "b" [Demo.point "1" None; Demo.point "2" (Some "1")] [Demo.point "1" None]
             (Demo.point "1" None) (Demo.point "1" None) _ _ _ _ _ _))).
    + simpl. tauto.
    + simpl. tauto.
    + discriminate.
    + simpl. tauto.
    + simpl. tauto.
    + reflexivity.
Defined.

Lemma multi_mapping_form_witness :
  MultipleFetcher_call Demo.merge Demo.h1 1 (PStr (quoted "multi://{'x':'a','y':'a'}")) 0
  = (Return (map (namespaced Demo.namespace "x") [Demo.point "1" None; Demo.point "2" (Some "1")]
             ++ map (namespaced Demo.namespace "y")
                  [Demo.point "1" None; Demo.point "2" (Some "1")]),
     2, [Call Demo.loader_a (PStr "a") []] ++ [Call Demo.loader_a (PStr "a") []]).
Proof.
  apply (proj2 (multi_mapping_form Demo.namespace Demo.h1 1
                  [Demo.loader_a; Demo.loader_bad; Demo.loader_b; MultipleFetcher 1]
                  h1_fetchers) 0 _ 1 _ _ 2 _).
  - vm_compute. reflexivity.
  - vm_compute. reflexivity.
Defined.

Lemma duplicate_sub_uri_collapse_witness :
  MultipleFetcher_call Demo.merge Demo.h_count 1 (PStr (quoted "multi://['a','a']")) 0
  = (Return (Demo.merge [("a", [Demo.point "1" None])]), 2,
     [Call Demo.loader_count (PStr "a") []] ++ [Call Demo.loader_count (PStr "a") []])
  /\ (MultipleFetcher_call Demo.merge Demo.h1 1 (PStr (quoted "multi://['a','a']")) 0).1.1
     = (MultipleFetcher_call Demo.merge Demo.h1 1 (PStr (quoted "multi://['a']")) 0).1.1.
Proof.
  split.
  - apply (proj1 (duplicate_sub_uri_collapse Demo.merge Demo.h_count 1
                    [Demo.loader_count; MultipleFetcher 1]
                    (quoted "['a','a']") (quoted "['a']") "a" 0
                    eq_refl eq_refl eq_refl)
             [Demo.point "0" None] 1 _ _ 2 _).
    + vm_compute. reflexivity.
    + vm_compute. reflexivity.
  - apply (proj2 (duplicate_sub_uri_collapse Demo.merge Demo.h1 1
                    [Demo.loader_a; Demo.loader_bad; Demo.loader_b; MultipleFetcher 1]
                    (quoted "['a','a']") (quoted "['a']") "a" 0
                    h1_fetchers eq_refl eq_refl)).
    intros xa w1 evs1 Hfirst. vm_compute in Hfirst. injection Hfirst as <- <- <-.
    vm_compute. reflexivity.
Defined.

(** The claim C10 as it was stated fails for a source that changes: with a
    loader that answers [a] differently each time, [multi://["a","a"]] keeps
    the second answer and [multi://["a"]] has the first. *)
Lemma duplicate_sub_uri_counterexample :
  (MultipleFetcher_call Demo.merge Demo.h_count 1 (PStr (quoted "multi://['a','a']")) 0).1.1
  <> (MultipleFetcher_call Demo.merge Demo.h_count 1 (PStr (quoted "multi://['a']")) 0).1.1.
Proof. vm_compute. discriminate. Qed.

(** A composite uri inside a composite uri: the inner one is resolved by the
    [MultipleFetcher] itself, found at the end of its own list. *)
Example nested_composite :
  (MultipleFetcher_call Demo.merge Demo.h1 1
     (PStr (quoted "multi://['multi://[\'a\',\'b\']','b']")) 0).1
  = (Return [{| uid := quoted "multi://['a','b']_a_1"; values := [("seen", "1")];
                from_uid := None |};
             {| uid := quoted "multi://['a','b']_a_2"; values := [("seen", "2")];
                from_uid := Some (quoted "multi://['a','b']_a_1") |};
             {| uid := quoted "multi://['a','b']_b_1"; values := [("seen", "1")];
                from_uid := None |};
             {| uid := "b_1"; values := [("seen", "1")]; from_uid := None |}], 10).
Proof. vm_compute. reflexivity. Qed.

(** An empty list and an empty mapping give the merge of nothing. *)
Example empty_composite :
  MultipleFetcher_call Demo.merge Demo.h1 1 (PStr "multi://[]") 0 = (Return [], 0, [])
  /\ MultipleFetcher_call Demo.merge Demo.h1 1 (PStr "multi://{}") 0 = (Return [], 0, []).
Proof. split; vm_compute; reflexivity. Qed.

(** Sub-uris that are not strings are handed to the loaders as they are: a
    number that every function declines reaches the [MultipleFetcher] itself,
    which has no [startswith] to call on it; a list that a loader accepts
    cannot be the key of its Experiment. *)
Example sub_uris_that_are_not_strings :
  (MultipleFetcher_call Demo.merge Demo.h1 1 (PStr (quoted "multi://['a',3]")) 0).1
  = (Raise (AttributeError "startswith"), 4)
  /\ (MultipleFetcher_call Demo.merge
        (<[1 := [Function "any" (fun _ w => (inl [], S w)); MultipleFetcher 1]]> Demo.h1) 1
        (PStr "multi://[[]]") 0).1
     = (Raise (TypeError "unhashable type"), 1).
Proof. split; vm_compute; reflexivity. Qed.

(** * Further properties of the dispatch core *)

(** ** Dicts as lists of items *)

Section DictFacts.

Context {A : Type}.
Implicit Types (d : list (string * A)) (k : string) (v : A).

Lemma dict_get_set_eq k v d : dict_get k (dict_set k v d) = Some v.
Proof.
  induction d as [|[k' v'] d IH]; simpl.
  - by rewrite String.eqb_refl.
  - destruct (String.eqb k' k) eqn:Hk; simpl; [by rewrite String.eqb_refl|by rewrite Hk].
Qed.

Lemma dict_get_set_ne k k' v d : k <> k' -> dict_get k' (dict_set k v d) = dict_get k' d.
Proof.
  intros Hne. induction d as [|[k0 v0] d IH]; simpl.
  - apply String.eqb_neq in Hne. by rewrite Hne.
  - destruct (String.eqb k0 k) eqn:Hk; simpl.
    + apply String.eqb_eq in Hk as ->. apply String.eqb_neq in Hne. by rewrite Hne.
    + by rewrite IH.
Qed.

Lemma dict_get_None k d : dict_get k d = None <-> ~ In k (map fst d).
Proof.
  induction d as [|[k' v'] d IH]; simpl; [tauto|].
  destruct (String.eqb k' k) eqn:Hk.
  - apply String.eqb_eq in Hk. split; [done|]. intros H. destruct H. by left.
  - apply String.eqb_neq in Hk. rewrite IH. tauto.
Qed.

Lemma dict_set_fresh k v d : ~ In k (map fst d) -> dict_set k v d = d ++ [(k, v)].
Proof.
  induction d as [|[k' v'] d IH]; simpl; [done|]. intros Hk.
  destruct (String.eqb k' k) eqn:Heq.
  - apply String.eqb_eq in Heq. tauto.
  - rewrite IH; [done|tauto].
Qed.

Lemma dict_set_keys k v d :
  map fst (dict_set k v d)
  = match dict_get k d with Some _ => map fst d | None => map fst d ++ [k] end.
Proof.
  induction d as [|[k' v'] d IH]; simpl; [done|].
  destruct (String.eqb k' k) eqn:Heq; simpl.
  - apply String.eqb_eq in Heq. by subst.
  - rewrite IH. by destruct (dict_get k d).
Qed.

Lemma dict_set_NoDup k v d : NoDup (map fst d) -> NoDup (map fst (dict_set k v d)).
Proof.
  intros Hd. rewrite dict_set_keys. destruct (dict_get k d) eqn:Hg; [done|].
  apply dict_get_None in Hg. apply NoDup_app. split; [done|]. split.
  - intros x Hx Hx'. apply list_elem_of_In in Hx. apply list_elem_of_singleton in Hx'.
    by subst.
  - apply NoDup_singleton.
Qed.

Lemma fold_dict_set_NoDup (pairs d : list (string * A)) :
  NoDup (map fst d) ->
  NoDup (map fst (fold_left (fun d kv => dict_set (fst kv) (snd kv) d) pairs d)).
Proof.
  revert d. induction pairs as [|[k v] pairs IH]; intros d Hd; simpl; [done|].
  apply IH. by apply dict_set_NoDup.
Qed.

(** The keys of a dict are distinct. *)
Lemma dict_of_pairs_NoDup (pairs : list (string * A)) : NoDup (map fst (dict_of_pairs pairs)).
Proof. apply fold_dict_set_NoDup. constructor. Qed.

Lemma fold_dict_set_distinct (pairs d : list (string * A)) :
  NoDup (map fst (d ++ pairs)) ->
  fold_left (fun d kv => dict_set (fst kv) (snd kv) d) pairs d = d ++ pairs.
Proof.
  revert d. induction pairs as [|[k v] pairs IH]; intros d Hd; simpl.
  - by rewrite app_nil_r.
  - rewrite dict_set_fresh.
    + rewrite IH; rewrite <- app_assoc; done.
    + rewrite map_app in Hd. simpl in Hd. apply NoDup_app in Hd as (_ & Hd & _).
      intros Hin. apply (Hd k); [by apply list_elem_of_In|]. by left.
Qed.

(** Pairs with distinct keys make the dict of those very items. *)
Lemma dict_of_pairs_distinct (pairs : list (string * A)) :
  NoDup (map fst pairs) -> dict_of_pairs pairs = pairs.
Proof. intros Hd. by apply (fold_dict_set_distinct pairs []). Qed.

Lemma zip_keys_NoDup {B} (keys : list string) (xs : list B) :
  NoDup keys -> NoDup (map fst (zip keys xs)).
Proof.
  revert xs. induction keys as [|k keys IH]; intros xs Hk; simpl; [constructor|].
  destruct xs as [|x xs]; simpl; [constructor|].
  apply NoDup_cons in Hk as [Hk Hks]. apply NoDup_cons. split; [|by apply IH].
  intros Hin. apply Hk. apply list_elem_of_In in Hin. apply list_elem_of_In.
  clear -Hin. revert xs Hin. induction keys as [|k' keys IH]; intros xs Hin; [done|].
  destruct xs as [|x' xs]; [done|]. simpl in *. destruct Hin as [->|Hin]; [by left|].
  right. by apply (IH xs).
Qed.

End DictFacts.

(** A decoded mapping is a dict: its keys are distinct. *)
Lemma loads_dict_keys s kvs : loads s = Some (PDict kvs) -> NoDup (map fst kvs).
Proof.
  unfold loads. intros H.
  destruct (scan_once _ _) as [[v rest]|] eqn:Hv; [|discriminate].
  destruct (skip_ws rest); [|discriminate]. simplify_eq.
  destruct (String.length s) as [|n]; [discriminate|]. simpl in Hv.
  destruct (skip_ws s) as [|c s1]; [discriminate|].
  destruct (Ascii.eqb c dquote).
  { destruct (scanstring _ _) as [[str r]|]; discriminate. }
  destruct (Ascii.eqb c "{").
  { unfold JSONObject in Hv. destruct (skip_ws s1) as [|c1 s2]; [discriminate|].
    destruct (Ascii.eqb c1 "}"); [simplify_eq; constructor|].
    destruct (Ascii.eqb c1 dquote); [|discriminate].
    destruct (object_pairs _ _ _) as [[pairs s3]|]; [|discriminate]. simplify_eq.
    apply dict_of_pairs_NoDup. }
  destruct (Ascii.eqb c "[").
  { unfold JSONArray in Hv. destruct (skip_ws s1) as [|c1 s2]; [discriminate|].
    destruct (Ascii.eqb c1 "]"); [discriminate|].
    destruct (array_items _ _ _) as [[vs s3]|]; discriminate. }
  apply JsonFacts.scan_atom_length in Hv as [[] _].
Qed.

Section DispatchMore.

Context {Experiment World : Type}.
Variable merge : list (string * Experiment) -> Experiment.

Implicit Types (h : gmap loc (list (@fetcher Experiment World))).
Implicit Types (uri v : pyval) (payload : string) (w : World).

(** X1: The dispatcher never reports that it does not apply: a loader's
    [ExperimentFetcherDoesntApply] is always caught, and what is raised when
    every loader declined is [NoFetcherFound]. *)
Theorem dispatcher_never_declines h fetchers uri w :
  declines (load_xp_with_fetchers merge h fetchers uri w).1.1 = false.
Proof. apply load_never_declines. Qed.

(** X2: The sub-uris of a composite uri are shorter than the uri, so the calls
    of a [MultipleFetcher] that is in its own list of loaders cannot nest
    without end: a bound on the nesting larger than the length of the uri is
    never reached, and the result does not depend on it. *)
Theorem nested_resolution_is_bounded h f uri w :
  (forall s defs items k v,
     uri = PStr s ->
     PyStr.startswith s MULTI_PREFIX = true ->
     loads (PyStr.slice_from (String.length MULTI_PREFIX) s) = Some defs ->
     payload_items defs = Some items ->
     In (k, v) items -> size v < size uri)
  /\ (forall n, size uri < n -> call_ merge h n f uri w = call merge h f uri w)
  /\ (call merge h f uri w).1.1 <> Unmodelled OutOfFuel.
Proof.
  split; [|split].
  - intros s defs items k v -> Hs Hl Hi Hin. simpl.
    by apply (payload_smaller s defs items k v).
  - intros n Hn. unfold call, fuel_for. apply call_fuel; lia.
  - apply call_enough_fuel.
Qed.

(** X3: In the mapping form nothing collapses: the keys of the decoded mapping
    are distinct, each value is resolved once, in order, and [merge] is
    called with exactly one entry for each key. *)
Theorem mapping_form_keeps_every_key h l fetchers payload kvs w :
  h !! l = Some fetchers ->
  loads payload = Some (PDict kvs) ->
  NoDup (map fst kvs)
  /\ MultipleFetcher_call merge h l (PStr (MULTI_PREFIX +:+ payload)) w
     = let '(r, w', evs) := resolve_each merge h fetchers (map snd kvs) w in
       (rethrow r (fun xps => Return (merge (zip (map fst kvs) xps))), w', evs).
Proof.
  intros Hl Hp. pose proof (loads_dict_keys _ _ Hp) as Hk. split; [done|].
  rewrite (MultipleFetcher_call_sub_uris merge h l fetchers payload _ kvs w Hl Hp
             (sub_uris_dict kvs)).
  unfold merged. destruct (resolve_each merge h fetchers (map snd kvs) w) as [[r w'] evs].
  destruct r as [xps|e|g]; simpl; [|done|done].
  rewrite dict_of_pairs_distinct; [done|]. by apply zip_keys_NoDup.
Qed.

End DispatchMore.

Lemma nested_resolution_is_bounded_witness :
  size (PStr "a") < size (PStr (quoted "multi://['a']"))
  /\ call_ Demo.merge Demo.h1 100 (MultipleFetcher 1) (PStr (quoted "multi://['a']")) 0
     = call Demo.merge Demo.h1 (MultipleFetcher 1) (PStr (quoted "multi://['a']")) 0.
Proof.
  destruct (nested_resolution_is_bounded Demo.merge Demo.h1 (MultipleFetcher 1)
              (PStr (quoted "multi://['a']")) 0) as (Hsmall & Hfuel & _).
  split.
  - apply (Hsmall (quoted "multi://['a']") (PList [PStr "a"]) [(PStr "a", PStr "a")]
             (PStr "a") (PStr "a")); try reflexivity. by left.
  - apply Hfuel. vm_compute. lia.
Defined.

Lemma mapping_form_keeps_every_key_witness :
  NoDup ["x"; "y"]
  /\ (MultipleFetcher_call Demo.merge Demo.h1 1 (PStr (quoted "multi://{'x':'a','y':'b'}")) 0).1
     = (Return (Demo.merge [("x", [Demo.point "1" None; Demo.point "2" (Some "1")]);
                            ("y", [Demo.point "1" None])]), 4).
Proof.
  destruct (mapping_form_keeps_every_key Demo.merge Demo.h1 1
              [Demo.loader_a; Demo.loader_bad; Demo.loader_b; MultipleFetcher 1]
              (quoted "{'x':'a','y':'b'}") [("x", PStr "a"); ("y", PStr "b")] 0
              h1_fetchers eq_refl) as [Hkeys Hcall].
  split; [exact Hkeys|].
  change (quoted "multi://{'x':'a','y':'b'}") with (MULTI_PREFIX +:+ quoted "{'x':'a','y':'b'}").
  etransitivity; [apply (f_equal fst); exact Hcall|]. vm_compute. reflexivity.
Defined.

(** ** Splitting and joining *)

Section SplitFacts.

Variable sep : ascii.

Lemma split_nonempty s : PyStr.split sep s <> [].
Proof.
  destruct s as [|c s]; simpl; [done|].
  destruct (Ascii.eqb c sep); [done|]. by destruct (PyStr.split sep s).
Qed.

(** [sep.join(s.split(sep)) == s] *)
Lemma join_split s : PyStr.join (String sep EmptyString) (PyStr.split sep s) = s.
Proof.
  unfold PyStr.join. induction s as [|c s IH]; simpl; [done|].
  destruct (Ascii.eqb c sep) eqn:Hc.
  - apply Ascii.eqb_eq in Hc as ->.
    pose proof (split_nonempty s). destruct (PyStr.split sep s) as [|p ps]; [done|].
    simpl in *. by rewrite IH.
  - pose proof (split_nonempty s). destruct (PyStr.split sep s) as [|p ps]; [done|].
    simpl in *. destruct ps; simpl in *; by rewrite <- IH.
Qed.

Lemma split_no_sep s : PyText.has_char sep s = false <-> PyStr.split sep s = [s].
Proof.
  induction s as [|c s IH]; simpl; [done|].
  destruct (Ascii.eqb c sep) eqn:Hc; simpl.
  - split; [done|]. intros H. injection H as H _. discriminate.
  - pose proof (split_nonempty s). destruct (PyStr.split sep s) as [|p ps]; [done|].
    rewrite IH. split; intros H'; by simplify_eq.
Qed.

(** A text is split at its last separator into what is before it, split,
    and what is after it. *)
Lemma split_app_last m a :
  PyText.has_char sep a = false ->
  PyStr.split sep (m +:+ String sep a) = PyStr.split sep m ++ [a].
Proof.
  intros Ha. induction m as [|c m IH]; simpl.
  - rewrite Ascii.eqb_refl. by rewrite (proj1 (split_no_sep a) Ha).
  - destruct (Ascii.eqb c sep); [by rewrite IH|].
    rewrite IH. pose proof (split_nonempty m). by destruct (PyStr.split sep m).
Qed.

End SplitFacts.

(** ** [get_fetchers]: where a specification is cut *)

Section RegistryMore.

Context {Experiment World Module : Type}.
Variable import_module : string -> World -> (Module + exn) * World.
Variable getcwd : World -> string.
Variable path_join : string -> string -> string.
Variable exec_source_file : string -> string -> World -> (Module + exn) * World.
Variable getattr : Module -> string -> option (@fetcher Experiment World).

Abbreviation resolve_spec' :=
  (resolve_spec import_module getcwd path_join exec_source_file getattr).

(** X4: A specification is cut at its last dot: what is before it, dots
    included, is the name of the module that is imported, and what is after
    it is the attribute.  The script of the working directory is tried only
    when the import raised [ModuleNotFoundError] and the module name has no
    dot.  A specification with no dot at all asks for the module of the empty
    name, and never for a script. *)
Theorem spec_is_cut_at_its_last_dot w :
  (forall module_name attr,
     PyText.has_char "." attr = false ->
     resolve_spec' (module_name +:+ "." +:+ attr) w
     = attribute_of getattr
         match import_module module_name w with
         | (inr ModuleNotFoundError, w0) =>
             if PyText.has_char "." module_name then (inr ModuleNotFoundError, w0)
             else _get_module_by_name_in_cwd getcwd path_join exec_source_file module_name w0
         | imported => imported
         end attr)
  /\ (forall spec,
      PyText.has_char "." spec = false ->
      resolve_spec' spec w = attribute_of getattr (import_module EmptyString w) spec).
Proof.
  split.
  - intros module_name attr Ha. unfold resolve_spec.
    change ("." +:+ attr) with (String "." attr).
    rewrite (split_app_last "." module_name attr Ha).
    unfold PyStr.but_last, PyStr.last_part.
    rewrite removelast_last, last_last, join_split, length_app. simpl.
    destruct (import_module module_name w) as [[module|e] w0]; [done|].
    destruct e; try done.
    destruct (PyText.has_char "." module_name) eqn:Hm.
    + assert (length (PyStr.split "." module_name) <> 1) as Hlen.
      { intros Hlen. destruct (PyStr.split "." module_name) as [|p [|q ps]] eqn:Hs;
          simpl in Hlen; try lia.
        assert (PyStr.join "." (PyStr.split "." module_name) = p) as Hj by (by rewrite Hs).
        rewrite join_split in Hj. subst p.
        apply split_no_sep in Hs. congruence. }
      destruct (length (PyStr.split "." module_name) + 1 =? 2) eqn:Heq; [|done].
      apply Nat.eqb_eq in Heq. lia.
    + apply split_no_sep in Hm. rewrite Hm. done.
  - intros spec Hs. unfold resolve_spec.
    rewrite (proj1 (split_no_sep "." spec) Hs). simpl.
    destruct (import_module EmptyString w) as [[module|e] w0]; [done|].
    by destruct e.
Qed.

End RegistryMore.

Lemma spec_is_cut_at_its_last_dot_witness :
  Demo.resolve_spec "script.run" 0 = (inl Demo.loader_b, 2)
  /\ Demo.resolve_spec "some.package.loader" 0 = (inr ModuleNotFoundError, 1)
  /\ Demo.resolve_spec "loader" 0 = (inr ModuleNotFoundError, 1).
Proof.
  destruct (spec_is_cut_at_its_last_dot Demo.import_module Demo.getcwd Demo.path_join
              Demo.exec_source_file Demo.getattr 0) as [Hdot Hnone].
  split; [|split].
  - etransitivity; [exact (Hdot "script" "run" eq_refl)|]. vm_compute. reflexivity.
  - etransitivity; [exact (Hdot "some.package" "loader" eq_refl)|]. vm_compute. reflexivity.
  - etransitivity; [exact (Hnone "loader" eq_refl)|]. vm_compute. reflexivity.
Defined.

(** ** More on dicts: what is found under a key *)

Section DictLookup.

Context {A : Type}.
Implicit Types (d : list (string * A)) (k : string) (v : A).

Lemma dict_get_app k d1 d2 :
  dict_get k (d1 ++ d2) = match dict_get k d1 with Some v => Some v | None => dict_get k d2 end.
Proof.
  induction d1 as [|[k' v'] d1 IH]; simpl; [done|]. by destruct (String.eqb k' k).
Qed.

Lemma dict_get_In k v d : dict_get k d = Some v -> In (k, v) d.
Proof.
  induction d as [|[k' v'] d IH]; simpl; [done|].
  destruct (String.eqb k' k) eqn:Hk.
  - apply String.eqb_eq in Hk. intros ?; simplify_eq. by left.
  - intros H. right. by apply IH.
Qed.

Lemma In_dict_get k v d : NoDup (map fst d) -> In (k, v) d -> dict_get k d = Some v.
Proof.
  induction d as [|[k' v'] d IH]; simpl; [done|]. intros Hd Hin.
  apply NoDup_cons in Hd as [Hk Hd].
  destruct Hin as [Heq|Hin].
  - simplify_eq. by rewrite String.eqb_refl.
  - destruct (String.eqb k' k) eqn:Heq; [|by apply IH].
    apply String.eqb_eq in Heq as ->. destruct Hk.
    apply list_elem_of_In. apply (in_map fst) in Hin. done.
Qed.

Lemma dict_get_rev k d : NoDup (map fst d) -> dict_get k (rev d) = dict_get k d.
Proof.
  intros Hd.
  assert (NoDup (map fst (rev d))) as Hr.
  { rewrite map_rev. apply NoDup_ListNoDup, List.NoDup_rev. by apply NoDup_ListNoDup. }
  destruct (dict_get k d) as [v|] eqn:Hg.
  - apply In_dict_get; [done|]. apply in_rev. rewrite rev_involutive. by apply dict_get_In.
  - destruct (dict_get k (rev d)) as [v|] eqn:Hg'; [|done].
    apply dict_get_In, in_rev in Hg'. apply (In_dict_get _ _ _ Hd) in Hg'. congruence.
Qed.

(** After a run of stores, a key holds what was stored last under it. *)
Lemma dict_get_fold k (pairs d : list (string * A)) :
  dict_get k (fold_left (fun d kv => dict_set (fst kv) (snd kv) d) pairs d)
  = match dict_get k (rev pairs) with Some v => Some v | None => dict_get k d end.
Proof.
  revert d. induction pairs as [|[k' v'] pairs IH]; intros d; simpl; [done|].
  rewrite IH, dict_get_app. destruct (dict_get k (rev pairs)); [done|]. simpl.
  destruct (String.eqb k' k) eqn:Hk.
  - apply String.eqb_eq in Hk as ->. apply dict_get_set_eq.
  - apply String.eqb_neq in Hk. by apply dict_get_set_ne.
Qed.

Lemma dict_get_of_pairs k (pairs : list (string * A)) :
  dict_get k (dict_of_pairs pairs) = dict_get k (rev pairs).
Proof. unfold dict_of_pairs. rewrite dict_get_fold. by destruct (dict_get k (rev pairs)). Qed.

Lemma dict_get_map {B} (f : A -> B) k d :
  dict_get k (map (fun kv => (fst kv, f (snd kv))) d) = option_map f (dict_get k d).
Proof.
  induction d as [|[k' v'] d IH]; simpl; [done|]. by destruct (String.eqb k' k).
Qed.

End DictLookup.

(** ** [load_json]: what it makes of a file *)

Section LoadJsonFacts.

Context {Experiment World : Type}.
Variable read_file : string -> World -> (string + exn) * World.
Variable str_ : pyval -> string.
Variable from_iterable : pyval -> World -> (Experiment + exn) * World.

Abbreviation load_json_ := (load_json read_file str_ from_iterable).

Implicit Types (uri text : string) (w : World) (dat : pyval).

(** Once the file is read and decoded, the rest is [json_records] and
    [from_iterable]. *)
Lemma load_json_decoded uri w text w1 dat :
  PyStr.endswith uri ".json" = true ->
  read_file uri w = (inl text, w1) ->
  loads text = Some dat ->
  load_json_ (PStr uri) w
  = match json_records str_ dat with
    | inl records => from_iterable records w1
    | inr e => (inr e, w1)
    end.
Proof. intros Hs Hr Hl. unfold load_json. by rewrite Hs, Hr, Hl. Qed.

Lemma is_nevergrad_first (first : list (string * pyval)) rest :
  is_nevergrad (PList (PDict first :: rest))
  = inl (match dict_get "job_id" first with Some _ => true | None => false end
         && match dict_get "kwargs" first with Some _ => true | None => false end
         && match dict_get "results" first with Some _ => true | None => false end).
Proof.
  unfold is_nevergrad. simpl.
  destruct (dict_get "job_id" first); [|done].
  by destruct (dict_get "kwargs" first).
Qed.

(** X7: The file has to hold a list that starts with a container.  A text that
    is not JSON is [JSONDecodeError]; an empty list is [IndexError], not an
    empty Experiment; a mapping at the top is [KeyError]; [null], a boolean or
    a number, at the top or as the first item, is [TypeError].  In all these
    cases [from_iterable] is not called. *)
Theorem load_json_needs_a_list_of_records uri w text w1 :
  PyStr.endswith uri ".json" = true ->
  read_file uri w = (inl text, w1) ->
  (loads text = None -> load_json_ (PStr uri) w = (inr JSONDecodeError, w1))
  /\ (loads text = Some (PList []) -> load_json_ (PStr uri) w = (inr IndexError, w1))
  /\ (forall d, loads text = Some (PDict d) -> load_json_ (PStr uri) w = (inr KeyError, w1))
  /\ (forall dat, loads text = Some dat -> atom dat ->
      load_json_ (PStr uri) w = (inr (TypeError "not subscriptable"), w1))
  /\ (forall first rest, loads text = Some (PList (first :: rest)) -> atom first ->
      load_json_ (PStr uri) w = (inr (TypeError "not iterable"), w1)).
Proof.
  intros Hs Hr. split; [|split; [|split; [|split]]].
  - intros Hl. unfold load_json. by rewrite Hs, Hr, Hl.
  - intros Hl. by rewrite (load_json_decoded uri w text w1 _ Hs Hr Hl).
  - intros d Hl. by rewrite (load_json_decoded uri w text w1 _ Hs Hr Hl).
  - intros dat Hl Ha. rewrite (load_json_decoded uri w text w1 _ Hs Hr Hl).
    by destruct dat.
  - intros first rest Hl Ha. rewrite (load_json_decoded uri w text w1 _ Hs Hr Hl).
    by destruct first.
Qed.

(** X8: Whether a file is a Nevergrad file is decided by its first record
    alone.  When that record lacks one of [job_id], [kwargs] and [results],
    the decoded list goes to [from_iterable] as it is, whatever the later
    records look like; when it has all three, every record of the list is
    taken for a job, and a later record without [job_id] is [KeyError], with
    no Experiment made of the records before it. *)
Theorem nevergrad_is_decided_by_the_first_record uri w text w1 first rest :
  PyStr.endswith uri ".json" = true ->
  read_file uri w = (inl text, w1) ->
  loads text = Some (PList (PDict first :: rest)) ->
  (dict_get "job_id" first = None \/ dict_get "kwargs" first = None
   \/ dict_get "results" first = None ->
   load_json_ (PStr uri) w = from_iterable (PList (PDict first :: rest)) w1)
  /\ (forall pre rows j post,
      dict_get "job_id" first <> None -> dict_get "kwargs" first <> None ->
      dict_get "results" first <> None ->
      PDict first :: rest = pre ++ PDict j :: post ->
      nevergrad_rows str_ pre = inl rows ->
      dict_get "job_id" j = None ->
      load_json_ (PStr uri) w = (inr KeyError, w1)).
Proof.
  intros Hs Hr Hl. rewrite (load_json_decoded uri w text w1 _ Hs Hr Hl).
  unfold json_records. rewrite is_nevergrad_first. split.
  - intros Hk. simpl.
    destruct (dict_get "job_id" first); [|done].
    destruct (dict_get "kwargs" first); [|done].
    destruct (dict_get "results" first); [|done].
    destruct Hk as [?|[?|?]]; done.
  - intros pre rows j post H1 H2 H3 Heq Hpre Hj.
    destruct (dict_get "job_id" first); [|done].
    destruct (dict_get "kwargs" first); [|done].
    destruct (dict_get "results" first); [|done].
    cbn [and_then andb iter_of]. rewrite Heq.
    assert (nevergrad_rows str_ (pre ++ PDict j :: post) = inr KeyError) as ->; [|done].
    clear -Hpre Hj. revert rows Hpre.
    induction pre as [|p pre IH]; intros rows Hpre; simpl in *.
    + unfold nevergrad_row. simpl. by rewrite Hj.
    + destruct (nevergrad_row str_ p) as [row|e]; [|done]. simpl in *.
      destruct (nevergrad_rows str_ pre) as [rows'|e] eqn:Hrows; [|done]. simpl in *.
      by rewrite (IH rows').
Qed.

(** The dict made for a job. *)
Lemma nevergrad_row_job j job_id params scores :
  is_job j job_id params scores ->
  nevergrad_row str_ j
  = inl (PDict (dict_of_pairs
                  (("id", job_id)
                   :: map (fun kv => (fst kv, PStr (str_ (snd kv)))) params ++ scores))).
Proof.
  intros (d & results & -> & Hj & Hk & Hr & Hsc & _). unfold nevergrad_row. simpl.
  rewrite Hj. simpl. rewrite Hk. simpl. rewrite Hr. simpl. by rewrite Hsc.
Qed.

(** What is found in the dict made for a job: a score under its name; a
    parameter as a string under its name, unless a score has that name; the
    number of the job under [id], unless a parameter or a score is called
    [id]; and nothing else. *)
Lemma nevergrad_row_lookup j job_id params scores :
  is_job j job_id params scores ->
  exists row,
    nevergrad_row str_ j = inl (PDict row)
    /\ NoDup (map fst row)
    /\ (forall k v, dict_get k scores = Some v -> dict_get k row = Some v)
    /\ (forall k v, dict_get k scores = None -> dict_get k params = Some v ->
        dict_get k row = Some (PStr (str_ v)))
    /\ (dict_get "id" scores = None -> dict_get "id" params = None ->
        dict_get "id" row = Some job_id)
    /\ (forall k, dict_get k scores = None -> dict_get k params = None -> k <> "id" ->
        dict_get k row = None).
Proof.
  intros Hjob. pose proof Hjob as (d & results & _ & _ & _ & _ & _ & Hp & Hsc).
  eexists. split; [by apply nevergrad_row_job|]. split; [apply dict_of_pairs_NoDup|].
  assert (forall k,
    dict_get k (dict_of_pairs
                  (("id", job_id)
                   :: map (fun kv => (fst kv, PStr (str_ (snd kv)))) params ++ scores))
    = match dict_get k scores with
      | Some v => Some v
      | None =>
          match dict_get k params with
          | Some v => Some (PStr (str_ v))
          | None => if String.eqb "id" k then Some job_id else None
          end
      end) as Hrow.
  { intros k. rewrite dict_get_of_pairs.
    change (("id", job_id) :: ?l) with ([("id", job_id)] ++ l).
    rewrite !rev_app_distr, !dict_get_app. rewrite (dict_get_rev k scores Hsc).
    destruct (dict_get k scores); [done|].
    rewrite <- map_rev, (dict_get_map (fun v => PStr (str_ v))).
    rewrite (dict_get_rev k params Hp).
    by destruct (dict_get k params). }
  split; [|split; [|split]].
  - intros k v Hk. by rewrite Hrow, Hk.
  - intros k v Hk Hk'. by rewrite Hrow, Hk, Hk'.
  - intros Hk Hk'. by rewrite Hrow, Hk, Hk'.
  - intros k Hk Hk' Hid. rewrite Hrow, Hk, Hk'.
    destruct (String.eqb "id" k) eqn:Heq; [|done]. apply String.eqb_eq in Heq. done.
Qed.

(** X9: A Nevergrad file: every record is a job.  [from_iterable] is called
    with one dict for each job, in order, and what each dict holds under a
    key is the score of that name, else the parameter of that name as a
    string, else, under [id], the number of the job. *)
Theorem nevergrad_file_gives_one_record_for_each_job uri w text w1 jobs :
  PyStr.endswith uri ".json" = true ->
  read_file uri w = (inl text, w1) ->
  loads text = Some (PList jobs) ->
  jobs <> [] ->
  (forall j, In j jobs -> exists job_id params scores, is_job j job_id params scores) ->
  exists rows,
    load_json_ (PStr uri) w = from_iterable (PList rows) w1
    /\ length rows = length jobs
    /\ forall i j job_id params scores,
         jobs !! i = Some j -> is_job j job_id params scores ->
         exists row,
           rows !! i = Some (PDict row)
           /\ NoDup (map fst row)
           /\ (forall k v, dict_get k scores = Some v -> dict_get k row = Some v)
           /\ (forall k v, dict_get k scores = None -> dict_get k params = Some v ->
               dict_get k row = Some (PStr (str_ v)))
           /\ (dict_get "id" scores = None -> dict_get "id" params = None ->
               dict_get "id" row = Some job_id)
           /\ (forall k, dict_get k scores = None -> dict_get k params = None -> k <> "id" ->
               dict_get k row = None).
Proof.
  intros Hs Hr Hl Hne Hjobs. rewrite (load_json_decoded uri w text w1 _ Hs Hr Hl).
  assert (exists rows,
    nevergrad_rows str_ jobs = inl rows
    /\ length rows = length jobs
    /\ forall i j, jobs !! i = Some j ->
         exists row, rows !! i = Some row /\ nevergrad_row str_ j = inl row)
    as (rows & Hrows & Hlen & Hrow).
  { clear -Hjobs. induction jobs as [|j jobs IH]; simpl.
    - exists []. split; [done|]. split; [done|]. intros i j Hi. done.
    - destruct (Hjobs j (or_introl eq_refl)) as (job_id & params & scores & Hj).
      destruct (nevergrad_row_lookup j job_id params scores Hj) as (row & Hrow & _).
      destruct IH as (rows & Hrows & Hlen & Hrest); [intros j' Hin; apply Hjobs; by right|].
      exists (PDict row :: rows). rewrite Hrow, Hrows. simpl.
      split; [done|]. split; [by rewrite Hlen|].
      intros [|i] j' Hi; simpl in *; [simplify_eq; eauto|]. by apply Hrest. }
  exists rows.
  destruct jobs as [|j0 jobs']; [done|].
  destruct (Hjobs j0 (or_introl eq_refl)) as (id0 & params0 & scores0 & Hj0).
  destruct Hj0 as (d0 & results0 & -> & Hid & Hkw & Hres & _).
  unfold json_records, is_nevergrad. simpl. rewrite Hid, Hkw, Hres. simpl.
  simpl in Hrows. rewrite Hrows. split; [done|]. split; [done|].
  intros i j job_id params scores Hi Hj.
  destruct (Hrow i j Hi) as (row' & Hi' & Hrow').
  destruct (nevergrad_row_lookup j job_id params scores Hj) as (row & Heq & Hprops).
  rewrite Heq in Hrow'. simplify_eq. by exists row.
Qed.

End LoadJsonFacts.

Lemma load_json_needs_a_list_of_records_witness :
  Sample.load_json (PStr "empty.json") 0 = (inr IndexError, 1).
Proof.
  apply (proj1 (proj2 (load_json_needs_a_list_of_records Sample.read_file Sample.str_
                         Sample.from_iterable "empty.json" 0 "[]" 1 eq_refl eq_refl))).
  reflexivity.
Defined.

Lemma nevergrad_is_decided_by_the_first_record_witness :
  Sample.load_json (PStr "rows.json") 0
  = Sample.from_iterable
      (PList [PDict [("a", PInt "1")];
              PDict [("job_id", PInt "2"); ("kwargs", PDict []); ("results", PDict [])]]) 1
  /\ Sample.load_json (PStr "mixed.json") 0 = (inr KeyError, 1).
Proof.
  split.
  - apply (proj1 (nevergrad_is_decided_by_the_first_record Sample.read_file Sample.str_
                    Sample.from_iterable "rows.json" 0 Sample.rows_json 1
                    [("a", PInt "1")]
                    [PDict [("job_id", PInt "2"); ("kwargs", PDict []); ("results", PDict [])]]
                    eq_refl eq_refl eq_refl)).
    left. reflexivity.
  - apply (proj2 (nevergrad_is_decided_by_the_first_record Sample.read_file Sample.str_
                    Sample.from_iterable "mixed.json" 0 Sample.mixed_json 1
                    [("job_id", PInt "1"); ("kwargs", PDict []);
                     ("results", PDict [("scores", PDict [])])]
                    [PDict [("a", PInt "1")]]
                    eq_refl eq_refl eq_refl)
             [PDict [("job_id", PInt "1"); ("kwargs", PDict []);
                     ("results", PDict [("scores", PDict [])])]]
             [PDict [("id", PInt "1")]] [("a", PInt "1")] []);
      try discriminate; reflexivity.
Defined.

Lemma nevergrad_file_gives_one_record_for_each_job_witness :
  exists rows row,
    Sample.load_json (PStr "jobs.json") 0 = Sample.from_iterable (PList rows) 1
    /\ rows !! 0 = Some (PDict row)
    /\ dict_get "loss" row = Some (PInt "2")
    /\ dict_get "lr" row = Some (PInt "1")
    /\ dict_get "id" row = Some (PStr "x").
Proof.
  pose (job := PDict [("job_id", PInt "7");
                      ("kwargs", PDict [("lr", PFloat "0.5"); ("id", PStr "x")]);
                      ("results",
                       PDict [("scores", PDict [("loss", PInt "2"); ("lr", PInt "1")])])]).
  assert (is_job job (PInt "7") [("lr", PFloat "0.5"); ("id", PStr "x")]
            [("loss", PInt "2"); ("lr", PInt "1")]) as Hjob.
  { eexists _, _. repeat split; try reflexivity;
      apply (bool_decide_eq_true_1 _); vm_compute; reflexivity. }
  destruct (nevergrad_file_gives_one_record_for_each_job Sample.read_file Sample.str_
              Sample.from_iterable "jobs.json" 0 Sample.jobs_json 1 [job]
              eq_refl eq_refl eq_refl) as (rows & Hload & _ & Hrows).
  - discriminate.
  - intros j [<-|[]]. eexists _, _, _. exact Hjob.
  - destruct (Hrows 0 job _ _ _ eq_refl Hjob) as (row & Hrow & _ & Hscore & Hparam & _).
    exists rows, row. split; [exact Hload|]. split; [exact Hrow|].
    split; [by apply Hscore|]. split; [by apply Hscore|].
    by apply (Hparam "id" (PStr "x")).
Defined.

(** ** The built-in loaders come first *)

Lemma slice_from_S n : forall s,
  PyStr.slice_from (S n) s = PyStr.slice_from 1 (PyStr.slice_from n s).
Proof.
  induction n as [|n IH]; intros s; [by destruct s|].
  destruct s as [|c s]; [done|]. change (PyStr.slice_from (S (S n)) (String c s))
    with (PyStr.slice_from (S n) s). rewrite IH. done.
Qed.

(** A name that ends in [.json] does not end in [.csv]. *)
Lemma endswith_json_not_csv s :
  PyStr.endswith s ".json" = true -> PyStr.endswith s ".csv" = false.
Proof.
  unfold PyStr.endswith. intros H. apply andb_true_iff in H as [Hlen Heq].
  apply Nat.leb_le in Hlen. apply String.eqb_eq in Heq. simpl in Hlen, Heq.
  change (String.length ".csv") with 4.
  replace (String.length s - 4) with (S (String.length s - 5)) by lia.
  rewrite slice_from_S, Heq. simpl. apply andb_false_r.
Qed.

Section Routing.

Context {Experiment World Module File : Type}.
Variable merge : list (string * Experiment) -> Experiment.
Variable import_module : string -> World -> (Module + exn) * World.
Variable getcwd : World -> string.
Variable path_join : string -> string -> string.
Variable exec_source_file : string -> string -> World -> (Module + exn) * World.
Variable getattr : Module -> string -> option (@fetcher Experiment World).
Variable open_ : string -> World -> (File + exn) * World.
Variable from_iterable_DictReader : File -> World -> (Experiment + exn) * World.
Variable README_DEMOS : gmap string (World -> (Experiment + exn) * World).
Variable read_file : string -> World -> (string + exn) * World.
Variable str_ : pyval -> string.
Variable from_iterable : pyval -> World -> (Experiment + exn) * World.
Variables load_fairseq load_wav2letter : pyval -> World -> (Experiment + exn) * World.

Abbreviation demo_loader := (Function "load_demo" (load_demo README_DEMOS)).
Abbreviation csv_loader := (Function "load_csv" (load_csv open_ from_iterable_DictReader)).
Abbreviation json_loader := (Function "load_json" (load_json read_file str_ from_iterable)).
Abbreviation the_builtins :=
  (builtin_fetchers open_ from_iterable_DictReader (load_demo README_DEMOS)
     (load_json read_file str_ from_iterable) load_fairseq load_wav2letter).
Abbreviation the_get_fetchers :=
  (get_fetchers import_module getcwd path_join exec_source_file getattr
     open_ from_iterable_DictReader (load_demo README_DEMOS)
     (load_json read_file str_ from_iterable) load_fairseq load_wav2letter).

Implicit Types (h hf : gmap loc (list (@fetcher Experiment World))) (w : World).

Lemma call_body h name body (uri : pyval) w :
  call merge h (Function name body) uri w = (outcome (body uri w).1, (body uri w).2, []).
Proof. unfold call. rewrite call_Function. by destruct (body uri w) as [[xp|e] w']. Qed.

(** The list [get_fetchers] returns starts with the built-in loaders. *)
Lemma get_fetchers_starts_with_builtins add_fetchers h w0 xp_fetchers hf w1 :
  the_get_fetchers add_fetchers h w0 = (Return xp_fetchers, hf, w1) ->
  exists others, hf !! xp_fetchers = Some (the_builtins ++ others).
Proof.
  intros Hg.
  pose proof (get_fetchers_spec import_module getcwd path_join exec_source_file getattr
                open_ from_iterable_DictReader (load_demo README_DEMOS)
                (load_json read_file str_ from_iterable) load_fairseq load_wav2letter
                add_fetchers h w0) as Hspec.
  destruct (resolve_specs _ _ _ _ _ add_fetchers w0) as [[fs|e] w'].
  - destruct Hspec as (hf' & self_fetchers & Hg' & _ & Hl & _).
    rewrite Hg in Hg'. simplify_eq. eauto.
  - destruct Hspec as (hf' & Hg'). rewrite Hg in Hg'. done.
Qed.

(** X5: The name of a demo is answered by the demo, whatever loaders were added
    and whatever files there are: [load_demo] is the first loader of the list
    that [get_fetchers] returns, and no other loader is called. *)
Theorem demo_names_come_first add_fetchers h w0 xp_fetchers hf w1 :
  the_get_fetchers add_fetchers h w0 = (Return xp_fetchers, hf, w1) ->
  exists others,
    hf !! xp_fetchers = Some (the_builtins ++ others)
    /\ forall name demo w r w',
         README_DEMOS !! name = Some demo ->
         demo w = (r, w') ->
         declines (outcome r) = false ->
         load_xp_with_fetchers merge hf (the_builtins ++ others) (PStr name) w
         = (outcome r, w', [Call demo_loader (PStr name) []]).
Proof.
  intros Hg. destruct (get_fetchers_starts_with_builtins _ _ _ _ _ _ Hg) as [others Hl].
  exists others. split; [done|]. intros name demo w r w' Hn Hd Hr.
  apply (load_first_answer merge hf (the_builtins ++ others) 0 demo_loader (PStr name) w w);
    [done|done| |done].
  rewrite call_body. simpl. by rewrite Hn, Hd.
Qed.

(** X6: A uri that ends in [.json] and is not the name of a demo is the
    business of [load_json] alone: [load_demo] and [load_csv] decline it
    without touching anything, and whatever [load_json] does is the result, an
    Experiment or a failure.  In particular a file that cannot be read is a
    failure of the whole resolution, where [load_csv] would have declined:
    the loaders after [load_json], the added ones and the [MultipleFetcher]
    among them, are not called. *)
Theorem json_files_go_to_load_json add_fetchers h w0 xp_fetchers hf w1 :
  the_get_fetchers add_fetchers h w0 = (Return xp_fetchers, hf, w1) ->
  exists others,
    hf !! xp_fetchers = Some (the_builtins ++ others)
    /\ (forall uri w r w',
          README_DEMOS !! uri = None ->
          PyStr.endswith uri ".json" = true ->
          load_json read_file str_ from_iterable (PStr uri) w = (r, w') ->
          declines (outcome r) = false ->
          load_xp_with_fetchers merge hf (the_builtins ++ others) (PStr uri) w
          = (outcome r, w',
             [Call demo_loader (PStr uri) []; Call csv_loader (PStr uri) [];
              Call json_loader (PStr uri) []]))
    /\ (forall uri w e w',
          README_DEMOS !! uri = None ->
          PyStr.endswith uri ".json" = true ->
          read_file uri w = (inr e, w') ->
          declines (Raise e : result Experiment) = false ->
          load_xp_with_fetchers merge hf (the_builtins ++ others) (PStr uri) w
          = (Raise e, w',
             [Call demo_loader (PStr uri) []; Call csv_loader (PStr uri) [];
              Call json_loader (PStr uri) []])).
Proof.
  intros Hg. destruct (get_fetchers_starts_with_builtins _ _ _ _ _ _ Hg) as [others Hl].
  exists others. split; [done|].
  assert (forall uri w r w',
          README_DEMOS !! uri = None ->
          PyStr.endswith uri ".json" = true ->
          load_json read_file str_ from_iterable (PStr uri) w = (r, w') ->
          declines (outcome r) = false ->
          load_xp_with_fetchers merge hf (the_builtins ++ others) (PStr uri) w
          = (outcome r, w',
             [Call demo_loader (PStr uri) []; Call csv_loader (PStr uri) [];
              Call json_loader (PStr uri) []])) as Hroute.
  { intros uri w r w' Hn Hs Hj Hr.
    apply (load_first_answer merge hf (the_builtins ++ others) 2 json_loader (PStr uri) w w);
      [done| | |done].
    - simpl. rewrite !call_body. simpl. rewrite Hn. simpl.
      by rewrite (endswith_json_not_csv uri Hs).
    - rewrite call_body. by rewrite Hj. }
  split; [exact Hroute|].
  intros uri w e w' Hn Hs Hread He.
  apply (Hroute uri w (inr e) w' Hn Hs); [|done].
  unfold load_json. by rewrite Hs, Hread.
Qed.

End Routing.

(** The list [get_fetchers] returns in the instance. *)
Lemma sample_get_fetchers :
  exists hf, Sample.get_fetchers ["mymodule.myloader"] = (Return 0, hf, 1).
Proof.
  pose proof (get_fetchers_spec Demo.import_module Demo.getcwd Demo.path_join
                Demo.exec_source_file Demo.getattr Demo.open_ Demo.from_iterable_DictReader
                (load_demo Sample.README_DEMOS) Sample.load_json Demo.declining Demo.declining
                ["mymodule.myloader"] ∅ 0) as Hspec.
  assert (resolve_specs Demo.import_module Demo.getcwd Demo.path_join Demo.exec_source_file
            Demo.getattr ["mymodule.myloader"] 0 = (inl [Demo.loader_a], 1)) as Hr
    by (vm_compute; reflexivity).
  rewrite Hr in Hspec. destruct Hspec as (hf & self_fetchers & Hg & _).
  exists hf. exact Hg.
Qed.

Lemma demo_names_come_first_witness :
  exists hf others,
    Sample.get_fetchers ["mymodule.myloader"] = (Return 0, hf, 1)
    /\ hf !! 0 = Some (Sample.builtins ++ others)
    /\ load_xp_with_fetchers Demo.merge hf (Sample.builtins ++ others) (PStr "demo") 7
       = (Return [Demo.point "1" None], 7,
          [Call (Function "load_demo" (load_demo Sample.README_DEMOS)) (PStr "demo") []]).
Proof.
  destruct sample_get_fetchers as [hf Hg].
  destruct (demo_names_come_first Demo.merge Demo.import_module Demo.getcwd Demo.path_join
              Demo.exec_source_file Demo.getattr Demo.open_ Demo.from_iterable_DictReader
              Sample.README_DEMOS Sample.read_file Sample.str_ Sample.from_iterable
              Demo.declining Demo.declining ["mymodule.myloader"] ∅ 0 0 hf 1 Hg)
    as (others & Hl & Hroute).
  exists hf, others. split; [exact Hg|]. split; [exact Hl|].
  apply (Hroute "demo" (fun w => (inl [Demo.point "1" None], w)) 7
           (inl [Demo.point "1" None]) 7); reflexivity.
Defined.

Lemma json_files_go_to_load_json_witness :
  exists hf others,
    Sample.get_fetchers ["mymodule.myloader"] = (Return 0, hf, 1)
    /\ hf !! 0 = Some (Sample.builtins ++ others)
    /\ (load_xp_with_fetchers Demo.merge hf (Sample.builtins ++ others)
          (PStr "missing.json") 7).1
       = (Raise FileNotFoundError, 8)
    /\ (load_xp_with_fetchers Demo.merge hf (Sample.builtins ++ others)
          (PStr "empty.json") 7).1
       = (Raise IndexError, 8).
Proof.
  destruct sample_get_fetchers as [hf Hg].
  destruct (json_files_go_to_load_json Demo.merge Demo.import_module Demo.getcwd Demo.path_join
              Demo.exec_source_file Demo.getattr Demo.open_ Demo.from_iterable_DictReader
              Sample.README_DEMOS Sample.read_file Sample.str_ Sample.from_iterable
              Demo.declining Demo.declining ["mymodule.myloader"] ∅ 0 0 hf 1 Hg)
    as (others & Hl & Hroute & Hmissing).
  exists hf, others. split; [exact Hg|]. split; [exact Hl|]. split.
  - exact (f_equal fst (Hmissing "missing.json" 7 FileNotFoundError 8
                          eq_refl eq_refl eq_refl eq_refl)).
  - exact (f_equal fst (Hroute "empty.json" 7 (inr IndexError) 8
                          eq_refl eq_refl eq_refl eq_refl)).
Defined.

(** ** [Wav2letterLoader]: the metrics of a file *)

Section ParseMetricsFacts.

Context {Float World : Type}.
Variable float_ : string -> option Float.
Variable read_text : string -> World -> (string + exn) * World.

Abbreviation row := (list (string * (Float + string))).

Implicit Types (header l text : string) (lines names : list string) (w : World).

Lemma epoch_metrics_fold (pairs : list (string * string)) (d : row) :
  epoch_metrics_ float_ pairs d
  = fold_left (fun d kv => dict_set (fst kv) (snd kv) d)
      (map (fun nv => (PERF_PREFIX +:+ fst nv, metric float_ (snd nv))) pairs) d.
Proof.
  revert d. induction pairs as [|[name val] pairs IH]; intros d; simpl; [done|]. by rewrite IH.
Qed.

Lemma map_zip_row names (vals : list string) :
  map (fun nv => (PERF_PREFIX +:+ fst nv, metric float_ (snd nv))) (zip names vals)
  = zip (map (String.append PERF_PREFIX) names) (map (metric float_) vals).
Proof.
  revert vals. induction names as [|n names IH]; intros [|v vals]; simpl; try done.
  by rewrite IH.
Qed.

Lemma perf_prefix_inj a b : PERF_PREFIX +:+ a = PERF_PREFIX +:+ b -> a = b.
Proof. unfold PERF_PREFIX. cbn. intros H. by injection H. Qed.

Lemma perf_names_NoDup names : NoDup names -> NoDup (map (String.append PERF_PREFIX) names).
Proof.
  induction names as [|n names IH]; simpl; [constructor|]. intros Hn.
  apply NoDup_cons in Hn as [Hn Hns]. apply NoDup_cons. split; [|by apply IH].
  intros Hin. apply list_elem_of_In, in_map_iff in Hin as (m & Heq & Hm).
  apply perf_prefix_inj in Heq. subst. by apply Hn, list_elem_of_In.
Qed.

(** The loop over the lines gives one row for each line that is not empty,
    in order. *)
Lemma metrics_of_lines_rows header lines (metrics : list row) :
  metrics_of_lines float_ header lines metrics
  = metrics
    ++ map (fun l =>
              epoch_metrics_ float_
                (zip (tail (PyText.split_whitespace header)) (PyText.split_whitespace l)) [])
         (List.filter nonempty lines).
Proof.
  revert metrics. induction lines as [|l lines IH]; intros metrics; simpl.
  - by rewrite app_nil_r.
  - unfold nonempty at 1. destruct (String.eqb l EmptyString); simpl; [apply IH|].
    rewrite IH. by rewrite <- app_assoc.
Qed.

(** X10: A table whose header names its columns with distinct names: each line
    that is not empty gives the row of its words, column by column, under
    the names of the header after the first, each with [perf_] before it.  A
    word that reads as a number is kept as that number, any other word as
    it is.  Words without a column and columns without a word are left
    out. *)
Theorem parse_metrics_reads_a_table file w text w1 header lines :
  read_text file w = (inl text, w1) ->
  PyStr.split "010" text = header :: lines ->
  NoDup (tail (PyText.split_whitespace header)) ->
  _parse_metrics float_ read_text file w
  = (inl (map (row_of float_ (tail (PyText.split_whitespace header)))
            (List.filter nonempty lines)), w1).
Proof.
  intros Hr Hs Hn. unfold _parse_metrics, metrics_of_text. rewrite Hr, Hs.
  rewrite metrics_of_lines_rows. simpl. f_equal. f_equal.
  apply map_ext. intros l. rewrite epoch_metrics_fold, map_zip_row.
  apply (fold_dict_set_distinct _ []). simpl.
  apply zip_keys_NoDup. by apply perf_names_NoDup.
Qed.

(** X11: Whatever the text of the file, [_parse_metrics] does not fail once the
    file is read: it gives one row for each line after the first that is not
    empty, and in every row the keys are distinct and start with [perf_]. *)
Theorem parse_metrics_rows file w text w1 :
  read_text file w = (inl text, w1) ->
  exists metrics : list row,
    _parse_metrics float_ read_text file w = (inl metrics, w1)
    /\ length metrics = length (List.filter nonempty (tail (PyStr.split "010" text)))
    /\ Forall (fun r : row =>
                 NoDup (map fst r)
                 /\ Forall (fun k => PyStr.startswith k PERF_PREFIX = true) (map fst r))
         metrics.
Proof.
  intros Hr. unfold _parse_metrics, metrics_of_text. rewrite Hr.
  destruct (PyStr.split "010" text) as [|header lines].
  { exists []. split; [done|]. split; [done|]. constructor. }
  eexists. split; [reflexivity|]. rewrite metrics_of_lines_rows. simpl.
  split; [by rewrite length_map|].
  apply Forall_forall. intros r Hin. apply list_elem_of_In, in_map_iff in Hin as (l & <- & _).
  rewrite epoch_metrics_fold. split; [apply (fold_dict_set_NoDup _ []); constructor|].
  apply Forall_forall. intros k Hk.
  apply list_elem_of_In, in_map_iff in Hk as ([k' v] & <- & Hin).
  change (PyStr.startswith k' PERF_PREFIX = true).
  apply (JsonFacts.dict_of_pairs_In _ (k', v)) in Hin.
  apply in_map_iff in Hin as ([n val] & Heq & _). injection Heq as <- _.
  apply startswith_app.
Qed.

End ParseMetricsFacts.

Lemma parse_metrics_reads_a_table_witness :
  _parse_metrics Runs.float_ Runs.read_text "/runs/x1/001_perf" 0
  = (inl [[("perf_date", inr "d1"); ("perf_loss", inl "1.5"); ("perf_acc", inr "good")];
          [("perf_date", inr "d2"); ("perf_loss", inl "1.25")]], 1).
Proof.
  etransitivity.
  - apply (parse_metrics_reads_a_table Runs.float_ Runs.read_text "/runs/x1/001_perf" 0
             Runs.perf_001 1 "# date loss acc" ["d1 1.5 good"; ""; "d2 1.25"; ""]).
    + reflexivity.
    + vm_compute. reflexivity.
    + apply (bool_decide_eq_true_1 _). vm_compute. reflexivity.
  - vm_compute. reflexivity.
Defined.

Lemma parse_metrics_rows_witness :
  exists metrics,
    _parse_metrics Runs.float_ Runs.read_text "/runs/x1/002_perf" 0 = (inl metrics, 1)
    /\ length metrics = 2.
Proof.
  destruct (parse_metrics_rows Runs.float_ Runs.read_text "/runs/x1/002_perf" 0
              Runs.perf_002 1 eq_refl) as (metrics & Hm & Hlen & _).
  exists metrics. split; [exact Hm|]. exact Hlen.
Defined.

(** ** [Wav2letterLoader]: the datapoints of a run *)

Lemma append_inj_l a : forall x y, a +:+ x = a +:+ y -> x = y.
Proof. induction a as [|c a IH]; intros x y H; [done|]. injection H as H. by apply IH. Qed.

Lemma str_nat_inj i j : PyText.str_nat i = PyText.str_nat j -> i = j.
Proof.
  unfold PyText.str_nat. intros H. apply (f_equal NilEmpty.uint_of_string) in H.
  rewrite !NilEmpty.usu in H. injection H as H. by apply DecimalNat.Unsigned.to_uint_inj.
Qed.

Lemma ckpt_name_inj stem i j : ckpt_name stem i = ckpt_name stem j -> i = j.
Proof.
  unfold ckpt_name. intros H. apply append_inj_l in H.
  apply (append_inj_l "_") in H. by apply str_nat_inj.
Qed.

Section ChainFacts.

Context {Value : Type}.
Implicit Types (rows : list (list (string * Value))).

Lemma chain_of_length stem rows : length (chain_of stem rows) = length rows.
Proof. apply length_imap. Qed.

Lemma chain_of_values stem rows : map values (chain_of stem rows) = rows.
Proof.
  apply list_eq. intros i. unfold chain_of.
  rewrite list_lookup_fmap, list_lookup_imap. by destruct (rows !! i).
Qed.

Lemma chain_of_uids stem rows :
  map uid (chain_of stem rows) = map (ckpt_name stem) (seq 0 (length rows)).
Proof.
  apply list_eq. intros i. unfold chain_of.
  rewrite !list_lookup_fmap, list_lookup_imap.
  destruct (rows !! i) as [m|] eqn:Hi; simpl.
  - apply lookup_lt_Some in Hi. by rewrite lookup_seq_lt.
  - apply lookup_ge_None in Hi. by rewrite lookup_seq_ge.
Qed.

(** The uids of a chain are distinct, and each datapoint but the first
    comes from the one just before it. *)
Lemma chain_of_lineage stem rows :
  NoDup (map uid (chain_of stem rows))
  /\ forall i dp,
       chain_of stem rows !! i = Some dp ->
       uid dp = ckpt_name stem i
       /\ from_uid dp = match i with
                        | O => None
                        | S j => uid <$> chain_of stem rows !! j
                        end.
Proof.
  split.
  - rewrite chain_of_uids. apply NoDup_fmap_2; [|apply NoDup_seq].
    intros i j. apply ckpt_name_inj.
  - intros i dp Hi. unfold chain_of in *. rewrite list_lookup_imap in Hi.
    destruct (rows !! i) as [m|] eqn:Hm; [|done]. simpl in Hi. simplify_eq. simpl.
    split; [done|]. destruct i as [|j]; [done|].
    rewrite list_lookup_imap.
    assert (j < length rows) as Hj by (apply lookup_lt_Some in Hm; lia).
    apply lookup_lt_is_Some in Hj as [m' Hm']. by rewrite Hm'.
Qed.

End ChainFacts.

(** *** Sorting the names of the files *)

Lemma ascii_compare_N a b : Ascii.compare a b = (N_of_ascii a ?= N_of_ascii b)%N.
Proof. reflexivity. Qed.

Lemma name_le_trans : forall a b c, name_le a b -> name_le b c -> name_le a c.
Proof.
  unfold name_le, String.leb.
  induction a as [|x a IH]; intros [|y b] [|z c]; simpl; try done.
  rewrite !ascii_compare_N.
  destruct (N.compare_spec (N_of_ascii x) (N_of_ascii y)) as [Hxy|Hxy|Hxy];
    destruct (N.compare_spec (N_of_ascii y) (N_of_ascii z)) as [Hyz|Hyz|Hyz];
    destruct (N.compare_spec (N_of_ascii x) (N_of_ascii z)) as [Hxz|Hxz|Hxz];
    try done; try lia.
  apply IH.
Qed.

#[local] Instance name_le_transitive : Transitive name_le.
Proof. intros a b c. apply name_le_trans. Qed.

#[local] Instance name_le_antisymm : AntiSymm eq name_le.
Proof. intros a b. apply String.leb_antisym. Qed.

Lemma insert_sorted_Permutation x l : PyText.insert_sorted x l ≡ₚ x :: l.
Proof.
  induction l as [|y l IH]; simpl; [done|].
  destruct (String.leb x y); [done|]. rewrite IH. apply Permutation_swap.
Qed.

Lemma sorted_Permutation l : PyText.sorted l ≡ₚ l.
Proof.
  induction l as [|x l IH]; simpl; [done|]. by rewrite insert_sorted_Permutation, IH.
Qed.

Lemma insert_sorted_Sorted x l : Sorted name_le l -> Sorted name_le (PyText.insert_sorted x l).
Proof.
  induction l as [|y l IH]; simpl; intros Hl; [by repeat constructor|].
  destruct (String.leb x y) eqn:Hxy.
  - constructor; [done|]. by constructor.
  - apply Sorted_inv in Hl as [Hl Hhd]. constructor; [by apply IH|].
    assert (name_le y x) as Hyx.
    { destruct (String.leb_total x y) as [H|H]; [congruence|done]. }
    destruct l as [|z l]; simpl; [by constructor|].
    destruct (String.leb x z); constructor; [done|]. by inversion Hhd.
Qed.

Lemma sorted_Sorted l : Sorted name_le (PyText.sorted l).
Proof.
  induction l as [|x l IH]; simpl; [constructor|]. by apply insert_sorted_Sorted.
Qed.

Lemma sorted_order_free l1 l2 : l1 ≡ₚ l2 -> PyText.sorted l1 = PyText.sorted l2.
Proof.
  intros Hp. apply (Sorted_unique name_le); try apply sorted_Sorted.
  by rewrite !sorted_Permutation.
Qed.

Section Wav2letterCallFacts.

Context {Float World : Type}.
Variable float_ : string -> option Float.
Variable read_text : string -> World -> (string + exn) * World.
Variable path_join : string -> string -> string.

Abbreviation metrics_row := (list (string * (Float + string))).

Implicit Types (stem path : string) (perfs : list string) (w : World).
Implicit Types (rows : list metrics_row).

Lemma append_datapoints_chain stem (mtrics : list metrics_row) : forall rows,
  append_datapoints stem mtrics (chain_of stem rows) (last_name stem rows)
  = (chain_of stem (rows ++ mtrics), last_name stem (rows ++ mtrics)).
Proof.
  induction mtrics as [|m mtrics IH]; intros rows; simpl.
  - by rewrite app_nil_r.
  - assert (chain_of stem rows
            ++ [{| uid := stem +:+ "_" +:+ PyText.str_nat (length (chain_of stem rows));
                   values := m; from_uid := last_name stem rows |}]
            = chain_of stem (rows ++ [m])) as ->.
    { unfold chain_of. rewrite imap_app. simpl. rewrite length_imap, Nat.add_0_r.
      unfold last_name. by destruct (length rows). }
    assert (Some (stem +:+ "_" +:+ PyText.str_nat (length (chain_of stem rows)))
            = last_name stem (rows ++ [m])) as ->.
    { unfold last_name. rewrite chain_of_length, length_app. simpl.
      by rewrite Nat.add_1_r. }
    rewrite IH. by rewrite <- app_assoc.
Qed.

Lemma load_perfs_chain stem perfs : forall rows w,
  load_perfs float_ read_text stem perfs (chain_of stem rows) (last_name stem rows) w
  = match parse_all float_ read_text perfs w with
    | (inl metrics, w') => (inl (chain_of stem (rows ++ concat metrics)), w')
    | (inr e, w') => (inr e, w')
    end.
Proof.
  induction perfs as [|p perfs IH]; intros rows w; simpl.
  - by rewrite app_nil_r.
  - destruct (_parse_metrics float_ read_text p w) as [[mtrics|e] w1]; [|done].
    rewrite append_datapoints_chain, IH.
    destruct (parse_all float_ read_text perfs w1) as [[metrics|e] w2]; [|done].
    by rewrite <- app_assoc.
Qed.

Lemma wav2letter_call_chain glob path w perfs w1 :
  glob (path_join path "*_perf") w = (perfs, w1) ->
  Wav2letterLoader_call float_ read_text glob path_join (PStr ("w2l://" +:+ path)) w
  = match parse_all float_ read_text (PyText.sorted perfs) w1 with
    | (inl metrics, w2) =>
        (inl (chain_of (PyText.last_chars 5 path) (concat metrics)), w2)
    | (inr e, w2) => (inr e, w2)
    end.
Proof.
  intros Hg. unfold Wav2letterLoader_call.
  rewrite startswith_app, slice_from_app, Hg. simpl.
  apply (load_perfs_chain (PyText.last_chars 5 path) (PyText.sorted perfs) [] w1).
Qed.

(** X12: [load_wav2letter] declines a uri that does not start with [w2l://]
    without touching anything.  Otherwise it reads the files that [glob]
    finds, in the order of their names: when one of them cannot be read, that
    failure is the result; when all are read, the datapoints are the rows of
    all the files, in that order, as one chain, each row the values of its
    datapoint.  A directory without such files gives an Experiment without
    datapoints, not a refusal. *)
Theorem wav2letter_reads_every_file glob w :
  (forall uri,
     PyStr.startswith uri "w2l://" = false ->
     Wav2letterLoader_call float_ read_text glob path_join (PStr uri) w
     = (inr (ExperimentFetcherDoesntApply None), w))
  /\ (forall path perfs w1,
      glob (path_join path "*_perf") w = (perfs, w1) ->
      Wav2letterLoader_call float_ read_text glob path_join (PStr ("w2l://" +:+ path)) w
      = match parse_all float_ read_text (PyText.sorted perfs) w1 with
        | (inl metrics, w2) =>
            (inl (chain_of (PyText.last_chars 5 path) (concat metrics)), w2)
        | (inr e, w2) => (inr e, w2)
        end)
  /\ (forall path w1,
      glob (path_join path "*_perf") w = ([], w1) ->
      Wav2letterLoader_call float_ read_text glob path_join (PStr ("w2l://" +:+ path)) w
      = (inl [], w1)).
Proof.
  split; [|split].
  - intros uri Hs. unfold Wav2letterLoader_call. by rewrite Hs.
  - intros path perfs w1. apply wav2letter_call_chain.
  - intros path w1 Hg. by rewrite (wav2letter_call_chain glob path w [] w1 Hg).
Qed.

(** X13: In the Experiment that [load_wav2letter] returns the uids are distinct:
    the [i]-th datapoint is named by the last five characters of the path and
    by [i].  The first datapoint comes from nothing and every other one from
    the datapoint just before it, also across files. *)
Theorem wav2letter_lineage_is_one_chain glob path w (dps : list (@Datapoint (Float + string))) w' :
  Wav2letterLoader_call float_ read_text glob path_join (PStr ("w2l://" +:+ path)) w
  = (inl dps, w') ->
  NoDup (map uid dps)
  /\ forall i dp,
       dps !! i = Some dp ->
       uid dp = PyText.last_chars 5 path +:+ "_" +:+ PyText.str_nat i
       /\ from_uid dp = match i with
                        | O => None
                        | S j => uid <$> dps !! j
                        end.
Proof.
  intros Hcall.
  destruct (glob (path_join path "*_perf") w) as [perfs w1] eqn:Hg.
  rewrite (wav2letter_call_chain glob path w perfs w1 Hg) in Hcall.
  destruct (parse_all float_ read_text (PyText.sorted perfs) w1) as [[metrics|e] w2]; [|done].
  injection Hcall as <- _. apply chain_of_lineage.
Qed.

(** X14: The order in which [glob] lists the files does not matter: they are
    read in the order of their names, so two listings of the same files give
    the same result. *)
Theorem wav2letter_reads_files_by_name glob1 glob2 path w perfs1 perfs2 w1 :
  glob1 (path_join path "*_perf") w = (perfs1, w1) ->
  glob2 (path_join path "*_perf") w = (perfs2, w1) ->
  perfs1 ≡ₚ perfs2 ->
  Sorted name_le (PyText.sorted perfs1)
  /\ PyText.sorted perfs1 ≡ₚ perfs1
  /\ Wav2letterLoader_call float_ read_text glob1 path_join (PStr ("w2l://" +:+ path)) w
     = Wav2letterLoader_call float_ read_text glob2 path_join (PStr ("w2l://" +:+ path)) w.
Proof.
  intros H1 H2 Hp. split; [apply sorted_Sorted|]. split; [apply sorted_Permutation|].
  rewrite (wav2letter_call_chain glob1 path w perfs1 w1 H1).
  rewrite (wav2letter_call_chain glob2 path w perfs2 w1 H2).
  by rewrite (sorted_order_free perfs1 perfs2 Hp).
Qed.

End Wav2letterCallFacts.

Lemma wav2letter_reads_every_file_witness :
  Runs.load_wav2letter (PStr "/runs/x1") 0 = (inr (ExperimentFetcherDoesntApply None), 0)
  /\ Runs.load_wav2letter (PStr "w2l:///runs/gone") 0 = (inr FileNotFoundError, 1)
  /\ Runs.load_wav2letter (PStr "w2l:///runs/none") 0 = (inl [], 0).
Proof.
  destruct (wav2letter_reads_every_file Runs.float_ Runs.read_text Demo.path_join Runs.glob 0)
    as (Hgate & Hfiles & Hnone).
  split; [|split].
  - apply Hgate. reflexivity.
  - etransitivity; [apply (Hfiles "/runs/gone" ["/runs/gone/001_perf"] 0); reflexivity|].
    vm_compute. reflexivity.
  - apply (Hnone "/runs/none" 0). reflexivity.
Defined.

Lemma wav2letter_lineage_is_one_chain_witness :
  NoDup ["ns/x1_0"; "ns/x1_1"; "ns/x1_2"; "ns/x1_3"].
Proof.
  destruct (Runs.load_wav2letter (PStr "w2l:///runs/x1") 0) as [[dps|e] w'] eqn:Hcall;
    [|vm_compute in Hcall; discriminate].
  pose proof (wav2letter_lineage_is_one_chain Runs.float_ Runs.read_text Demo.path_join
                Runs.glob "/runs/x1" 0 dps w' Hcall) as [Hnodup _].
  vm_compute in Hcall. injection Hcall as <- <-. exact Hnodup.
Defined.

Lemma wav2letter_reads_files_by_name_witness :
  Runs.load_wav2letter (PStr "w2l:///runs/x1") 0
  = Wav2letterLoader_call Runs.float_ Runs.read_text
      (fun pattern w => (["/runs/x1/001_perf"; "/runs/x1/002_perf"], w)) Demo.path_join
      (PStr "w2l:///runs/x1") 0.
Proof.
  apply (wav2letter_reads_files_by_name Runs.float_ Runs.read_text Demo.path_join Runs.glob
           (fun pattern w => (["/runs/x1/001_perf"; "/runs/x1/002_perf"], w)) "/runs/x1" 0
           ["/runs/x1/002_perf"; "/runs/x1/001_perf"]
           ["/runs/x1/001_perf"; "/runs/x1/002_perf"] 0).
  - reflexivity.
  - reflexivity.
  - apply Permutation_swap.
Defined.

(** ** Code points *)

Lemma concat_cons x xs :
  String.concat EmptyString (x :: xs) = x +:+ String.concat EmptyString xs.
Proof.
  destruct xs as [|y xs]; simpl; [|done].
  induction x as [|c x IH]; [done|].
  change (String c x = String c (x +:+ EmptyString)). by rewrite <- IH.
Qed.

(** The code points of a text, put together again, are the text. *)
Lemma concat_codepoints s : String.concat EmptyString (PyText.codepoints s) = s.
Proof.
  induction s as [|c s IH]; [done|].
  change (PyText.codepoints (String c s))
    with (let chs := PyText.codepoints s in
          if PyText.continues s then
            match chs with
            | ch :: chs' => String c ch :: chs'
            | [] => [String c EmptyString]
            end
          else String c EmptyString :: chs).
  cbv zeta. destruct (PyText.continues s).
  - destruct (PyText.codepoints s) as [|ch chs] eqn:Hc.
    + simpl in IH. by subst.
    + rewrite concat_cons in *.
      change (String c (ch +:+ String.concat EmptyString chs) = String c s). by rewrite IH.
  - rewrite concat_cons.
    change (String c (String.concat EmptyString (PyText.codepoints s)) = String c s).
    by rewrite IH.
Qed.

Lemma has_char_app c a b : PyText.has_char c (a +:+ b) = PyText.has_char c a || PyText.has_char c b.
Proof.
  induction a as [|d a IH]; [done|].
  change (PyText.has_char c (String d (a +:+ b))
          = PyText.has_char c (String d a) || PyText.has_char c b).
  simpl. by rewrite IH, orb_assoc.
Qed.

Lemma has_char_concat c l :
  PyText.has_char c (String.concat EmptyString l) = existsb (PyText.has_char c) l.
Proof.
  induction l as [|x l IH]; [done|]. rewrite concat_cons, has_char_app, IH. done.
Qed.

Lemma existsb_rev' {A} (f : A -> bool) l : existsb f (rev l) = existsb f l.
Proof.
  induction l as [|x l IH]; simpl; [done|].
  rewrite existsb_app, IH. simpl. rewrite orb_false_r. apply orb_comm.
Qed.

(** A text and the text read backwards hold the same characters. *)
Lemma has_char_reversed c s : PyText.has_char c (PyText.reversed s) = PyText.has_char c s.
Proof.
  unfold PyText.reversed. rewrite has_char_concat, existsb_rev', <- has_char_concat.
  by rewrite concat_codepoints.
Qed.

Lemma split_once_without sep s :
  PyText.has_char sep s = false -> Fairseq.split_once sep s = [s].
Proof.
  induction s as [|c s IH]; simpl; [done|].
  destruct (Ascii.eqb c sep); simpl; [done|]. intros H. by rewrite IH.
Qed.

Lemma split_once_with sep s :
  PyText.has_char sep s = true -> exists a b, Fairseq.split_once sep s = [a; b].
Proof.
  induction s as [|c s IH]; simpl; [done|].
  destruct (Ascii.eqb c sep); simpl; [eauto|]. intros H.
  destruct (IH H) as (a & b & ->). eauto.
Qed.

(** The key of a part is there exactly when the part holds a space. *)
Lemma key_of_without_space p :
  PyText.has_char " " p = false -> Fairseq.key_of p = inr IndexError.
Proof.
  intros H. unfold Fairseq.key_of.
  by rewrite split_once_without by (by rewrite has_char_reversed).
Qed.

Lemma key_of_with_space p :
  PyText.has_char " " p = true -> exists k, Fairseq.key_of p = inl k.
Proof.
  intros H. unfold Fairseq.key_of.
  destruct (split_once_with " " (PyText.reversed p)) as (a & b & ->);
    [by rewrite has_char_reversed|]. eauto.
Qed.

Lemma str_int_inj n m : Fairseq.str_int n = Fairseq.str_int m -> n = m.
Proof.
  unfold Fairseq.str_int. intros H. apply (f_equal NilEmpty.int_of_string) in H.
  rewrite !NilEmpty.isi in H. injection H as H. by apply DecimalZ.to_int_inj.
Qed.

Lemma find_first {A} (f : A -> bool) pre x post :
  (forall y, In y pre -> f y = false) -> f x = true -> find f (pre ++ x :: post) = Some x.
Proof.
  intros Hpre Hx. induction pre as [|y pre IH]; simpl; [by rewrite Hx|].
  rewrite (Hpre y) by (by left). apply IH. intros z Hz. apply Hpre. by right.
Qed.

Lemma find_nothing {A} (f : A -> bool) l : (forall y, In y l -> f y = false) -> find f l = None.
Proof.
  intros Hl. induction l as [|y l IH]; simpl; [done|].
  rewrite (Hl y) by (by left). apply IH. intros z Hz. apply Hl. by right.
Qed.

(** ** [load_fairseq]: the log that is read *)

Section FairseqFacts.

Context {Literal Float World : Type}.
Variables is_dir is_file : string -> World -> bool.
Variable glob : string -> World -> list string * World.
Variable path_join : string -> string -> string.
Variable read_text : string -> World -> (string + exn) * World.
Variable parse_namespace : string -> list (string * Literal) + exn.
Variable int_ : string -> option Z.
Variable float_ : string -> option Float.

Abbreviation load_fairseq_ :=
  (Fairseq.load_fairseq is_dir is_file glob path_join read_text parse_namespace int_ float_).
Abbreviation read_log_ := (Fairseq.read_log read_text parse_namespace int_ float_).
Abbreviation lines_loop_ := (Fairseq.lines_loop parse_namespace int_ float_).
Abbreviation epoch_line_ := (Fairseq.epoch_line int_ float_).
Abbreviation parts_loop_ := (@Fairseq.parts_loop Literal Float float_).
Abbreviation fairseq_store := (list (Z * @Datapoint (@Fairseq.value Literal Float))).

Implicit Types (s : fairseq_store) (w : World) (params : list (string * Literal)).

(** X15: [load_fairseq] declines a uri that does not start with [fairseq://]
    without touching anything.  A path that is not a directory is read as
    the log, so that a path that does not exist is a failure and not a
    refusal.  In a directory the log is the first that is a file among
    [train.log], [process.out], [process_0.out], the [*.log] files and the
    [*.log] files of [slurm_logs], in this order; with none of them the uri is
    declined, after both listings were made. *)
Theorem fairseq_log_file_choice w :
  (forall uri,
     PyStr.startswith uri "fairseq://" = false ->
     load_fairseq_ (PStr uri) w = (inr (ExperimentFetcherDoesntApply None), w))
  /\ (forall path,
      is_dir path w = false ->
      load_fairseq_ (PStr ("fairseq://" +:+ path)) w = read_log_ path w)
  /\ (forall path logs w1 slurm_logs w2,
      is_dir path w = true ->
      glob (path_join path "*.log") w = (logs, w1) ->
      glob (path_join (path_join path "slurm_logs") "*.log") w1 = (slurm_logs, w2) ->
      ((forall f, In f (Fairseq.try_files path_join path logs slurm_logs) ->
                  is_file f w2 = false) ->
       load_fairseq_ (PStr ("fairseq://" +:+ path)) w
       = (inr (ExperimentFetcherDoesntApply (Some "No log file found")), w2))
      /\ (forall pre f post,
          Fairseq.try_files path_join path logs slurm_logs = pre ++ f :: post ->
          (forall g, In g pre -> is_file g w2 = false) ->
          is_file f w2 = true ->
          load_fairseq_ (PStr ("fairseq://" +:+ path)) w = read_log_ f w2)).
Proof.
  split; [|split].
  - intros uri Hs. unfold Fairseq.load_fairseq. by rewrite Hs.
  - intros path Hd. unfold Fairseq.load_fairseq, Fairseq.train_log.
    by rewrite startswith_app, slice_from_app, Hd.
  - intros path logs w1 slurm_logs w2 Hd Hg1 Hg2.
    unfold Fairseq.load_fairseq, Fairseq.train_log.
    rewrite startswith_app, slice_from_app, Hd, Hg1, Hg2. simpl negb. cbv iota.
    split.
    + intros Hnone. by rewrite (find_nothing _ _ Hnone).
    + intros pre f post Heq Hpre Hf. rewrite Heq.
      by rewrite (find_first (fun f => is_file f w2) pre f post Hpre Hf).
Qed.

(** X16: Only the lines that start with [Namespace(] or with [| epoch] count:
    the other lines of a log can be taken out, or put in, without any
    change to what the loop over the lines gives. *)
Theorem fairseq_ignores_other_lines lines params s :
  lines_loop_ lines params s = lines_loop_ (List.filter Fairseq.relevant lines) params s.
Proof.
  revert params s. induction lines as [|l lines IH]; intros params s; [done|].
  cbn [Fairseq.lines_loop List.filter]. unfold Fairseq.relevant at 1.
  destruct (PyStr.startswith l "Namespace(") eqn:Hn; cbn [orb].
  - cbn [Fairseq.lines_loop]. rewrite Hn. destruct (parse_namespace l); [apply IH|done].
  - destruct (PyStr.startswith l "| epoch") eqn:He; [|apply IH].
    cbn [Fairseq.lines_loop]. rewrite Hn, He.
    destruct (Fairseq.epoch_line int_ float_ l params s); [apply IH|done].
Qed.

End FairseqFacts.

(** ** [load_fairseq]: the datapoints *)

Section FairseqDatapoints.

Context {Literal Float World : Type}.
Variables is_dir is_file : string -> World -> bool.
Variable glob : string -> World -> list string * World.
Variable path_join : string -> string -> string.
Variable read_text : string -> World -> (string + exn) * World.
Variable parse_namespace : string -> list (string * Literal) + exn.
Variable int_ : string -> option Z.
Variable float_ : string -> option Float.

Abbreviation fs_store := (list (Z * @Datapoint (@Fairseq.value Literal Float))).
Abbreviation fs_value := (@Fairseq.value Literal Float).

Implicit Types (s : fs_store) (w : World) (params : list (string * Literal)).

Lemma shape_set_value epoch key (v : fs_value) s :
  fairseq_shape (Fairseq.set_value epoch key v s) = fairseq_shape s.
Proof.
  induction s as [|[n dp] s IH]; simpl; [done|].
  destruct (Z.eqb n epoch); simpl; [done|]. by rewrite IH.
Qed.

Lemma dict_set_keeps {A} k k' (v : A) d :
  dict_get k d <> None -> dict_get k (dict_set k' v d) <> None.
Proof.
  intros H. destruct (decide (k' = k)) as [->|Hne].
  - by rewrite dict_get_set_eq.
  - by rewrite dict_get_set_ne.
Qed.

Lemma epoch_key_set_value epoch key (v : fs_value) s :
  has_epoch_key s -> has_epoch_key (Fairseq.set_value epoch key v s).
Proof.
  unfold has_epoch_key. induction s as [|[n dp] s IH]; simpl; [done|]. intros H.
  apply Forall_cons in H as [Hdp Hs].
  destruct (Z.eqb n epoch); apply Forall_cons; split; simpl in *; auto.
  by apply dict_set_keeps.
Qed.

Lemma parts_loop_keeps epoch parts : forall prefix s s',
  Fairseq.parts_loop float_ epoch parts prefix s = inl s' ->
  fairseq_shape s' = fairseq_shape s /\ (has_epoch_key s -> has_epoch_key s').
Proof.
  induction parts as [|p parts IH]; intros prefix s s' H; simpl in H; [by simplify_eq|].
  destruct (Fairseq.match_ds (PyText.strip p)) as [ds|]; [by apply IH in H|].
  destruct (Fairseq.key_of (PyText.strip p)) as [k|e]; [|done].
  apply IH in H as [Hshape Hkey]. rewrite shape_set_value in Hshape.
  split; [done|]. intros Hs. by apply Hkey, epoch_key_set_value.
Qed.

Lemma lookup_epoch_Some epoch s dp :
  Fairseq.lookup_epoch epoch s = Some dp -> exists j, s !! j = Some (epoch, dp).
Proof.
  induction s as [|[n d] s IH]; simpl; [done|].
  destruct (Z.eqb n epoch) eqn:Hn.
  - apply Z.eqb_eq in Hn as ->. intros ?; simplify_eq. by exists 0.
  - intros H. destruct (IH H) as [j Hj]. by exists (S j).
Qed.

Lemma lookup_epoch_None epoch s :
  Fairseq.lookup_epoch epoch s = None -> ~ In epoch (map fst s).
Proof.
  induction s as [|[n d] s IH]; simpl; [tauto|].
  destruct (Z.eqb n epoch) eqn:Hn; [done|]. apply Z.eqb_neq in Hn. intros H [?|?]; [done|].
  by apply IH.
Qed.

Lemma shape_epochs s : map (fun x => fst (fst x)) (fairseq_shape s) = map fst s.
Proof. unfold fairseq_shape. rewrite map_map. done. Qed.

Lemma shape_lookup s i :
  fairseq_shape s !! i = (fun nd => (fst nd, uid (snd nd), from_uid (snd nd))) <$> s !! i.
Proof. unfold fairseq_shape. apply list_lookup_fmap. Qed.

(** A new datapoint keeps the datapoints consistent. *)
Lemma consistent_new epoch params s :
  consistent (fairseq_shape s) ->
  Fairseq.has_epoch epoch s = false ->
  consistent (fairseq_shape (s ++ [(epoch, Fairseq.new_datapoint epoch params s)])).
Proof.
  intros (Hnodup & Huid & Hfrom) Hnew. unfold Fairseq.has_epoch in Hnew.
  destruct (Fairseq.lookup_epoch epoch s) eqn:Hl; [done|]. apply lookup_epoch_None in Hl.
  unfold fairseq_shape. rewrite map_app. fold (fairseq_shape s). simpl.
  split; [|split].
  - rewrite map_app, shape_epochs. simpl. apply NoDup_app.
    rewrite shape_epochs in Hnodup. split; [done|]. split; [|apply NoDup_singleton].
    intros x Hx Hx'. apply list_elem_of_singleton in Hx'. subst.
    by apply Hl, list_elem_of_In.
  - intros n u f Hin. apply in_app_iff in Hin as [Hin|[Heq|[]]]; [by eapply Huid|].
    by simplify_eq.
  - intros i n u v Hi.
    destruct (decide (i < length (fairseq_shape s))) as [Hlt|Hge].
    + rewrite lookup_app_l in Hi by done.
      destruct (Hfrom i n u v Hi) as (Hv & j & u' & f' & Hj & Hsj).
      split; [done|]. exists j, u', f'. split; [done|].
      rewrite lookup_app_l; [done|]. lia.
    + rewrite lookup_app_r in Hi by lia.
      destruct (i - length (fairseq_shape s)) as [|k] eqn:Hk; [|done].
      simpl in Hi. unfold Fairseq.has_epoch in Hi.
      destruct (Fairseq.lookup_epoch (epoch - 1) s) as [dp|] eqn:Hprev; [|done].
      simplify_eq. split; [done|].
      apply lookup_epoch_Some in Hprev as [j Hj].
      exists j, (uid dp), (from_uid dp).
      assert (j < length s) as Hjs by (by eapply lookup_lt_Some).
      assert (length (fairseq_shape s) = length s) as Hlen by apply length_map.
      split; [lia|]. rewrite lookup_app_l by lia. by rewrite shape_lookup, Hj.
Qed.

Lemma epoch_key_new epoch params s :
  has_epoch_key s -> has_epoch_key (s ++ [(epoch, Fairseq.new_datapoint epoch params s)]).
Proof.
  intros Hs. apply Forall_app. split; [done|]. apply Forall_singleton. simpl.
  rewrite dict_get_of_pairs. simpl. rewrite dict_get_app. simpl.
  by destruct (dict_get "epoch" _).
Qed.

Lemma epoch_line_consistent l params s s' :
  Fairseq.epoch_line int_ float_ l params s = inl s' ->
  consistent (fairseq_shape s) /\ has_epoch_key s ->
  consistent (fairseq_shape s') /\ has_epoch_key s'.
Proof.
  unfold Fairseq.epoch_line. intros H [Hc Hk].
  destruct (int_ _) as [epoch|]; [|done].
  apply parts_loop_keeps in H as [Hshape Hkey]. rewrite Hshape.
  destruct (Fairseq.has_epoch epoch s) eqn:He; [by auto|].
  split; [by apply consistent_new|]. by apply Hkey, epoch_key_new.
Qed.

Lemma lines_loop_consistent lines : forall params s s',
  Fairseq.lines_loop parse_namespace int_ float_ lines params s = inl s' ->
  consistent (fairseq_shape s) /\ has_epoch_key s ->
  consistent (fairseq_shape s') /\ has_epoch_key s'.
Proof.
  induction lines as [|l lines IH]; intros params s s' H Hs;
    cbn [Fairseq.lines_loop] in H; [by simplify_eq|].
  destruct (PyStr.startswith l "Namespace(").
  { destruct (parse_namespace l) as [params'|e]; [|done]. by eapply IH. }
  destruct (PyStr.startswith l "| epoch"); [|by eapply IH].
  destruct (Fairseq.epoch_line int_ float_ l params s) as [s1|e] eqn:Hl; [|done].
  eapply IH; [exact H|]. by eapply epoch_line_consistent.
Qed.

(** X17: In the Experiment that [load_fairseq] returns there is one datapoint
    for each epoch met, in the order the epochs were first met: the uids are
    distinct, every datapoint has a value under [epoch], and a datapoint that
    comes from another one comes from a datapoint that is in the Experiment,
    before it. *)
Theorem fairseq_datapoints_are_consistent uri w (dps : list (@Datapoint fs_value)) w' :
  Fairseq.load_fairseq is_dir is_file glob path_join read_text parse_namespace int_ float_
    (PStr uri) w = (inl dps, w') ->
  NoDup (map uid dps)
  /\ (forall dp, In dp dps -> dict_get "epoch" (values dp) <> None)
  /\ (forall i dp u,
        dps !! i = Some dp -> from_uid dp = Some u ->
        exists j dp', j < i /\ dps !! j = Some dp' /\ uid dp' = u).
Proof.
  unfold Fairseq.load_fairseq. intros H.
  destruct (negb _); [done|].
  destruct (Fairseq.train_log _ _ _ _ _ _) as [[file|] w1]; [|done].
  unfold Fairseq.read_log in H.
  destruct (read_text file w1) as [[text|e] w2]; [|done].
  destruct (Fairseq.lines_loop _ _ _ _ _ _) as [s|e] eqn:Hloop; [|done].
  injection H as <- _.
  destruct (lines_loop_consistent _ _ _ _ Hloop) as [(Hnodup & Huid & Hfrom) Hkey].
  { split; [|constructor]. split; [constructor|]. split; [done|]. intros i n u v Hi. done. }
  assert (forall i n dp, s !! i = Some (n, dp) -> uid dp = Fairseq.str_int n) as Huid'.
  { intros i n dp Hi. apply (Huid n (uid dp) (from_uid dp)).
    apply list_elem_of_In, list_elem_of_lookup. exists i. by rewrite shape_lookup, Hi. }
  split; [|split].
  - assert (map uid (map snd s) = map Fairseq.str_int (map fst s)) as ->.
    { apply list_eq. intros i. rewrite !list_lookup_fmap.
      destruct (s !! i) as [[n dp]|] eqn:Hi; [|done]. simpl. f_equal. by eapply Huid'. }
    apply NoDup_fmap_2; [intros n m; apply str_int_inj|]. by rewrite <- shape_epochs.
  - intros dp Hin. apply in_map_iff in Hin as ([n dp'] & <- & Hin).
    unfold has_epoch_key in Hkey. rewrite Forall_forall in Hkey.
    by apply (Hkey (n, dp')), list_elem_of_In.
  - intros i dp u Hi Hu. rewrite list_lookup_fmap in Hi.
    destruct (s !! i) as [[n dp']|] eqn:Hsi; [|done]. simpl in Hi. simplify_eq.
    destruct (Hfrom i n (uid dp) u) as (Hv & j & u' & f' & Hj & Hsj).
    { by rewrite shape_lookup, Hsi, <- Hu. }
    rewrite shape_lookup in Hsj. destruct (s !! j) as [[m dpj]|] eqn:Hsj'; [|done].
    simpl in Hsj. simplify_eq. exists j, dpj. split; [done|].
    rewrite list_lookup_fmap, Hsj'. split; [done|]. by eapply Huid'.
Qed.

(** X18: A part of an epoch line that is not the name of a subset and holds no
    space, after its white space is taken off, is [IndexError]: so is a part
    that is empty, as after a bar that ends the line.  The parts before it
    are those that did not fail. *)
Theorem fairseq_part_without_a_space_fails l params s epoch pre p post :
  int_ (PyText.first_chars 3 (Fairseq.lstrip_chars "| epoch" l)) = Some epoch ->
  tail (PyStr.split "|" (Fairseq.lstrip_chars "| epoch" l)) = pre ++ p :: post ->
  (forall q, In q pre ->
     Fairseq.match_ds (PyText.strip q) <> None \/ PyText.has_char " " (PyText.strip q) = true) ->
  Fairseq.match_ds (PyText.strip p) = None ->
  PyText.has_char " " (PyText.strip p) = false ->
  Fairseq.epoch_line int_ float_ l params s = inr IndexError.
Proof.
  intros Hint Hparts Hpre Hp Hspace. unfold Fairseq.epoch_line. rewrite Hint, Hparts.
  generalize (if Fairseq.has_epoch epoch s then s
              else s ++ [(epoch, Fairseq.new_datapoint epoch params s)]).
  generalize EmptyString. clear Hint Hparts.
  induction pre as [|q pre IH]; intros prefix s0; simpl.
  - rewrite Hp. by rewrite key_of_without_space.
  - destruct (Fairseq.match_ds (PyText.strip q)) as [ds|] eqn:Hq.
    + apply IH. intros q' Hq'. apply Hpre. by right.
    + destruct (Hpre q (or_introl eq_refl)) as [Hm|Hs]; [congruence|].
      destruct (key_of_with_space _ Hs) as [k ->].
      apply IH. intros q' Hq'. apply Hpre. by right.
Qed.

End FairseqDatapoints.

Lemma fairseq_log_file_choice_witness :
  Logs.load_fairseq (PStr "/exp") 0 = (inr (ExperimentFetcherDoesntApply None), 0)
  /\ Logs.load_fairseq (PStr "fairseq:///nothing") 0 = (inr FileNotFoundError, 1)
  /\ Logs.load_fairseq (PStr "fairseq:///exp") 0
     = Fairseq.read_log Logs.read_text Logs.parse_namespace Logs.int_ Runs.float_
         "/exp/process.out" 0
  /\ Logs.load_fairseq (PStr "fairseq:///exp/slurm_logs") 0
     = (inr FileNotFoundError, 1).
Proof.
  destruct (fairseq_log_file_choice Logs.is_dir Logs.is_file Logs.glob Demo.path_join
              Logs.read_text Logs.parse_namespace Logs.int_ Runs.float_ 0)
    as (Hgate & Hfile & Hdir).
  split; [|split; [|split]].
  - apply Hgate. reflexivity.
  - etransitivity; [apply (Hfile "/nothing"); reflexivity|]. vm_compute. reflexivity.
  - destruct (Hdir "/exp" ["/exp/b.log"] 0 [] 0 eq_refl eq_refl eq_refl) as [_ Hfirst].
    apply (Hfirst ["/exp/train.log"] "/exp/process.out" ["/exp/process_0.out"; "/exp/b.log"]).
    + reflexivity.
    + intros g [<-|[]]. reflexivity.
    + reflexivity.
  - etransitivity; [apply (Hfile "/exp/slurm_logs"); reflexivity|]. vm_compute. reflexivity.
Defined.

Lemma fairseq_datapoints_are_consistent_witness : NoDup ["1"; "2"].
Proof.
  destruct (Logs.load_fairseq (PStr "fairseq:///exp") 0) as [[dps|e] w'] eqn:Hcall;
    [|vm_compute in Hcall; discriminate].
  pose proof (fairseq_datapoints_are_consistent Logs.is_dir Logs.is_file Logs.glob
                Demo.path_join Logs.read_text Logs.parse_namespace Logs.int_ Runs.float_
                "fairseq:///exp" 0 dps w' Hcall) as [Hnodup _].
  vm_compute in Hcall. injection Hcall as <- <-. exact Hnodup.
Defined.

Lemma fairseq_part_without_a_space_fails_witness :
  Fairseq.epoch_line Logs.int_ Runs.float_ Logs.bad_log ([] : list (string * string)) []
  = inr IndexError.
Proof.
  apply (fairseq_part_without_a_space_fails Logs.int_ Runs.float_ Logs.bad_log [] [] 1%Z
           [" loss 8.5 "] EmptyString []).
  - vm_compute. reflexivity.
  - vm_compute. reflexivity.
  - intros q [<-|[]]. right. vm_compute. reflexivity.
  - reflexivity.
  - reflexivity.
Defined.

(** ** Reading a text backwards *)

Lemma append_nil_r s : s +:+ EmptyString = s.
Proof.
  induction s as [|c s IH]; [done|].
  change (String c (s +:+ EmptyString) = String c s). by rewrite IH.
Qed.

Lemma append_assoc a b c : (a +:+ b) +:+ c = a +:+ (b +:+ c).
Proof.
  induction a as [|x a IH]; [done|].
  change (String x ((a +:+ b) +:+ c) = String x (a +:+ (b +:+ c))). by rewrite IH.
Qed.

Lemma concat_app l1 l2 :
  String.concat EmptyString (l1 ++ l2)
  = String.concat EmptyString l1 +:+ String.concat EmptyString l2.
Proof.
  induction l1 as [|x l1 IH]; [done|].
  rewrite <- app_comm_cons, !concat_cons, IH. by rewrite append_assoc.
Qed.

Lemma continues_app a b :
  PyText.continues (a +:+ b) = match a with EmptyString => PyText.continues b | _ => PyText.continues a end.
Proof. by destruct a. Qed.

Lemma codepoints_cons c s :
  PyText.codepoints (String c s)
  = if PyText.continues s then
      match PyText.codepoints s with
      | ch :: chs => String c ch :: chs
      | [] => [String c EmptyString]
      end
    else String c EmptyString :: PyText.codepoints s.
Proof. reflexivity. Qed.

Lemma codepoints_nonempty c s : PyText.codepoints (String c s) <> [].
Proof.
  rewrite codepoints_cons. destruct (PyText.continues s); [|done].
  by destruct (PyText.codepoints s).
Qed.

(** The code points of two texts put together, when the second starts
    with a code point of its own. *)
Lemma codepoints_app a b :
  PyText.continues b = false ->
  PyText.codepoints (a +:+ b) = PyText.codepoints a ++ PyText.codepoints b.
Proof.
  intros Hb. induction a as [|c a IH]; [done|].
  change (String c a +:+ b) with (String c (a +:+ b)).
  rewrite !codepoints_cons, continues_app, IH.
  destruct a as [|d a]; [by rewrite Hb|].
  destruct (PyText.continues (String d a)); [|done].
  pose proof (codepoints_nonempty d a).
  by destruct (PyText.codepoints (String d a)).
Qed.

Lemma codepoints_one c rest :
  PyText.all_continue rest = true -> PyText.codepoints (String c rest) = [String c rest].
Proof.
  revert c. induction rest as [|d rest IH]; intros c H; [done|].
  simpl in H. apply andb_true_iff in H as [Hd Hrest].
  rewrite codepoints_cons. simpl PyText.continues. rewrite Hd. by rewrite (IH d Hrest).
Qed.

Lemma codepoints_tails s :
  Forall (fun ch => match ch with
                    | EmptyString => False
                    | String _ rest => PyText.all_continue rest = true
                    end) (PyText.codepoints s)
  /\ match PyText.codepoints s, s with
     | ch :: chs, String c _ =>
         (exists rest, ch = String c rest) /\ Forall (fun ch => PyText.is_code_point ch = true) chs
     | [], EmptyString => True
     | _, _ => False
     end.
Proof.
  induction s as [|c s [IH1 IH2]]; [by split|].
  rewrite codepoints_cons.
  destruct (PyText.continues s) eqn:Hc.
  - destruct (PyText.codepoints s) as [|ch chs]; [by destruct s|].
    destruct s as [|d s]; [done|]. destruct IH2 as [[rest ->] Hchs].
    apply Forall_cons in IH1 as [Hrest Htl]. simpl in Hc.
    split; [|by eauto].
    apply Forall_cons. split; [|done]. simpl. by rewrite Hc, Hrest.
  - split; [by apply Forall_cons|]. split; [by eauto|].
    destruct (PyText.codepoints s) as [|ch chs]; [done|].
    destruct s as [|d s]; [done|]. destruct IH2 as [[rest ->] Hchs].
    apply Forall_cons in IH1 as [Hrest Htl]. simpl in Hc.
    apply Forall_cons. split; [|done]. simpl. by rewrite Hc, Hrest.
Qed.

(** A text that starts with a code point of its own is cut into code
    points. *)
Lemma codepoints_are_code_points s :
  PyText.continues s = false -> Forall (fun ch => PyText.is_code_point ch = true) (PyText.codepoints s).
Proof.
  intros Hs. destruct (codepoints_tails s) as [H1 H2].
  destruct (PyText.codepoints s) as [|ch chs]; [done|].
  destruct s as [|c s]; [done|]. destruct H2 as [[rest ->] Hchs].
  apply Forall_cons in H1 as [Hrest _]. simpl in Hs.
  apply Forall_cons. split; [|done]. simpl. by rewrite Hs, Hrest.
Qed.

Lemma continues_concat l :
  Forall (fun ch => PyText.is_code_point ch = true) l ->
  PyText.continues (String.concat EmptyString l) = false.
Proof.
  intros Hl. destruct l as [|ch l]; [done|]. rewrite concat_cons.
  apply Forall_cons in Hl as [Hch _]. destruct ch as [|c rest]; [done|].
  simpl in *. apply andb_true_iff in Hch as [Hc _]. by destruct (PyText.is_continuation c).
Qed.

(** Code points put together are cut into the same code points. *)
Lemma codepoints_concat l :
  Forall (fun ch => PyText.is_code_point ch = true) l ->
  PyText.codepoints (String.concat EmptyString l) = l.
Proof.
  induction l as [|ch l IH]; intros Hl; [done|].
  apply Forall_cons in Hl as [Hch Hl]. rewrite concat_cons.
  rewrite codepoints_app by (by apply continues_concat). rewrite IH by done.
  destruct ch as [|c rest]; [done|]. simpl in Hch. apply andb_true_iff in Hch as [_ Hrest].
  by rewrite codepoints_one.
Qed.

(** Read backwards twice, a text is itself. *)
Lemma reversed_reversed s : PyText.continues s = false -> PyText.reversed (PyText.reversed s) = s.
Proof.
  intros Hs. unfold PyText.reversed.
  rewrite codepoints_concat.
  - by rewrite rev_involutive, concat_codepoints.
  - apply Forall_rev. by apply codepoints_are_code_points.
Qed.

(** Read backwards, what was after the last space comes first. *)
Lemma reversed_at_space a b :
  PyText.continues b = false ->
  PyText.reversed (a +:+ " " +:+ b) = PyText.reversed b +:+ " " +:+ PyText.reversed a.
Proof.
  intros Hb. unfold PyText.reversed.
  change (" " +:+ b) with (String " " b).
  rewrite (codepoints_app a (String " " b)) by done.
  rewrite codepoints_cons, Hb. rewrite rev_app_distr. simpl rev.
  rewrite <- app_assoc, concat_app. simpl app. by rewrite concat_cons.
Qed.

Lemma split_once_at sep x y :
  PyText.has_char sep x = false -> Fairseq.split_once sep (x +:+ String sep y) = [x; y].
Proof.
  induction x as [|c x IH]; intros Hx.
  - simpl. by rewrite Ascii.eqb_refl.
  - change (String c x +:+ String sep y) with (String c (x +:+ String sep y)).
    simpl in *. apply orb_false_iff in Hx as [Hc Hx]. rewrite Hc. by rewrite IH.
Qed.

(** The key of a part is what is before its last space, and its value what
    is after it, each without the white space around it. *)
Lemma key_and_value a b :
  PyText.has_char " " b = false ->
  PyText.continues a = false -> PyText.continues b = false ->
  Fairseq.key_of (a +:+ " " +:+ b) = inl (PyText.strip a)
  /\ Fairseq.value_of (a +:+ " " +:+ b) = PyText.strip b.
Proof.
  intros Hsp Ha Hb. unfold Fairseq.key_of, Fairseq.value_of.
  rewrite reversed_at_space by done.
  change (" " +:+ PyText.reversed a) with (String " " (PyText.reversed a)).
  rewrite split_once_at by (by rewrite has_char_reversed).
  by rewrite !reversed_reversed.
Qed.

(** ** [load_fairseq]: the parts of an epoch line *)

Section FairseqParts.

Context {Literal Float : Type}.
Variable float_ : string -> option Float.

Implicit Types (s : list (Z * @Datapoint (@Fairseq.value Literal Float))).

(** X19: The parts of an epoch line, one after the other.  A part that names a
    subset, as in [valid on 'valid' subset], stores nothing: the name and
    [_] come before the keys of the parts after it on the line.  Any other
    part is cut at its last space: what is before it is the key and what is
    after it the value, a number where it reads as one, stored in the
    datapoint of the epoch. *)
Theorem fairseq_part_is_a_key_and_a_value epoch p rest prefix s :
  (forall ds,
     Fairseq.match_ds (PyText.strip p) = Some ds ->
     Fairseq.parts_loop float_ epoch (p :: rest) prefix s
     = Fairseq.parts_loop float_ epoch rest (ds +:+ "_") s)
  /\ (forall a b,
      Fairseq.match_ds (PyText.strip p) = None ->
      PyText.strip p = a +:+ " " +:+ b ->
      PyText.has_char " " b = false ->
      PyText.continues a = false -> PyText.continues b = false ->
      Fairseq.parts_loop float_ epoch (p :: rest) prefix s
      = Fairseq.parts_loop float_ epoch rest prefix
          (Fairseq.set_value epoch (prefix +:+ PyText.strip a)
             (match float_ (PyText.strip b) with
              | Some x => Fairseq.Number x
              | None => Fairseq.Text (PyText.strip b)
              end) s)).
Proof.
  split.
  - intros ds Hm. cbn [Fairseq.parts_loop]. by rewrite Hm.
  - intros a b Hm Hp Hsp Ha Hb. cbn [Fairseq.parts_loop]. rewrite Hm, Hp.
    destruct (key_and_value a b Hsp Ha Hb) as [-> ->]. done.
Qed.

End FairseqParts.

Lemma fairseq_part_is_a_key_and_a_value_witness :
  Fairseq.parts_loop Runs.float_ 1 [" valid on 'valid' subset "; " best loss 7.5 "] EmptyString
    [(1%Z, {| uid := "1"; values := ([] : list (string * @Fairseq.value string string));
              from_uid := None |})]
  = inl [(1%Z, {| uid := "1"; values := [("valid_best loss", Fairseq.Number "7.5")];
                  from_uid := None |})].
Proof.
  rewrite (proj1 (fairseq_part_is_a_key_and_a_value Runs.float_ 1 " valid on 'valid' subset "
                    [" best loss 7.5 "] EmptyString _) "valid") by (vm_compute; reflexivity).
  rewrite (proj2 (fairseq_part_is_a_key_and_a_value Runs.float_ 1 " best loss 7.5 "
                    [] ("valid" +:+ "_") _) "best loss" "7.5");
    try (vm_compute; reflexivity).
Defined.

(** ** The list of [get_fetchers], with all its loaders *)

Lemma endswith_csv_not_json s :
  PyStr.endswith s ".csv" = true -> PyStr.endswith s ".json" = false.
Proof.
  intros H. destruct (PyStr.endswith s ".json") eqn:Hj; [|done].
  apply endswith_json_not_csv in Hj. congruence.
Qed.

Section DefaultRegistryFacts.

Context {Experiment World Module File Literal Float : Type}.
Variable merge : list (string * Experiment) -> Experiment.
Variable import_module : string -> World -> (Module + exn) * World.
Variable getcwd : World -> string.
Variable path_join : string -> string -> string.
Variable exec_source_file : string -> string -> World -> (Module + exn) * World.
Variable getattr : Module -> string -> option (@fetcher Experiment World).
Variable open_ : string -> World -> (File + exn) * World.
Variable from_iterable_DictReader : File -> World -> (Experiment + exn) * World.
Variable README_DEMOS : gmap string (World -> (Experiment + exn) * World).
Variable read_file : string -> World -> (string + exn) * World.
Variable str_ : pyval -> string.
Variable from_iterable : pyval -> World -> (Experiment + exn) * World.
Variables is_dir is_file : string -> World -> bool.
Variable glob : string -> World -> list string * World.
Variable read_text : string -> World -> (string + exn) * World.
Variable parse_namespace : string -> list (string * Literal) + exn.
Variable int_ : string -> option Z.
Variable float_ : string -> option Float.
Variable experiment_of_log : list (@Datapoint (@Fairseq.value Literal Float)) -> Experiment.
Variable experiment_of_perfs : list (@Datapoint (Float + string)) -> Experiment.

Abbreviation defaults :=
  (default_fetchers path_join open_ from_iterable_DictReader README_DEMOS read_file str_
     from_iterable is_dir is_file glob read_text parse_namespace int_ float_
     experiment_of_log experiment_of_perfs).
Abbreviation get_defaults :=
  (default_get_fetchers import_module getcwd path_join exec_source_file getattr
     open_ from_iterable_DictReader README_DEMOS read_file str_ from_iterable
     is_dir is_file glob read_text parse_namespace int_ float_
     experiment_of_log experiment_of_perfs).
Abbreviation the_demo := (Function "load_demo" (load_demo README_DEMOS)).
Abbreviation the_csv := (Function "load_csv" (load_csv open_ from_iterable_DictReader)).
Abbreviation the_json := (Function "load_json" (load_json read_file str_ from_iterable)).
Abbreviation the_fairseq :=
  (Function "load_fairseq"
     (loader_of experiment_of_log
        (Fairseq.load_fairseq is_dir is_file glob path_join read_text parse_namespace
           int_ float_))).
Abbreviation the_wav2letter :=
  (Function "load_wav2letter"
     (loader_of experiment_of_perfs (Wav2letterLoader_call float_ read_text glob path_join))).

Implicit Types (h hf : gmap loc (list (@fetcher Experiment World))) (w : World).
Implicit Types (rest others : list (@fetcher Experiment World)).

Lemma defaults_are :
  defaults = [the_demo; the_csv; the_json; the_fairseq; the_wav2letter].
Proof. reflexivity. Qed.

Lemma all_decline_app h (fs1 fs2 : list (@fetcher Experiment World)) (uri : pyval) w :
  all_decline merge h (fs1 ++ fs2) uri w
  = match all_decline merge h fs1 uri w with
    | Some w1 => all_decline merge h fs2 uri w1
    | None => None
    end.
Proof.
  revert w. induction fs1 as [|f fs1 IH]; intros w; simpl; [done|].
  destruct (call merge h f uri w) as [[r w1] inner]. by destruct (declines r).
Qed.

(** One turn of the loop of the dispatcher, for a loader that declines. *)
Lemma load_decline_step h (f : @fetcher Experiment World) fs (uri : pyval) w r w1 inner :
  call merge h f uri w = (r, w1, inner) /\ declines r = true ->
  load_xp_with_fetchers merge h (f :: fs) uri w
  = let '(r', w2, evs) := load_xp_with_fetchers merge h fs uri w1 in
    (r', w2, Call f uri inner :: evs).
Proof.
  intros [Hc Hr]. unfold load_xp_with_fetchers. cbn [load_xp_with_fetchers_].
  by rewrite Hc, Hr.
Qed.

(** The built-in loaders decline a composite uri that is not the name of a
    demo and ends neither in [.csv] nor in [.json], and leave the world as it
    is. *)
Lemma defaults_decline_composite h payload w :
  README_DEMOS !! (MULTI_PREFIX +:+ payload) = None ->
  PyStr.endswith (MULTI_PREFIX +:+ payload) ".csv" = false ->
  PyStr.endswith (MULTI_PREFIX +:+ payload) ".json" = false ->
  all_decline merge h defaults (PStr (MULTI_PREFIX +:+ payload)) w = Some w.
Proof.
  intros Hd Hc Hj. rewrite defaults_are. cbn [all_decline].
  rewrite !(call_body merge).
  assert (forall w, load_demo README_DEMOS (PStr (MULTI_PREFIX +:+ payload)) w
                    = (inr (ExperimentFetcherDoesntApply None), w)) as Hdemo
    by (intros w'; unfold load_demo; by rewrite Hd).
  assert (forall w, exists msg,
            load_csv open_ from_iterable_DictReader (PStr (MULTI_PREFIX +:+ payload)) w
            = (inr (ExperimentFetcherDoesntApply msg), w)) as Hcsv
    by (intros w'; unfold load_csv; rewrite Hc; by eexists).
  assert (forall w, exists msg,
            load_json read_file str_ from_iterable (PStr (MULTI_PREFIX +:+ payload)) w
            = (inr (ExperimentFetcherDoesntApply msg), w)) as Hjson
    by (intros w'; unfold load_json; rewrite Hj; by eexists).
  assert (forall w,
            loader_of experiment_of_log
              (Fairseq.load_fairseq is_dir is_file glob path_join read_text parse_namespace
                 int_ float_) (PStr (MULTI_PREFIX +:+ payload)) w
            = (inr (ExperimentFetcherDoesntApply None), w)) as Hfairseq by done.
  assert (forall w,
            loader_of experiment_of_perfs
              (Wav2letterLoader_call float_ read_text glob path_join)
              (PStr (MULTI_PREFIX +:+ payload)) w
            = (inr (ExperimentFetcherDoesntApply None), w)) as Hw2l by done.
  destruct (Hcsv w) as [m1 Hcsv']. destruct (Hjson w) as [m2 Hjson'].
  rewrite !Hdemo. cbn [fst snd outcome declines].
  rewrite !Hcsv'. cbn [fst snd outcome declines].
  rewrite !Hjson'. cbn [fst snd outcome declines].
  rewrite !Hfairseq. cbn [fst snd outcome declines].
  rewrite !Hw2l. done.
Qed.

Lemma MultipleFetcher_accepts_composite h l payload w :
  declines (MultipleFetcher_call merge h l (PStr (MULTI_PREFIX +:+ payload)) w).1.1 = false.
Proof.
  destruct (declines _) eqn:Hd; [|done].
  unfold MultipleFetcher_call in Hd. rewrite call_MultipleFetcher in Hd.
  apply MultipleFetcher_call_declines in Hd as [(s & Heq & Hs) _].
  injection Heq as <-. by rewrite startswith_app in Hs.
Qed.

(** X20: A composite uri goes through the whole list that [get_fetchers]
    returns before it is resolved: the five built-in loaders decline it
    without touching anything (it is the name of no demo and ends neither in
    [.csv] nor in [.json]), then the added loaders are asked, and only when
    they all decline does the [MultipleFetcher], which is last, resolve it.
    With no added loader there is nothing between the built-in loaders and
    the [MultipleFetcher]. *)
Theorem composite_uris_pass_the_builtins add_fetchers h w0 xp_fetchers hf w1 :
  get_defaults add_fetchers h w0 = (Return xp_fetchers, hf, w1) ->
  exists others self_fetchers,
    hf !! xp_fetchers = Some (defaults ++ others ++ [MultipleFetcher self_fetchers])
    /\ hf !! self_fetchers = Some (defaults ++ others ++ [MultipleFetcher self_fetchers])
    /\ (add_fetchers = [] -> others = [])
    /\ forall payload w w',
         README_DEMOS !! (MULTI_PREFIX +:+ payload) = None ->
         PyStr.endswith (MULTI_PREFIX +:+ payload) ".csv" = false ->
         PyStr.endswith (MULTI_PREFIX +:+ payload) ".json" = false ->
         all_decline merge hf others (PStr (MULTI_PREFIX +:+ payload)) w = Some w' ->
         load_xp_with_fetchers merge hf (defaults ++ others ++ [MultipleFetcher self_fetchers])
           (PStr (MULTI_PREFIX +:+ payload)) w
         = let '(r, w'', inner) :=
             MultipleFetcher_call merge hf self_fetchers (PStr (MULTI_PREFIX +:+ payload)) w' in
           (r, w'',
            plain_calls defaults (PStr (MULTI_PREFIX +:+ payload))
            ++ plain_calls others (PStr (MULTI_PREFIX +:+ payload))
            ++ [Call (MultipleFetcher self_fetchers) (PStr (MULTI_PREFIX +:+ payload)) inner]).
Proof.
  intros Hg. unfold default_get_fetchers in Hg.
  pose proof (get_fetchers_spec import_module getcwd path_join exec_source_file getattr
                open_ from_iterable_DictReader (load_demo README_DEMOS)
                (load_json read_file str_ from_iterable)
                (loader_of experiment_of_log
                   (Fairseq.load_fairseq is_dir is_file glob path_join read_text
                      parse_namespace int_ float_))
                (loader_of experiment_of_perfs
                   (Wav2letterLoader_call float_ read_text glob path_join))
                add_fetchers h w0) as Hspec.
  destruct (resolve_specs import_module getcwd path_join exec_source_file getattr
              add_fetchers w0) as [[others|e] w'] eqn:Hr.
  2:{ destruct Hspec as (hf' & Hg'). rewrite Hg in Hg'. done. }
  destruct Hspec as (hf' & self_fetchers & Hg' & _ & Hl & Hself & _).
  rewrite Hg in Hg'. simplify_eq.
  exists others, self_fetchers. split; [exact Hl|]. split; [exact Hself|].
  split; [intros ->; simpl in Hr; by simplify_eq|].
  intros payload w w'' Hd Hc Hj Hothers.
  destruct (MultipleFetcher_call merge hf' self_fetchers (PStr (MULTI_PREFIX +:+ payload)) w'')
    as [[r w3] inner] eqn:Hcall.
  pose proof (MultipleFetcher_accepts_composite hf' self_fetchers payload w'') as Hacc.
  rewrite Hcall in Hacc. simpl in Hacc.
  rewrite (load_first_answer merge hf' (defaults ++ others ++ [MultipleFetcher self_fetchers])
             (length (defaults ++ others)) (MultipleFetcher self_fetchers)
             (PStr (MULTI_PREFIX +:+ payload)) w w'' r w3 inner).
  - rewrite app_assoc, take_app_length.
    unfold plain_calls. by rewrite map_app, <- app_assoc.
  - rewrite app_assoc. by rewrite lookup_app_r, Nat.sub_diag by lia.
  - rewrite app_assoc, take_app_length, all_decline_app.
    by rewrite (defaults_decline_composite hf' payload w Hd Hc Hj).
  - exact Hcall.
  - exact Hacc.
Qed.

(** X21: A uri that ends in [.csv] and is not the name of a demo: when
    [load_csv] does not decline, what it does is the result and no loader
    after it is called; when the file is not found, [load_csv] declines,
    [load_json] declines too, and the resolution goes on with [load_fairseq],
    [load_wav2letter] and the loaders after them. *)
Theorem csv_files_go_to_load_csv h rest (uri : string) w :
  README_DEMOS !! uri = None ->
  PyStr.endswith uri ".csv" = true ->
  (forall r w',
     load_csv open_ from_iterable_DictReader (PStr uri) w = (r, w') ->
     declines (outcome r) = false ->
     load_xp_with_fetchers merge h (defaults ++ rest) (PStr uri) w
     = (outcome r, w', [Call the_demo (PStr uri) []; Call the_csv (PStr uri) []]))
  /\ (forall w1,
      open_ uri w = (inr FileNotFoundError, w1) ->
      load_xp_with_fetchers merge h (defaults ++ rest) (PStr uri) w
      = let '(r, w2, evs) :=
          load_xp_with_fetchers merge h ([the_fairseq; the_wav2letter] ++ rest) (PStr uri) w1 in
        (r, w2,
         [Call the_demo (PStr uri) []; Call the_csv (PStr uri) []; Call the_json (PStr uri) []]
         ++ evs)).
Proof.
  intros Hd Hc. split.
  - intros r w' Hcsv Hr.
    apply (load_first_answer merge h (defaults ++ rest) 1 the_csv (PStr uri) w w);
      [done| | |done].
    + rewrite defaults_are. cbn [take app all_decline].
      rewrite (call_body merge). cbn [fst snd].
      unfold load_demo. by rewrite Hd.
    + rewrite (call_body merge). by rewrite Hcsv.
  - intros w1 Ho. rewrite defaults_are.
    change ([the_demo; the_csv; the_json; the_fairseq; the_wav2letter] ++ rest)
      with (the_demo :: the_csv :: the_json :: [the_fairseq; the_wav2letter] ++ rest).
    rewrite (load_decline_step h the_demo _ (PStr uri) w
               (Raise (ExperimentFetcherDoesntApply None)) w [])
      by (rewrite ?(call_body merge); unfold load_demo; by rewrite ?Hd).
    rewrite (load_decline_step h the_csv _ (PStr uri) w
               (Raise (ExperimentFetcherDoesntApply (Some ("No such file: " +:+ uri)))) w1 [])
      by (rewrite ?(call_body merge); unfold load_csv; by rewrite ?Hc, ?Ho).
    rewrite (load_decline_step h the_json _ (PStr uri) w1
               (Raise (ExperimentFetcherDoesntApply (Some ("Not a JSON file: " +:+ uri)))) w1 [])
      by (rewrite ?(call_body merge); unfold load_json;
          by rewrite ?(endswith_csv_not_json uri Hc)).
    by destruct (load_xp_with_fetchers merge h ([the_fairseq; the_wav2letter] ++ rest)
                   (PStr uri) w1) as [[r w2] evs].
Qed.

(** X22: A value that is not a string, as a sub-uri of a composite uri can be,
    does not get past the first two loaders: a list or a mapping cannot be
    looked up among the demos, which is [TypeError]; [None], a boolean or a
    number is no demo, and has no [endswith] for [load_csv] to call, which is
    [AttributeError]. *)
Theorem values_that_are_not_strings_fail_early h rest w :
  (forall v, atom v ->
     load_xp_with_fetchers merge h (defaults ++ rest) v w
     = (Raise (AttributeError "endswith"), w, [Call the_demo v []; Call the_csv v []]))
  /\ (forall items,
      load_xp_with_fetchers merge h (defaults ++ rest) (PList items) w
      = (Raise (TypeError "unhashable type"), w, [Call the_demo (PList items) []]))
  /\ (forall items,
      load_xp_with_fetchers merge h (defaults ++ rest) (PDict items) w
      = (Raise (TypeError "unhashable type"), w, [Call the_demo (PDict items) []])).
Proof.
  split; [|split].
  - intros v Hv.
    apply (load_first_answer merge h (defaults ++ rest) 1 the_csv v w w); [done| | |done].
    + rewrite defaults_are. cbn [take app all_decline].
      rewrite (call_body merge). by destruct v.
    + rewrite (call_body merge). by destruct v.
  - intros items.
    apply (load_first_answer merge h (defaults ++ rest) 0 the_demo (PList items) w w); done.
  - intros items.
    apply (load_first_answer merge h (defaults ++ rest) 0 the_demo (PDict items) w w); done.
Qed.

End DefaultRegistryFacts.

(** The list of the instance, with no added loader. *)
Lemma full_get_fetchers : exists hf, Full.get_fetchers [] = (Return 0, hf, 0).
Proof.
  pose proof (get_fetchers_spec Demo.import_module Demo.getcwd Demo.path_join
                Demo.exec_source_file Demo.getattr Demo.open_ Demo.from_iterable_DictReader
                (load_demo Sample.README_DEMOS) Sample.load_json
                (loader_of Full.experiment_of
                   (Fairseq.load_fairseq Logs.is_dir Logs.is_file Logs.glob Demo.path_join
                      Logs.read_text Logs.parse_namespace Logs.int_ Runs.float_))
                (loader_of Full.experiment_of
                   (Wav2letterLoader_call Runs.float_ Logs.read_text Logs.glob Demo.path_join))
                [] ∅ 0) as Hspec.
  cbn [resolve_specs] in Hspec. destruct Hspec as (hf & self_fetchers & Hg & _).
  exists hf. exact Hg.
Qed.

Lemma composite_uris_pass_the_builtins_witness :
  exists hf self_fetchers,
    Full.get_fetchers [] = (Return 0, hf, 0)
    /\ load_xp_with_fetchers Demo.merge hf (Full.fetchers ++ [] ++ [MultipleFetcher self_fetchers])
         (PStr (MULTI_PREFIX +:+ quoted "['demo']")) 0
       = let '(r, w, inner) :=
           MultipleFetcher_call Demo.merge hf self_fetchers
             (PStr (MULTI_PREFIX +:+ quoted "['demo']")) 0 in
         (r, w,
          plain_calls Full.fetchers (PStr (MULTI_PREFIX +:+ quoted "['demo']"))
          ++ plain_calls [] (PStr (MULTI_PREFIX +:+ quoted "['demo']"))
          ++ [Call (MultipleFetcher self_fetchers)
                (PStr (MULTI_PREFIX +:+ quoted "['demo']")) inner]).
Proof.
  destruct full_get_fetchers as [hf Hg].
  destruct (composite_uris_pass_the_builtins Demo.merge Demo.import_module Demo.getcwd
              Demo.path_join Demo.exec_source_file Demo.getattr Demo.open_
              Demo.from_iterable_DictReader Sample.README_DEMOS Sample.read_file Sample.str_
              Sample.from_iterable Logs.is_dir Logs.is_file Logs.glob Logs.read_text
              Logs.parse_namespace Logs.int_ Runs.float_ Full.experiment_of Full.experiment_of
              [] ∅ 0 0 hf 0 Hg)
    as (others & self_fetchers & _ & _ & Hnone & Hroute).
  rewrite (Hnone eq_refl) in Hroute.
  exists hf, self_fetchers. split; [exact Hg|].
  apply (Hroute (quoted "['demo']") 0 0); reflexivity.
Defined.

Lemma csv_files_go_to_load_csv_witness :
  (load_xp_with_fetchers Demo.merge ∅ (Full.fetchers ++ []) (PStr "data.csv") 0).1
  = (Return [Demo.point "x,y" None], 1)
  /\ (load_xp_with_fetchers Demo.merge ∅ (Full.fetchers ++ []) (PStr "missing.csv") 0).1
     = (Raise (NoFetcherFound (PStr "missing.csv")), 1).
Proof.
  split.
  - exact (f_equal fst
             (proj1 (csv_files_go_to_load_csv Demo.merge Demo.path_join Demo.open_
                       Demo.from_iterable_DictReader Sample.README_DEMOS Sample.read_file
                       Sample.str_ Sample.from_iterable Logs.is_dir Logs.is_file Logs.glob
                       Logs.read_text Logs.parse_namespace Logs.int_ Runs.float_
                       Full.experiment_of Full.experiment_of ∅ [] "data.csv" 0
                       eq_refl eq_refl)
                (inl [Demo.point "x,y" None]) 1 eq_refl eq_refl)).
  - etransitivity.
    + apply (f_equal fst).
      apply (proj2 (csv_files_go_to_load_csv Demo.merge Demo.path_join Demo.open_
                      Demo.from_iterable_DictReader Sample.README_DEMOS Sample.read_file
                      Sample.str_ Sample.from_iterable Logs.is_dir Logs.is_file Logs.glob
                      Logs.read_text Logs.parse_namespace Logs.int_ Runs.float_
                      Full.experiment_of Full.experiment_of ∅ [] "missing.csv" 0
                      eq_refl eq_refl) 1).
      reflexivity.
    + vm_compute. reflexivity.
Defined.

Lemma values_that_are_not_strings_fail_early_witness :
  (load_xp_with_fetchers Demo.merge ∅ (Full.fetchers ++ []) (PInt "3") 0).1
  = (Raise (AttributeError "endswith"), 0).
Proof.
  exact (f_equal fst
           (proj1 (values_that_are_not_strings_fail_early Demo.merge Demo.path_join Demo.open_
                     Demo.from_iterable_DictReader Sample.README_DEMOS Sample.read_file
                     Sample.str_ Sample.from_iterable Logs.is_dir Logs.is_file Logs.glob
                     Logs.read_text Logs.parse_namespace Logs.int_ Runs.float_
                     Full.experiment_of Full.experiment_of ∅ [] 0)
              (PInt "3") I)).
Defined.
